(** * Cortex multi-agent coordination layer: a shallow embedding

    The development follows the JavaScript sources.

    - [JsString]: the string primitives the sources rely on
      ([toLowerCase], [includes], [trim], [split], the [/^(\w+):/] match).
    - [Num]: numbers and the falsy default [x || d].
    - [Double]: numbers as IEEE 754 double-precision values.
    - [SoulState]: class [SoulState], the emotional state store
      (soul/soul_state.js, delivered with soul/cognitive_engine.js).
    - [CognitiveEngine]: class [CognitiveEngine] (soul/cognitive_engine.js).
    - [ConversationCoordinator]: class [ConversationCoordinator]
      (agent/conversation_coordinator.js) with the part of
      [SoulStateManager] it uses, and the calls [agent.js] makes on it.
    - [Relationship], [TraitEvolution], [RelationshipManager]: the classes
      of soul/relationship_manager.js, on exact numbers.
    - [Relationship64]: class [Relationship] on double-precision numbers.
    - [CommandRelay]: class [CommandRelay] (delivered with
      mindcraft/mindserver.js); [MindServer]: the hub's event handlers.
    - [Agent]: the chat handler and the leader's thought tick
      (agent/agent.js); [LeaderCommands]: the leader's commands
      (agent/commands/actions.js).

    Conventions.  Where a property is a bound or a comparison that rounding
    cannot tip, JavaScript numbers are idealised as rationals ([Q]): the
    arithmetic is exact and there is no NaN.  The classification of a
    relationship compares a computed mean with thresholds, and there the
    last bit decides: [Relationship64] models the same class on binary64
    values, NaN included.  Strings are byte strings and the case mapping is
    the ASCII one.  Every [Math.random()] call site is an explicit argument
    (a draw in the unit interval), every [Date.now()] an explicit clock
    value, and every outbound effect (socket emission, oracle query, timer)
    is appended to a returned trace.  The definitions come first; the
    properties, one module of facts per module of definitions, follow. *)

From Stdlib Require Import Ascii String QArith Qminmax Qabs Qround Lqa.
From Stdlib Require Import SpecFloat.
From stdpp Require Import gmap strings list fin_maps pretty.

Open Scope string_scope.

(* ===================================================================== *)
(** ** JavaScript string primitives *)
(* ===================================================================== *)

Module JsString.

Definition newline : string := String (ascii_of_nat 10) "".
Definition dquote : string := String (ascii_of_nat 34) "".

(** ASCII case mapping of [String.prototype.toLowerCase]. *)
Definition lowerChar (c : ascii) : ascii :=
  let n := nat_of_ascii c in
  if (65 <=? n)%nat && (n <=? 90)%nat then ascii_of_nat (n + 32) else c.

Fixpoint toLowerCase (s : string) : string :=
  match s with
  | "" => ""
  | String c s' => String (lowerChar c) (toLowerCase s')
  end.

(** [startsWith s p] is [s.startsWith(p)]. *)
Fixpoint startsWith (s p : string) {struct p} : bool :=
  match p, s with
  | "", _ => true
  | String _ _, "" => false
  | String a p', String b s' => if ascii_dec a b then startsWith s' p' else false
  end.

(** [includes s p] is [s.includes(p)]. *)
Fixpoint includes (s p : string) : bool :=
  startsWith s p ||
  match s with
  | "" => false
  | String _ s' => includes s' p
  end.

Fixpoint trimStart (s : string) : string :=
  match s with
  | "" => ""
  | String c s' => if Ascii.is_space c then trimStart s' else s
  end.

Fixpoint trimEnd (s : string) : string :=
  match s with
  | "" => ""
  | String c s' =>
      match trimEnd s' with
      | "" => if Ascii.is_space c then "" else String c ""
      | t => String c t
      end
  end.

Definition trim (s : string) : string := trimEnd (trimStart s).

(** A string is truthy in JavaScript when it is not empty. *)
Definition truthy (s : string) : bool :=
  match s with "" => false | _ => true end.

(** [orStr o d] is [o || d] for a possibly undefined string. *)
Definition orStr (o : option string) (d : string) : string :=
  match o with
  | Some s => if truthy s then s else d
  | None => d
  end.

(** The delimiter class of the regular expression [/[\s\n.,!?]/]. *)
Definition isDelimiter (c : ascii) : bool :=
  Ascii.is_space c ||
  match c with
  | "."%char | ","%char | "!"%char | "?"%char => true
  | _ => false
  end.

(** [firstToken s] is [s.split(/[\s\n.,!?]/)[0]]. *)
Fixpoint firstToken (s : string) : string :=
  match s with
  | "" => ""
  | String c s' => if isDelimiter c then "" else String c (firstToken s')
  end.

(** [splitLines s] is [s.split('\n')]: never empty. *)
Fixpoint splitLines (s : string) : list string :=
  match s with
  | "" => [""]
  | String c s' =>
      if ascii_dec c (ascii_of_nat 10) then "" :: splitLines s'
      else match splitLines s' with
           | [] => [String c ""]
           | l :: ls => String c l :: ls
           end
  end.

(** [lastN n l] is [l.slice(-n)] for a positive [n]. *)
Definition lastN {A} (n : nat) (l : list A) : list A :=
  drop (length l - n) l.

(** The class [\w] of JavaScript regular expressions. *)
Definition isWordChar (c : ascii) : bool :=
  let n := nat_of_ascii c in
  ((48 <=? n)%nat && (n <=? 57)%nat) ||
  ((65 <=? n)%nat && (n <=? 90)%nat) ||
  ((97 <=? n)%nat && (n <=? 122)%nat) ||
  (n =? 95)%nat.

(** Longest prefix of word characters, and what follows it. *)
Fixpoint spanWord (s : string) : string * string :=
  match s with
  | "" => ("", "")
  | String c s' =>
      if isWordChar c
      then let '(w, rest) := spanWord s' in (String c w, rest)
      else ("", s)
  end.

(** [matchSpeaker line] is the first group of [line.match(/^(\w+):/)]:
    the greedy run of word characters must be non-empty and be followed by
    a colon (a shorter run would be followed by a word character). *)
Definition matchSpeaker (line : string) : option string :=
  match spanWord line with
  | (String c w, String ":" _) => Some (String c w)
  | _ => None
  end.

(** [join sep l] is [l.join(sep)]. *)
Fixpoint join (sep : string) (l : list string) : string :=
  match l with
  | [] => ""
  | [x] => x
  | x :: rest => x +:+ sep +:+ join sep rest
  end.

(** [strIn x l] is [l.includes(x)] on an array of strings. *)
Definition strIn (x : string) (l : list string) : bool :=
  bool_decide (x ∈ l).

(** First and last characters are not white space. *)
Definition firstNonSpace (p : string) : bool :=
  match p with
  | "" => false
  | String c _ => negb (Ascii.is_space c)
  end.

Fixpoint lastNonSpace (p : string) : bool :=
  match p with
  | "" => false
  | String c "" => negb (Ascii.is_space c)
  | String _ p' => lastNonSpace p'
  end.

(** The string holds a line feed. *)
Fixpoint hasNewline (s : string) : bool :=
  match s with
  | "" => false
  | String c s' => if ascii_dec c (ascii_of_nat 10) then true else hasNewline s'
  end.

(** A non-empty run of word characters, such as a player name. *)
Fixpoint allWordChars (s : string) : bool :=
  match s with
  | "" => true
  | String c s' => isWordChar c && allWordChars s'
  end.

Definition isWord (s : string) : bool := truthy s && allWordChars s.

(** A string with a character that is not white space. *)
Definition hasInk (s : string) : Prop :=
  ∃ a c b, Ascii.is_space c = false ∧ s = a +:+ String c b.

End JsString.

(* ===================================================================== *)
(** ** JavaScript numbers, idealised as rationals *)
(* ===================================================================== *)

Module Num.
Open Scope Q_scope.

Definition Qltb (a b : Q) : bool := negb (Qle_bool b a).
Definition Qleb (a b : Q) : bool := Qle_bool a b.

(** [orNum o d] is [o || d] for a possibly undefined number: [undefined]
    and [0] are both falsy. *)
Definition orNum (o : option Q) (d : Q) : Q :=
  match o with
  | Some v => if Qeq_bool v 0 then d else v
  | None => d
  end.

(** [Math.max(0, Math.min(1, x))]. *)
Definition clamp01 (x : Q) : Q := Qmax 0 (Qmin 1 x).

End Num.

(* ===================================================================== *)
(** ** JavaScript numbers as they are: IEEE 754 binary64 *)
(* ===================================================================== *)

Module Double.

Definition prec : Z := 53.
Definition emax : Z := 1024.

(** A Number value: a zero, an infinity, NaN or a finite double. *)
Definition t : Type := spec_float.

Definition NaN : t := S754_nan.

Definition isNaN (x : t) : bool :=
  match x with S754_nan => true | _ => false end.

(** The double of an integer, and of a decimal literal [n/d]: the double
    nearest to it, which is what dividing the two integers gives. *)
Definition ofZ (z : Z) : t := binary_normalize prec emax z 0 false.

Definition literal (q : Q) : t :=
  SFdiv prec emax (ofZ (Qnum q)) (ofZ (Zpos (Qden q))).

Definition add : t → t → t := SFadd prec emax.
Definition sub : t → t → t := SFsub prec emax.
Definition mul : t → t → t := SFmul prec emax.
Definition div : t → t → t := SFdiv prec emax.
Definition abs : t → t := SFabs.

(** [a < b] and [a <= b]; both are false when an operand is NaN. *)
Definition ltb (a b : t) : bool := SFltb a b.
Definition leb (a b : t) : bool := SFleb a b.

(** [Math.max(a, b)] and [Math.min(a, b)]: NaN when an operand is NaN, and
    [-0] counts as smaller than [+0]. *)
Definition max (a b : t) : t :=
  if isNaN a || isNaN b then NaN
  else if ltb a b then b
  else if ltb b a then a
  else match a with S754_zero true => b | _ => a end.

Definition min (a b : t) : t :=
  if isNaN a || isNaN b then NaN
  else if ltb a b then a
  else if ltb b a then b
  else match a with S754_zero false => b | _ => a end.

End Double.

(* ===================================================================== *)
(** ** Soul state: the per-agent emotional state store *)
(* ===================================================================== *)

Module SoulState.
Import JsString Num.
Open Scope Q_scope.

(** The personality object handed to the constructor.  Every field may be
    missing; [currentEmotion] is written back by [setEmotion]. *)
Record Personality := mkPersonality {
  chattiness : option Q;
  emotionalVolatility : option Q;
  angerThreshold : option Q;
  responseDelay : option (Q * Q);
  interests : list string;
  currentEmotion : option string
}.

Definition emptyPersonality : Personality :=
  mkPersonality None None None None [] None.

Record EmotionChange := mkEmotionChange {
  changeFrom : string;
  changeTo : string;
  changeIntensity : Q;
  changeTimestamp : Z
}.

Record Grievance := mkGrievance {
  player : string;
  count : nat;
  lastTime : Z;
  reasons : list string
}.

(** The fields of [SoulState] that its emotion methods read or write.
    [emotionDecayRate] is set to [0.1] by the constructor and never
    assigned again, so it is a constant here. *)
Record t := mkSoulState {
  botName : string;
  personality : Personality;
  emotion : string;
  emotionIntensity : Q;
  emotionHistory : list EmotionChange;
  lastEmotionChange : Z;
  frustrationLevel : Q;
  grievances : list Grievance
}.

Definition emotionDecayRate : Q := 0.1.

(** [new SoulState(botName, personality)]. *)
Definition new (name : string) (p : Personality) (now : Z) : t :=
  {| botName := name; personality := p;
     emotion := "calm"; emotionIntensity := 0.5;
     emotionHistory := []; lastEmotionChange := now;
     frustrationLevel := 0; grievances := [] |}.

Definition volatility (p : Personality) : Q := orNum (emotionalVolatility p) 0.5.
Definition threshold (p : Personality) : Q := orNum (angerThreshold p) 0.5.

(** The emotion that a request for [emotion] is turned into: anger is
    downgraded while frustration is below the anger threshold. *)
Definition effectiveEmotion (s : t) (emotion : string) : string :=
  if String.eqb emotion "angry" then
    if Qltb (frustrationLevel s) (threshold (personality s)) then
      if Qltb (threshold (personality s) * 0.5) (frustrationLevel s)
      then "frustrated" else "annoyed"
    else emotion
  else emotion.

(** The stoic roll: a calm agent whose change resistance exceeds one half
    keeps calm when the draw falls below [changeResistance - 0.3]. *)
Definition resists (s : t) (rnd : Q) : bool :=
  let changeResistance := 1 - volatility (personality s) in
  Qltb 0.5 changeResistance && String.eqb (emotion s) "calm" &&
  Qltb rnd (changeResistance - 0.3).

Definition pushHistory (h : list EmotionChange) (c : EmotionChange) :
  list EmotionChange :=
  let h' := (h ++ [c])%list in
  if (10 <? length h')%nat then tail h' else h'.

Definition setCurrentEmotion (p : Personality) (e : string) : Personality :=
  {| chattiness := chattiness p; emotionalVolatility := emotionalVolatility p;
     angerThreshold := angerThreshold p; responseDelay := responseDelay p;
     interests := interests p; currentEmotion := Some e |}.

(** [setEmotion(emotion, intensity)]. *)
Definition setEmotion (emotion : string) (intensity : Q) (now : Z) (rnd : Q)
  (s : t) : t :=
  let previousEmotion := SoulState.emotion s in
  let vol := volatility (personality s) in
  let emotion := effectiveEmotion s emotion in
  if resists s rnd then s
  else
    let newIntensity := clamp01 (intensity * (0.5 + vol * 0.5)) in
    let frustrationGain := 0.2 * (0.5 + vol * 0.5) in
    {| botName := botName s;
       personality := setCurrentEmotion (personality s) emotion;
       emotion := emotion;
       emotionIntensity := newIntensity;
       emotionHistory :=
         pushHistory (emotionHistory s)
           (mkEmotionChange previousEmotion emotion newIntensity now);
       lastEmotionChange := now;
       frustrationLevel :=
         if strIn emotion ["angry"; "frustrated"; "annoyed"; "irritated"]
         then Qmin 1 (frustrationLevel s + frustrationGain)
         else if strIn emotion ["happy"; "calm"; "grateful"]
         then Qmax 0 (frustrationLevel s - 0.1)
         else frustrationLevel s;
       grievances := grievances s |}.

(** [addGrievance(playerName, reason)]: the first record of that player is
    updated in place, otherwise a new record is pushed. *)
Fixpoint addGrievanceTo (playerName reason : string) (now : Z)
  (gs : list Grievance) : list Grievance :=
  match gs with
  | [] => [mkGrievance playerName 1 now [reason]]
  | g :: rest =>
      if String.eqb (player g) playerName
      then mkGrievance (player g) (S (count g)) now (reasons g ++ [reason])%list :: rest
      else g :: addGrievanceTo playerName reason now rest
  end.

Definition addGrievance (playerName reason : string) (now : Z) (s : t) : t :=
  {| botName := botName s; personality := personality s;
     emotion := emotion s; emotionIntensity := emotionIntensity s;
     emotionHistory := emotionHistory s;
     lastEmotionChange := lastEmotionChange s;
     frustrationLevel := frustrationLevel s;
     grievances := addGrievanceTo playerName reason now (grievances s) |}.

Definition withIntensity (i : Q) (s : t) : t :=
  {| botName := botName s; personality := personality s;
     emotion := emotion s; emotionIntensity := i;
     emotionHistory := emotionHistory s;
     lastEmotionChange := lastEmotionChange s;
     frustrationLevel := frustrationLevel s;
     grievances := grievances s |}.

(** [decayEmotion()]. *)
Definition decayEmotion (now : Z) (rnd : Q) (s : t) : t :=
  let timeSinceChange := (now - lastEmotionChange s)%Z in
  if (60000 <? timeSinceChange)%Z then
    if negb (String.eqb (emotion s) "calm") && Qltb 0.3 (emotionIntensity s) then
      let i := Qmax 0.3 (emotionIntensity s - emotionDecayRate) in
      let s' := withIntensity i s in
      if Qleb i 0.3 then setEmotion "calm" 0.5 now rnd s' else s'
    else s
  else s.

(** Events that update the emotional state of one agent. *)
Inductive Event :=
| SetEmotion (emotion : string) (intensity : Q) (now : Z) (rnd : Q)
| AddGrievance (playerName reason : string) (now : Z)
| DecayEmotion (now : Z) (rnd : Q).

Definition step (s : t) (e : Event) : t :=
  match e with
  | SetEmotion emotion intensity now rnd => setEmotion emotion intensity now rnd s
  | AddGrievance playerName reason now => addGrievance playerName reason now s
  | DecayEmotion now rnd => decayEmotion now rnd s
  end.

Definition run (s : t) (evs : list Event) : t := fold_left step evs s.

(** The invariant of the data model: both levels stay in the unit interval. *)
Definition bounded (s : t) : Prop :=
  0 <= emotionIntensity s <= 1 ∧ 0 <= frustrationLevel s <= 1.

(** *** Grievances and their expiry *)

(** [this.grievances.find(g => g.player === playerName)]. *)
Definition findGrievance (playerName : string) (gs : list Grievance) :
  option Grievance :=
  List.find (λ g, String.eqb (player g) playerName) gs.

(** [hasGrievanceWith(playerName)]: grievances fade after five minutes. *)
Definition hasGrievanceWith (playerName : string) (now : Z) (s : t) : bool :=
  match findGrievance playerName (grievances s) with
  | None => false
  | Some g => (now - lastTime g <? 300000)%Z
  end.

(** [getFrustrationWith(playerName)]. *)
Definition getFrustrationWith (playerName : string) (now : Z) (s : t) : Q :=
  match findGrievance playerName (grievances s) with
  | None => 0
  | Some g =>
      let timeFactor := Qmax 0 (1 - inject_Z (now - lastTime g) / 300000) in
      Qmin 1 (inject_Z (Z.of_nat (count g)) * 0.2 * timeFactor)
  end.

(** The number of grievances recorded against a player. *)
Definition grievanceCount (playerName : string) (s : t) : nat :=
  match findGrievance playerName (grievances s) with
  | None => 0
  | Some g => count g
  end.


(** The emotion log is a sliding window whose newest entry describes the
    stored emotion. *)
Definition logged (s : t) : Prop :=
  (length (emotionHistory s) <= 10)%nat ∧
  ∀ c, last (emotionHistory s) = Some c →
    changeTo c = emotion s ∧ currentEmotion (personality s) = Some (emotion s).


End SoulState.

(* ===================================================================== *)
(** ** Cognitive engine: the oracle-backed response decision *)
(* ===================================================================== *)

Module CognitiveEngine.
Import JsString Num.
Open Scope Q_scope.

(** The Decision Oracle as [query] exposes it: a prompt is answered by a
    text, or by [null] ([None]) on any transport or provider failure. *)
Definition Oracle := string → option string.

(** Outbound effects of one decision, in program order. *)
Inductive Effect :=
| SoulEvent (agentName input decision : string) (shouldRespond : bool)
    (emotion reasoning : string)
| OracleQuery (prompt : string).

Definition isOracleQuery (e : Effect) : bool :=
  match e with OracleQuery _ => true | SoulEvent _ _ _ _ _ _ => false end.

Definition oracleCalls (trace : list Effect) : nat :=
  length (List.filter isOracleQuery trace).

(** The object returned by [shouldRespond]; a missing [emotionInfluenced]
    is falsy. *)
Module Decision.
Record t := mk {
  shouldRespond : bool;
  reason : string;
  emotion : string;
  emotionInfluenced : bool
}.
End Decision.
Abbreviation mkDecision := Decision.mk.

(** The three [Math.random()] call sites of [shouldRespond]. *)
Record Rolls := mkRolls {
  throttleRoll : Q;
  enthusiasticRoll : Q;
  boredRoll : Q
}.

(** [quickEmotionCheck(message, botName, currentEmotion)]. *)
Definition quickEmotionCheck (message botName currentEmotion : string) : string :=
  let msgLower := toLowerCase message in
  let botLower := toLowerCase botName in
  if includes msgLower "stupid" || includes msgLower "idiot"
     || includes msgLower "useless" then "angry"
  else if includes msgLower "shut up" || includes msgLower "be quiet"
     || includes msgLower "stop talking" then "annoyed"
  else if includes msgLower "you suck" || includes msgLower "youre bad"
     || includes msgLower "you're bad" then "frustrated"
  else if includes msgLower "hurry up" || includes msgLower "faster"
     || includes msgLower "too slow" then "irritated"
  else if includes msgLower "good job" || includes msgLower "nice work"
     || includes msgLower "well done" then "proud"
  else if includes msgLower "thank" || includes msgLower "appreciate" then "grateful"
  else if includes msgLower "!" &&
     (includes msgLower "awesome" || includes msgLower "amazing"
      || includes msgLower "cool") then "excited"
  else if includes msgLower "what" && includes msgLower "?" then "curious"
  else if includes msgLower "check out" || includes msgLower "look at"
     || includes msgLower "found something" then "curious"
  else if includes msgLower botLower then "focused"
  else if includes message "?" then "helpful"
  else currentEmotion.

Definition farewellPhrases : list string :=
  ["bye"; "goodbye"; "see you"; "see ya"; "cya"; "later"; "take care";
   "catch you"; "talk to you"; "until next"; "for now"; "gotta go";
   "heading out"; "signing off"; "peace out"; "farewell"].

Definition agreementPhrases : list string :=
  ["sounds good"; "got it"; "understood"; "will do"; "on it"; "roger";
   "alright"; "okay"; "ok"; "sure thing"; "no problem"; "np";
   "you too"; "same to you"; "likewise"; "back at you";
   "agreed"; "exactly"; "right"; "same"; "true"; "indeed"; "yep"; "yeah"].

(** [recentContext.split('\n').filter(l => l.trim())]. *)
Definition contextLines (recentContext : string) : list string :=
  List.filter (λ l, truthy (trim l)) (splitLines recentContext).

(** One iteration of the back-and-forth loop. *)
Definition countTurn (botName sender : string) (acc : nat * string)
  (line : string) : nat * string :=
  let '(backAndForthCount, lastSpeaker) := acc in
  match matchSpeaker line with
  | Some speaker =>
      (if (String.eqb speaker botName && String.eqb lastSpeaker sender)
          || (String.eqb speaker sender && String.eqb lastSpeaker botName)
       then S backAndForthCount else backAndForthCount,
       speaker)
  | None => acc
  end.

(** The number of alternating turns between the bot and the sender among
    the last eight non-blank lines of the recent context. *)
Definition backAndForthCount (botName sender recentContext : string) : nat :=
  fst (fold_left (countTurn botName sender)
         (lastN 8 (contextLines recentContext)) (0%nat, "")).

(** The alternations of a sequence of speakers, counted as the loop does:
    a turn of the bot right after the sender, or of the sender right after
    the bot. *)
Fixpoint alternations (botName sender lastSpeaker : string)
  (speakers : list string) : nat :=
  match speakers with
  | [] => 0
  | speaker :: rest =>
      (if (String.eqb speaker botName && String.eqb lastSpeaker sender)
          || (String.eqb speaker sender && String.eqb lastSpeaker botName)
       then 1 else 0)
      + alternations botName sender speaker rest
  end.

(** A line of the recent context: [`${m.sender}: ${m.message}`]. *)
Definition contextLine (speaker text : string) : string :=
  speaker +:+ ": " +:+ text.

(** A chat line whose speaker is a word and whose text stays on one line. *)
Definition singleLine (m : string * string) : Prop :=
  isWord m.1 = true ∧ hasNewline m.2 = false.

(** The recent context printed from a list of (speaker, text) messages. *)
Definition printContext (msgs : list (string * string)) : string :=
  join newline (map (λ m, contextLine m.1 m.2) msgs).

(** [Math.min(0.95, 0.6 + (backAndForthCount * 0.15))]. *)
Definition skipChance (count : nat) : Q :=
  Qmin 0.95 (0.6 + inject_Z (Z.of_nat count) * 0.15).

Definition personalityType (isExtroverted isIntroverted : bool) : string :=
  if isExtroverted then "extroverted/talkative"
  else if isIntroverted then "introverted/quiet" else "balanced".

Definition quoted (s : string) : string := dquote +:+ s +:+ dquote.

(** The single prompt sent to the oracle. *)
Definition buildPrompt (botName botPersonality message sender
  recentContext : string) (otherBots : list string)
  (isExtroverted isIntroverted : bool) : string :=
  "You are " +:+ botName +:+ ", a "
    +:+ personalityType isExtroverted isIntroverted
    +:+ " Minecraft bot. " +:+ botPersonality +:+ newline
  +:+ "Other bots: " +:+ join ", " otherBots +:+ newline
  +:+ "Recent: " +:+ (if truthy recentContext then recentContext else "(none)")
    +:+ newline
  +:+ "New message from " +:+ sender +:+ ": " +:+ quoted message +:+ newline
  +:+ newline
  +:+ "Quick decision - reply with ONE word:" +:+ newline
  +:+ "- " +:+ quoted "respond"
    +:+ " if you should reply (mentioned, relevant, or you're talkative)"
    +:+ newline
  +:+ "- " +:+ quoted "skip"
    +:+ " if someone else should handle it or you have nothing to add"
    +:+ newline
  +:+ "- " +:+ quoted "wait" +:+ " if unsure" +:+ newline
  +:+ newline
  +:+ (if isIntroverted
       then "Remember: you only speak when truly necessary." else "")
    +:+ newline
  +:+ (if isExtroverted
       then "Remember: you enjoy chatting and connecting." else "")
    +:+ newline
  +:+ newline
  +:+ "Your decision:".

(** Interpretation of the oracle's reply; [null] and the empty text are
    read as ['skip'] ([(result || 'skip')]). *)
Definition parseDecision (result : option string) : string :=
  let rawDecision := trim (toLowerCase (orStr result "skip")) in
  let firstWord := firstToken rawDecision in
  if strIn firstWord ["respond"; "skip"; "wait"] then firstWord
  else if includes rawDecision "respond" then "respond"
  else if includes rawDecision "skip" then "skip"
  else "wait".

Definition eventInput (sender message : string) : string :=
  sender +:+ ": " +:+ quoted message.

Definition shortInput (sender message : string) : string :=
  sender +:+ ": "
    +:+ quoted (String.substring 0 50 message
                +:+ (if (50 <? String.length message)%nat then "..." else "")).

(** The stages that follow the lexical checks: the oracle query and the
    emotion-driven overrides. *)
Definition oracleStage (oracle : Oracle) (rolls : Rolls)
  (botName botPersonality message sender recentContext : string)
  (otherBots : list string) (isExtroverted isIntroverted : bool)
  (currentEmotion : string) : Decision.t * list Effect :=
  let prompt := buildPrompt botName botPersonality message sender
                  recentContext otherBots isExtroverted isIntroverted in
  let result := oracle prompt in
  let decision := parseDecision result in
  let shouldRespond := String.eqb decision "respond" in
  let emotion := quickEmotionCheck message botName currentEmotion in
  let msgLower := toLowerCase message in
  if negb shouldRespond
     && strIn emotion ["angry"; "frustrated"; "annoyed"; "irritated"]
     && (includes msgLower (toLowerCase botName)
         || includes msgLower "stupid" || includes msgLower "useless"
         || includes msgLower "you suck" || includes msgLower "shut up")
  then (mkDecision true "provoked" emotion true, [OracleQuery prompt])
  else if negb shouldRespond
     && strIn emotion ["happy"; "excited"; "playful"] && isExtroverted
     && Qltb (enthusiasticRoll rolls) 0.3
  then (mkDecision true "enthusiastic" emotion true, [OracleQuery prompt])
  else if shouldRespond && String.eqb emotion "bored"
     && negb (String.eqb decision "directly_mentioned")
     && Qltb (boredRoll rolls) 0.4
  then (mkDecision false "too_bored" emotion false, [OracleQuery prompt])
  else
    (mkDecision shouldRespond decision emotion false,
     [OracleQuery prompt;
      SoulEvent botName (shortInput sender message) decision shouldRespond
        emotion
        (personalityType isExtroverted isIntroverted
         +:+ " personality, feeling " +:+ emotion)]).

(** The conversation-ending test: the trimmed, lower-cased message contains
    a farewell phrase. *)
Definition isFarewell (message : string) : bool :=
  let msgLower := trim (toLowerCase message) in
  existsb (includes msgLower) farewellPhrases.

(** The acknowledgment test: the trimmed, lower-cased message is shorter
    than 50 characters and contains an agreement phrase. *)
Definition isAcknowledgment (message : string) : bool :=
  let msgLower := trim (toLowerCase message) in
  (String.length msgLower <? 50)%nat
  && existsb (includes msgLower) agreementPhrases.

(** The back-and-forth throttle: with two or more exchanges the decision is
    skipped when the draw is below [skipChance], and always from four on. *)
Definition throttles (rolls : Rolls) (botName sender recentContext : string)
  : bool :=
  let count := backAndForthCount botName sender recentContext in
  truthy recentContext && (2 <=? count)%nat
  && (Qltb (throttleRoll rolls) (skipChance count) || (4 <=? count)%nat).

(** [shouldRespond({botName, botPersonality, message, sender, recentContext,
    otherBots, personality})]. *)
Definition shouldRespond (oracle : Oracle) (rolls : Rolls)
  (botName botPersonality message sender recentContext : string)
  (otherBots : list string) (personality : SoulState.Personality) :
  Decision.t * list Effect :=
  let chattiness := orNum (SoulState.chattiness personality) 0.5 in
  let isExtroverted := Qltb 0.5 chattiness in
  let isIntroverted := Qltb chattiness 0.4 in
  let currentEmotion := orStr (SoulState.currentEmotion personality) "calm" in
  if isFarewell message then
    (mkDecision false "farewell_detected" currentEmotion false,
     [SoulEvent botName (eventInput sender message) "skip" false currentEmotion
        "farewell detected - conversation over"])
  else if isAcknowledgment message then
    (mkDecision false "acknowledgment" currentEmotion false,
     [SoulEvent botName (eventInput sender message) "skip" false currentEmotion
        "acknowledgment - no response needed"])
  else if throttles rolls botName sender recentContext then
    (mkDecision false "conversation_limit" currentEmotion false,
     [SoulEvent botName (eventInput sender message) "skip" false
        currentEmotion
        ("conversation limit reached ("
         +:+ pretty (backAndForthCount botName sender recentContext)
         +:+ " exchanges)")])
  else
    oracleStage oracle rolls botName botPersonality message sender
      recentContext otherBots isExtroverted isIntroverted currentEmotion.

(** The message contains, ignoring case, one of the given lower-case
    phrases. *)
Definition mentionsAny (message : string) (phrases : list string) : Prop :=
  ∃ p, p ∈ phrases ∧ includes (toLowerCase message) p = true.

End CognitiveEngine.

(* ===================================================================== *)
(** ** Conversation coordinator: the response arbitrator *)
(* ===================================================================== *)

Module ConversationCoordinator.
Import JsString Num.
Open Scope Q_scope.

Inductive Urgency := Fast | Normal | Slow | VerySlow.

Definition urgencyMultiplier (u : Urgency) : Q :=
  match u with
  | Fast => 0.5
  | Slow => 1.5
  | VerySlow => 2.5
  | Normal => 1
  end.

(** The multiplier after the emotion of the state has been applied. *)
Definition delayMultiplier (state : SoulState.t) (urgency : Urgency) : Q :=
  let m := urgencyMultiplier urgency in
  let m := if String.eqb (SoulState.emotion state) "excited" then m * 0.7 else m in
  let m := if String.eqb (SoulState.emotion state) "cautious" then m * 1.3 else m in
  if String.eqb (SoulState.emotion state) "bored" then m * 1.5 else m.

Definition baseDelay (state : SoulState.t) : Q * Q :=
  default (2000, 5000) (SoulState.responseDelay (SoulState.personality state)).

(** [getBaseDelay(state, urgency)], with the random draw [rnd]. *)
Definition getBaseDelay (state : SoulState.t) (urgency : Urgency) (rnd : Q) : Z :=
  let multiplier := delayMultiplier state urgency in
  let min := fst (baseDelay state) * multiplier in
  let max := snd (baseDelay state) * multiplier in
  Qfloor (rnd * (max - min) + min).

Record LastResponse := mkLastResponse {
  username : option string;
  responder : option string;
  timestamp : Z;
  message : option string
}.

Record ChatMessage := mkChatMessage {
  chatSender : string;
  chatText : string;
  chatIsBot : bool;
  chatTimestamp : Z
}.

(** The soul state manager: one state per bot and the last messages. *)
Record SoulStateManager := mkManager {
  states : gmap string SoulState.t;
  recentMessages : list ChatMessage
}.

(** [getState(botName, personality)]: the state is created on first use. *)
Definition getState (botName : string) (personality : SoulState.Personality)
  (now : Z) (mgr : SoulStateManager) : SoulState.t * SoulStateManager :=
  match states mgr !! botName with
  | Some st => (st, mgr)
  | None =>
      let st := SoulState.new botName personality now in
      (st, mkManager (<[botName := st]> (states mgr)) (recentMessages mgr))
  end.

(** Writing through the reference that [getState] returned. *)
Definition putState (botName : string) (st : SoulState.t)
  (mgr : SoulStateManager) : SoulStateManager :=
  mkManager (<[botName := st]> (states mgr)) (recentMessages mgr).

(** [getRecentContext(limit)]. *)
Definition getRecentContext (limit : nat) (mgr : SoulStateManager) : string :=
  join newline
    (map (λ m, CognitiveEngine.contextLine (chatSender m) (chatText m))
       (lastN limit (recentMessages mgr))).

(** [getPersonalityBrief()]: comparisons with a missing chattiness fail. *)
Definition getPersonalityBrief (p : SoulState.Personality) : string :=
  let talkative :=
    match SoulState.chattiness p with Some c => Qltb 0.6 c | None => false end in
  let quiet :=
    match SoulState.chattiness p with Some c => Qltb c 0.4 | None => false end in
  let traits :=
    ((if talkative then ["talkative"] else [])
     ++ (if quiet then ["quiet"] else [])
     ++ (match SoulState.interests p with
         | [] => []
         | _ => ["interested in "
                 +:+ join " and " (take 2 (SoulState.interests p))]
         end))%list in
  let brief := join ", " traits in
  if truthy brief then brief else "balanced".

Record t := mkCoordinator {
  lastResponse : LastResponse;
  souls : SoulStateManager
}.

Module Result.
Record t := mk {
  shouldRespond : bool;
  delay : Z;
  reason : string;
  emotion : option string
}.
End Result.

(** What one call draws from its environment: whether the cognitive engine
    can be loaded and which oracle it queries ([None]: loading or calling it
    throws), the clock, and the random draws of each call site. *)
Record Env := mkEnv {
  engine : option CognitiveEngine.Oracle;
  now : Z;
  emotionRoll : Q;
  delayRoll : Q;
  engineRolls : CognitiveEngine.Rolls;
  fallbackRoll : Q
}.

Definition withSouls (c : t) (mgr : SoulStateManager) : t :=
  mkCoordinator (lastResponse c) mgr.

Definition withEngine (env : Env) (e : option CognitiveEngine.Oracle) : Env :=
  mkEnv e (now env) (emotionRoll env) (delayRoll env) (engineRolls env)
    (fallbackRoll env).

(** The coordinator built by the constructor, before any bot is known. *)
Definition initial : t :=
  mkCoordinator (mkLastResponse None None 0 None) (mkManager ∅ []).

(** [registerBot(name, personality)], as far as the soul state goes. *)
Definition registerBot (name : string) (personality : SoulState.Personality)
  (now : Z) (c : t) : t :=
  withSouls c (getState name personality now (souls c)).2.

(** [soulStateManager.recordMessage(sender, message, isBot)], as far as the
    list of recent messages goes: at most [maxRecentMessages = 8] are kept. *)
Definition recordMessage (sender message : string) (isBot : bool) (now : Z)
  (c : t) : t :=
  let msgs := (recentMessages (souls c)
               ++ [mkChatMessage sender message isBot now])%list in
  withSouls c
    (mkManager (states (souls c))
       (if (8 <? length msgs)%nat then tail msgs else msgs)).

(** [simpleFallback(botName, username, message, otherBots)]. *)
Definition simpleFallback (env : Env) (botName username message : string)
  (otherBots : list string) (c : t) : Result.t * t :=
  let '(state, mgr) := getState botName SoulState.emptyPersonality (now env) (souls c) in
  let c := withSouls c mgr in
  let timeSinceLastResponse := (now env - timestamp (lastResponse c))%Z in
  if (timeSinceLastResponse <? 5000)%Z
     && negb (bool_decide (responder (lastResponse c) = Some botName))
  then (Result.mk false 0 "someone_responded" None, c)
  else if includes message "?"
  then (Result.mk true (getBaseDelay state Normal (delayRoll env)) "question" None, c)
  else if Qltb (fallbackRoll env) 0.2
  then (Result.mk true (getBaseDelay state Slow (delayRoll env)) "random" None, c)
  else (Result.mk false 0 "skipped" None, c).

(** The urgency chosen from the emotion of a positive decision. *)
Definition urgencyOf (emotion : string) : Urgency :=
  if strIn emotion ["angry"; "frustrated"; "irritated"] then Fast
  else if strIn emotion ["excited"; "happy"] then Fast
  else if strIn emotion ["bored"; "tired"] then Slow
  else if strIn emotion ["cautious"; "worried"] then Slow
  else Normal.

(** [otherBots.find(other => other.toLowerCase() !== botNameLower &&
    msgLower.includes(other.toLowerCase()))]. *)
Definition findMentionedOther (botNameLower msgLower : string)
  (otherBots : list string) : option string :=
  List.find
    (λ other, negb (String.eqb (toLowerCase other) botNameLower)
              && includes msgLower (toLowerCase other))
    otherBots.

(** The branch that consults the cognitive engine. *)
Definition engineBranch (env : Env) (oracle : CognitiveEngine.Oracle)
  (botName username message : string) (otherBots : list string)
  (state : SoulState.t) (c : t) :
  Result.t * t * list CognitiveEngine.Effect :=
  let '(decision, trace) :=
    CognitiveEngine.shouldRespond oracle (engineRolls env) botName
      (getPersonalityBrief (SoulState.personality state)) message username
      (getRecentContext 4 (souls c))
      (List.filter (λ b, negb (String.eqb b botName)) otherBots)
      (SoulState.personality state) in
  let emotion := CognitiveEngine.Decision.emotion decision in
  let emotionIntensity :=
    if CognitiveEngine.Decision.emotionInfluenced decision then 0.8 else 0.5 in
  let state :=
    SoulState.setEmotion (orStr (Some emotion) "calm") emotionIntensity
      (now env) (emotionRoll env) state in
  let state :=
    if strIn emotion ["angry"; "frustrated"; "annoyed"]
    then SoulState.addGrievance username (String.substring 0 50 message)
           (now env) state
    else state in
  let c := withSouls c (putState botName state (souls c)) in
  if CognitiveEngine.Decision.shouldRespond decision then
    (Result.mk true (getBaseDelay state (urgencyOf emotion) (delayRoll env))
       (CognitiveEngine.Decision.reason decision) (Some emotion), c, trace)
  else
    (Result.mk false 0 (CognitiveEngine.Decision.reason decision)
       (Some emotion), c, trace).

(** [shouldRespond(botName, username, message, otherBots)]. *)
Definition shouldRespond (env : Env) (botName username message : string)
  (otherBots : list string) (c : t) :
  Result.t * t * list CognitiveEngine.Effect :=
  let '(state, mgr) := getState botName SoulState.emptyPersonality (now env) (souls c) in
  let c := withSouls c mgr in
  let msgLower := toLowerCase message in
  let botNameLower := toLowerCase botName in
  if includes msgLower botNameLower then
    let state := SoulState.setEmotion "attentive" 0.7 (now env) (emotionRoll env) state in
    (Result.mk true (getBaseDelay state Fast (delayRoll env))
       "directly_mentioned" None,
     withSouls c (putState botName state (souls c)), [])
  else
    match findMentionedOther botNameLower msgLower otherBots with
    | Some (String _ _) =>
        (Result.mk false 0 "other_bot_mentioned" None, c, [])
    | _ =>
        match engine env with
        | Some oracle =>
            engineBranch env oracle botName username message otherBots state c
        | None =>
            let '(r, c) := simpleFallback env botName username message otherBots c in
            (r, c, [])
        end
    end.

(** *** The shared list of recent messages and the last response *)

(** The messages of [ms] recorded one after the other. *)
Definition recordAll (ms : list ChatMessage) (c : t) : t :=
  fold_left
    (λ c m, recordMessage (chatSender m) (chatText m) (chatIsBot m)
              (chatTimestamp m) c)
    ms c.

(** [recordResponse(botName, username, message)], as far as the last
    response, the states and the list of recent messages go. *)
Definition recordResponse (botName username message : string) (now : Z)
  (c : t) : t :=
  let c :=
    mkCoordinator (mkLastResponse (Some username) (Some botName) now (Some message))
      (souls c) in
  let '(_, mgr) := getState botName SoulState.emptyPersonality now (souls c) in
  recordMessage botName message true now (withSouls c mgr).


(** *** The coordinator as the agents drive it *)

(** The personality that [agent.js] registers for an agent: the
    chattiness, the response delay and the interests of its profile, with
    their defaults.  No temperament field ([emotionalVolatility],
    [angerThreshold]) is passed on. *)
Definition agentPersonality (profile : SoulState.Personality) :
  SoulState.Personality :=
  SoulState.mkPersonality
    (Some (orNum (SoulState.chattiness profile) 0.5))
    None None
    (Some (default (1500, 4000) (SoulState.responseDelay profile)))
    (SoulState.interests profile)
    None.

(** The calls of [agent.js] that reach the coordinator or a soul state:
    the registration at start-up, the chat handler ([recordIncomingMessage],
    [shouldRespond], [recordResponse]), the reading of the conversation
    context (which creates the state of an unknown name) and the reaction
    to being hurt ([setEmotion('angry', 0.9)] and [addGrievance] on the
    agent's own state). *)
Inductive Call :=
| RegisterBot (name : string) (profile : SoulState.Personality) (now : Z)
| RecordIncomingMessage (sender message : string) (isBot : bool) (now : Z)
| ShouldRespond (env : Env) (botName username message : string)
    (otherBots : list string)
| RecordResponse (botName username message : string) (now : Z)
| GetConversationContext (botName : string) (now : Z)
| Hurt (botName attackerName : string) (now : Z) (emotionRoll : Q).

Definition call (c : t) (k : Call) : t :=
  match k with
  | RegisterBot name profile now =>
      registerBot name (agentPersonality profile) now c
  | RecordIncomingMessage sender message isBot now =>
      recordMessage sender message isBot now c
  | ShouldRespond env botName username message otherBots =>
      (shouldRespond env botName username message otherBots c).1.2
  | RecordResponse botName username message now =>
      recordResponse botName username message now c
  | GetConversationContext botName now =>
      withSouls c (getState botName SoulState.emptyPersonality now (souls c)).2
  | Hurt botName attackerName now rnd =>
      let '(state, mgr) :=
        getState botName SoulState.emptyPersonality now (souls c) in
      let state := SoulState.setEmotion "angry" 0.9 now rnd state in
      let state := SoulState.addGrievance attackerName "attacked me" now state in
      withSouls c (putState botName state mgr)
  end.

(** No soul state has a volatility of its own: [emotionalVolatility] is
    unset, so [setEmotion] works with the default 0.5. *)
Definition unsetIn (mgr : SoulStateManager) : Prop :=
  ∀ name s, states mgr !! name = Some s →
    SoulState.emotionalVolatility (SoulState.personality s) = None.

Definition temperamentUnset (c : t) : Prop := unsetIn (souls c).


End ConversationCoordinator.

(* ===================================================================== *)
(** ** Relationship ledger: one relationship record *)
(* ===================================================================== *)

Module Relationship.
Import JsString Num.
Open Scope Q_scope.

Inductive RelationshipType :=
| Stranger | Acquaintance | Friend | BestFriend | Rival | Enemy.

Record Impact := mkImpact {
  impactTrust : Q;
  impactFondness : Q;
  impactRespect : Q
}.

Record Memory := mkMemory {
  memoryType : string;
  memoryDetails : string;
  memoryTimestamp : Z;
  memoryEmotional : string
}.

Record t := mkRelationship {
  target : string;
  isBot : bool;
  trust : Q;
  fondness : Q;
  respect : Q;
  totalInteractions : nat;
  positiveInteractions : nat;
  negativeInteractions : nat;
  lastInteraction : option Z;
  memories : list Memory;
  type : RelationshipType
}.

Definition maxMemories : nat := 10.

(** [new Relationship(targetName, isBot)]. *)
Definition new (targetName : string) (bot : bool) : t :=
  mkRelationship targetName bot 0 0 0 0 0 0 None [] Stranger.

(** The table [impactMap]; an interaction type that is no key of it has no
    impact.  (Keys inherited from [Object.prototype] are set apart below,
    see [plainKey].) *)
Definition impactMap : list (string * Impact) :=
  [("helped", mkImpact 0.1 0.1 0.05);
   ("complimented", mkImpact 0.05 0.15 0.05);
   ("thanked", mkImpact 0.05 0.1 0.05);
   ("gifted", mkImpact 0.1 0.2 0.1);
   ("defended", mkImpact 0.15 0.15 0.1);
   ("goodConversation", mkImpact 0.05 0.1 0.05);
   ("laughedTogether", mkImpact 0.05 0.15 0);
   ("sharedGoal", mkImpact 0.1 0.1 0.1);
   ("insulted", mkImpact (-0.15) (-0.2) (-0.1));
   ("ignored", mkImpact (-0.05) (-0.1) (-0.05));
   ("attacked", mkImpact (-0.3) (-0.3) (-0.1));
   ("betrayed", mkImpact (-0.4) (-0.3) (-0.2));
   ("mocked", mkImpact (-0.1) (-0.15) (-0.1));
   ("interrupted", mkImpact (-0.05) (-0.05) (-0.1));
   ("commanded", mkImpact 0 (-0.05) (-0.05));
   ("dismissed", mkImpact (-0.1) (-0.1) (-0.15));
   ("collaborated", mkImpact 0.05 0.05 0.1);
   ("chatted", mkImpact 0.02 0.03 0);
   ("observed", mkImpact 0 0 0.02)].

Definition impactOf (interaction : string) : Impact :=
  match List.find (λ entry, String.eqb entry.1 interaction) impactMap with
  | Some entry => entry.2
  | None => mkImpact 0 0 0
  end.

(** [applyChange(current, delta)]: diminishing returns near the extremes. *)
Definition applyChange (current delta : Q) : Q :=
  let resistance := Qabs current * 0.5 in
  let effectiveDelta := delta * (1 - resistance) in
  Qmax (-1) (Qmin 1 (current + effectiveDelta)).

(** The classification made by [updateType()], on exact values.  At a
    threshold the program's double-precision mean can fall on the other
    side; [Relationship64.typeOf] is the classification as computed, and no
    property below rests on the type stored here. *)
Definition typeOf (trust fondness respect : Q) : RelationshipType :=
  let avg := (trust + fondness + respect) / 3 in
  if Qltb 0.6 avg then BestFriend
  else if Qltb 0.3 avg then Friend
  else if Qltb 0.1 avg then Acquaintance
  else if Qltb (-0.2) avg then Stranger
  else if Qltb (-0.5) avg then Rival
  else Enemy.

Definition updateType (r : t) : t :=
  mkRelationship (target r) (isBot r) (trust r) (fondness r) (respect r)
    (totalInteractions r) (positiveInteractions r) (negativeInteractions r)
    (lastInteraction r) (memories r)
    (typeOf (trust r) (fondness r) (respect r)).

(** [addMemory(type, details)]. *)
Definition addMemory (interaction details : string) (now : Z) (r : t) : t :=
  let emotional :=
    if Qltb 0.3 (fondness r) then "positive"
    else if Qltb (fondness r) (-0.3) then "negative" else "neutral" in
  let ms := (memories r ++ [mkMemory interaction details now emotional])%list in
  mkRelationship (target r) (isBot r) (trust r) (fondness r) (respect r)
    (totalInteractions r) (positiveInteractions r) (negativeInteractions r)
    (lastInteraction r)
    (if (maxMemories <? length ms)%nat then tail ms else ms)
    (type r).

(** [recordInteraction(type, details)]. *)
Definition recordInteraction (interaction details : string) (now : Z) (r : t) : t :=
  let impact := impactOf interaction in
  let r1 :=
    mkRelationship (target r) (isBot r)
      (applyChange (trust r) (impactTrust impact))
      (applyChange (fondness r) (impactFondness impact))
      (applyChange (respect r) (impactRespect impact))
      (S (totalInteractions r))
      (if Qltb 0 (impactFondness impact)
       then S (positiveInteractions r) else positiveInteractions r)
      (if Qltb 0 (impactFondness impact) then negativeInteractions r
       else if Qltb (impactFondness impact) 0
       then S (negativeInteractions r) else negativeInteractions r)
      (Some now) (memories r) (type r) in
  let r2 :=
    if Qleb 0.1 (Qabs (impactFondness impact))
       || Qleb 0.1 (Qabs (impactTrust impact))
    then addMemory interaction details now r1 else r1 in
  updateType r2.

(** [decay(hours)]. *)
Definition decay (hours : Q) (r : t) : t :=
  let decayRate := 0.01 * hours in
  updateType
    (mkRelationship (target r) (isBot r)
       (trust r * (1 - decayRate))
       (fondness r * (1 - decayRate))
       (respect r * (1 - decayRate))
       (totalInteractions r) (positiveInteractions r) (negativeInteractions r)
       (lastInteraction r) (memories r) (type r)).

(** The updates of a relationship record. *)
Inductive Update :=
| RecordInteraction (interaction details : string) (now : Z)
| Decay (hours : Q).

Definition apply (r : t) (u : Update) : t :=
  match u with
  | RecordInteraction interaction details now =>
      recordInteraction interaction details now r
  | Decay hours => decay hours r
  end.

(** *** Ranges and bookkeeping *)

(** Keys that the object literal [impactMap] inherits from
    [Object.prototype]: looking one of them up does not give [undefined],
    so the table above does not describe them. *)
Definition inheritedKeys : list string :=
  ["constructor"; "__proto__"; "hasOwnProperty"; "isPrototypeOf";
   "propertyIsEnumerable"; "toLocaleString"; "toString"; "valueOf";
   "__defineGetter__"; "__defineSetter__"; "__lookupGetter__";
   "__lookupSetter__"].

Definition plainKey (interaction : string) : bool :=
  negb (strIn interaction inheritedKeys).

(** The three metrics lie between -1 and 1. *)
Definition inRange (r : t) : Prop :=
  (-1 <= trust r <= 1) ∧ (-1 <= fondness r <= 1) ∧ (-1 <= respect r <= 1).

(** An update whose interaction type is a plain key, or whose decay spans
    at most two hundred hours. *)
Definition moderate (u : Update) : Prop :=
  match u with
  | RecordInteraction interaction _ _ => plainKey interaction = true
  | Decay hours => 0 <= hours <= 200
  end.

(** The interaction leaves a memory: its impact on fondness or on trust
    is at least one tenth. *)
Definition significant (interaction : string) : bool :=
  Qleb 0.1 (Qabs (impactFondness (impactOf interaction)))
  || Qleb 0.1 (Qabs (impactTrust (impactOf interaction))).

(** The number of recorded interactions among the updates. *)
Definition interactionsIn (us : list Update) : nat :=
  length (List.filter
            (λ u, match u with RecordInteraction _ _ _ => true | Decay _ => false end)
            us).


End Relationship.

(* ===================================================================== *)
(** ** Relationship record on double-precision numbers *)
(* ===================================================================== *)

Module Relationship64.
Import JsString.

Record Impact := mkImpact {
  impactTrust : Double.t;
  impactFondness : Double.t;
  impactRespect : Double.t
}.

Record t := mkRelationship {
  target : string;
  isBot : bool;
  trust : Double.t;
  fondness : Double.t;
  respect : Double.t;
  totalInteractions : nat;
  positiveInteractions : nat;
  negativeInteractions : nat;
  lastInteraction : option Z;
  memories : list Relationship.Memory;
  type : Relationship.RelationshipType
}.

(** [new Relationship(targetName, isBot)]. *)
Definition new (targetName : string) (bot : bool) : t :=
  mkRelationship targetName bot (Double.ofZ 0) (Double.ofZ 0) (Double.ofZ 0)
    0 0 0 None [] Relationship.Stranger.

(** [impactMap[type] || { trust: 0, fondness: 0, respect: 0 }].  The
    entries are the decimal literals of the table, as doubles.  A key that
    the object literal inherits from [Object.prototype] yields a function
    or an object: it is truthy and has none of the three fields, so each
    field reads [undefined], which every use below turns into NaN. *)
Definition impactOf (interaction : string) : Impact :=
  match List.find (λ entry, String.eqb entry.1 interaction)
          Relationship.impactMap with
  | Some entry =>
      mkImpact (Double.literal (Relationship.impactTrust entry.2))
        (Double.literal (Relationship.impactFondness entry.2))
        (Double.literal (Relationship.impactRespect entry.2))
  | None =>
      if strIn interaction Relationship.inheritedKeys
      then mkImpact Double.NaN Double.NaN Double.NaN
      else mkImpact (Double.ofZ 0) (Double.ofZ 0) (Double.ofZ 0)
  end.

(** [applyChange(current, delta)]. *)
Definition applyChange (current delta : Double.t) : Double.t :=
  let resistance := Double.mul (Double.abs current) (Double.literal 0.5) in
  let effectiveDelta := Double.mul delta (Double.sub (Double.ofZ 1) resistance) in
  Double.max (Double.ofZ (-1))
    (Double.min (Double.ofZ 1) (Double.add current effectiveDelta)).

(** [(this.trust + this.fondness + this.respect) / 3], as computed. *)
Definition mean (r : t) : Double.t :=
  Double.div (Double.add (Double.add (trust r) (fondness r)) (respect r))
    (Double.ofZ 3).

(** The chain of comparisons of [updateType()]. *)
Definition typeOf (avg : Double.t) : Relationship.RelationshipType :=
  if Double.ltb (Double.literal 0.6) avg then Relationship.BestFriend
  else if Double.ltb (Double.literal 0.3) avg then Relationship.Friend
  else if Double.ltb (Double.literal 0.1) avg then Relationship.Acquaintance
  else if Double.ltb (Double.literal (-0.2)) avg then Relationship.Stranger
  else if Double.ltb (Double.literal (-0.5)) avg then Relationship.Rival
  else Relationship.Enemy.

Definition updateType (r : t) : t :=
  mkRelationship (target r) (isBot r) (trust r) (fondness r) (respect r)
    (totalInteractions r) (positiveInteractions r) (negativeInteractions r)
    (lastInteraction r) (memories r) (typeOf (mean r)).

(** [addMemory(type, details)]. *)
Definition addMemory (interaction details : string) (now : Z) (r : t) : t :=
  let emotional :=
    if Double.ltb (Double.literal 0.3) (fondness r) then "positive"
    else if Double.ltb (fondness r) (Double.literal (-0.3)) then "negative"
    else "neutral" in
  let ms := (memories r
             ++ [Relationship.mkMemory interaction details now emotional])%list in
  mkRelationship (target r) (isBot r) (trust r) (fondness r) (respect r)
    (totalInteractions r) (positiveInteractions r) (negativeInteractions r)
    (lastInteraction r)
    (if (Relationship.maxMemories <? length ms)%nat then tail ms else ms)
    (type r).

(** [recordInteraction(type, details)]. *)
Definition recordInteraction (interaction details : string) (now : Z) (r : t) : t :=
  let impact := impactOf interaction in
  let zero := Double.ofZ 0 in
  let r1 :=
    mkRelationship (target r) (isBot r)
      (applyChange (trust r) (impactTrust impact))
      (applyChange (fondness r) (impactFondness impact))
      (applyChange (respect r) (impactRespect impact))
      (S (totalInteractions r))
      (if Double.ltb zero (impactFondness impact)
       then S (positiveInteractions r) else positiveInteractions r)
      (if Double.ltb zero (impactFondness impact) then negativeInteractions r
       else if Double.ltb (impactFondness impact) zero
       then S (negativeInteractions r) else negativeInteractions r)
      (Some now) (memories r) (type r) in
  let r2 :=
    if Double.leb (Double.literal 0.1) (Double.abs (impactFondness impact))
       || Double.leb (Double.literal 0.1) (Double.abs (impactTrust impact))
    then addMemory interaction details now r1 else r1 in
  updateType r2.

(** [decay(hours)]. *)
Definition decay (hours : Double.t) (r : t) : t :=
  let decayRate := Double.mul (Double.literal 0.01) hours in
  let factor := Double.sub (Double.ofZ 1) decayRate in
  updateType
    (mkRelationship (target r) (isBot r)
       (Double.mul (trust r) factor)
       (Double.mul (fondness r) factor)
       (Double.mul (respect r) factor)
       (totalInteractions r) (positiveInteractions r) (negativeInteractions r)
       (lastInteraction r) (memories r) (type r)).

(** The updates of a relationship record. *)
Inductive Update :=
| RecordInteraction (interaction details : string) (now : Z)
| Decay (hours : Double.t).

Definition apply (r : t) (u : Update) : t :=
  match u with
  | RecordInteraction interaction details now =>
      recordInteraction interaction details now r
  | Decay hours => decay hours r
  end.

(** The documented thresholds, as the specification words them, with the
    comparisons of the language. *)
Definition documentedType (avg : Double.t) (ty : Relationship.RelationshipType) :
  Prop :=
  (Double.ltb (Double.literal 0.6) avg = true → ty = Relationship.BestFriend)
  ∧ (Double.ltb (Double.literal 0.3) avg = true
     ∧ Double.leb avg (Double.literal 0.6) = true → ty = Relationship.Friend)
  ∧ (Double.ltb (Double.literal 0.1) avg = true
     ∧ Double.leb avg (Double.literal 0.3) = true
     → ty = Relationship.Acquaintance)
  ∧ (Double.ltb (Double.literal (-0.2)) avg = true
     ∧ Double.leb avg (Double.literal 0.1) = true → ty = Relationship.Stranger)
  ∧ (Double.ltb (Double.literal (-0.5)) avg = true
     ∧ Double.leb avg (Double.literal (-0.2)) = true → ty = Relationship.Rival)
  ∧ (Double.leb avg (Double.literal (-0.5)) = true → ty = Relationship.Enemy).

End Relationship64.

(* ===================================================================== *)
(** ** Trait evolution *)
(* ===================================================================== *)

Module TraitEvolution.
Import JsString Num.
Open Scope Q_scope.

(** The eight counters of [this.experiences]. *)
Record Experiences := mkExperiences {
  socialSuccess : Q;
  socialFailure : Q;
  conflictWins : Q;
  conflictLosses : Q;
  explorationSuccess : Q;
  helpingOthers : Q;
  beingHelped : Q;
  betrayals : Q
}.

Record TraitChange := mkTraitChange {
  trait : string;
  traitFrom : Q;
  traitTo : Q;
  traitReason : string
}.

Record HistoryEntry := mkHistoryEntry {
  entryTimestamp : Z;
  entryChanges : list TraitChange
}.

Record t := mkTraitEvolution {
  basePersonality : SoulState.Personality;
  currentPersonality : SoulState.Personality;
  experiences : Experiences;
  traitHistory : list HistoryEntry;
  totalXP : Q
}.

(** [new TraitEvolution(personality)]. *)
Definition new (personality : SoulState.Personality) : t :=
  mkTraitEvolution personality personality
    (mkExperiences 0 0 0 0 0 0 0 0) [] 0.

(** [if (this.experiences.hasOwnProperty(type)) this.experiences[type] +=
    intensity]. *)
Definition addExperience (type : string) (intensity : Q) (e : Experiences) :
  Experiences :=
  if String.eqb type "socialSuccess" then
    mkExperiences (socialSuccess e + intensity) (socialFailure e)
      (conflictWins e) (conflictLosses e) (explorationSuccess e)
      (helpingOthers e) (beingHelped e) (betrayals e)
  else if String.eqb type "socialFailure" then
    mkExperiences (socialSuccess e) (socialFailure e + intensity)
      (conflictWins e) (conflictLosses e) (explorationSuccess e)
      (helpingOthers e) (beingHelped e) (betrayals e)
  else if String.eqb type "conflictWins" then
    mkExperiences (socialSuccess e) (socialFailure e)
      (conflictWins e + intensity) (conflictLosses e) (explorationSuccess e)
      (helpingOthers e) (beingHelped e) (betrayals e)
  else if String.eqb type "conflictLosses" then
    mkExperiences (socialSuccess e) (socialFailure e)
      (conflictWins e) (conflictLosses e + intensity) (explorationSuccess e)
      (helpingOthers e) (beingHelped e) (betrayals e)
  else if String.eqb type "explorationSuccess" then
    mkExperiences (socialSuccess e) (socialFailure e)
      (conflictWins e) (conflictLosses e) (explorationSuccess e + intensity)
      (helpingOthers e) (beingHelped e) (betrayals e)
  else if String.eqb type "helpingOthers" then
    mkExperiences (socialSuccess e) (socialFailure e)
      (conflictWins e) (conflictLosses e) (explorationSuccess e)
      (helpingOthers e + intensity) (beingHelped e) (betrayals e)
  else if String.eqb type "beingHelped" then
    mkExperiences (socialSuccess e) (socialFailure e)
      (conflictWins e) (conflictLosses e) (explorationSuccess e)
      (helpingOthers e) (beingHelped e + intensity) (betrayals e)
  else if String.eqb type "betrayals" then
    mkExperiences (socialSuccess e) (socialFailure e)
      (conflictWins e) (conflictLosses e) (explorationSuccess e)
      (helpingOthers e) (beingHelped e) (betrayals e + intensity)
  else e.

(** The table [xpMap]; a type that is no key of it earns nothing. *)
Definition xpMap : list (string * Q) :=
  [("socialSuccess", 5); ("socialFailure", -2); ("conflictWins", 10);
   ("conflictLosses", -5); ("explorationSuccess", 8); ("helpingOthers", 7);
   ("beingHelped", 3); ("betrayals", -10)].

Definition xpOf (type : string) : Q :=
  match List.find (λ entry, String.eqb entry.1 type) xpMap with
  | Some entry => entry.2
  | None => 0
  end.

Definition withChattiness (p : SoulState.Personality) (v : Q) :
  SoulState.Personality :=
  SoulState.mkPersonality (Some v) (SoulState.emotionalVolatility p)
    (SoulState.angerThreshold p) (SoulState.responseDelay p)
    (SoulState.interests p) (SoulState.currentEmotion p).

Definition withAngerThreshold (p : SoulState.Personality) (v : Q) :
  SoulState.Personality :=
  SoulState.mkPersonality (SoulState.chattiness p)
    (SoulState.emotionalVolatility p) (Some v) (SoulState.responseDelay p)
    (SoulState.interests p) (SoulState.currentEmotion p).

Definition withEmotionalVolatility (p : SoulState.Personality) (v : Q) :
  SoulState.Personality :=
  SoulState.mkPersonality (SoulState.chattiness p) (Some v)
    (SoulState.angerThreshold p) (SoulState.responseDelay p)
    (SoulState.interests p) (SoulState.currentEmotion p).

(** The three stages of [evolveTraits()]: each returns the change it made,
    if any, with the personality and the counters it leaves. *)
Definition evolveChattiness (p : SoulState.Personality) (e : Experiences) :
  list TraitChange * SoulState.Personality * Experiences :=
  let socialBalance := socialSuccess e - socialFailure e in
  if Qleb 5 (Qabs socialBalance) then
    let delta := if Qltb 0 socialBalance then 0.05 else -0.05 in
    let oldVal := orNum (SoulState.chattiness p) 0.5 in
    let newVal := Qmax 0.1 (Qmin 0.9 (oldVal + delta)) in
    ([mkTraitChange "chattiness" oldVal newVal
        (if Qltb 0 socialBalance then "social success" else "social rejection")],
     withChattiness p newVal,
     mkExperiences (Qmax 0 (socialSuccess e - 3)) (Qmax 0 (socialFailure e - 3))
       (conflictWins e) (conflictLosses e) (explorationSuccess e)
       (helpingOthers e) (beingHelped e) (betrayals e))
  else ([], p, e).

Definition evolveAngerThreshold (p : SoulState.Personality) (e : Experiences) :
  list TraitChange * SoulState.Personality * Experiences :=
  let conflictBalance := conflictWins e - conflictLosses e in
  if Qleb 3 (Qabs conflictBalance) then
    let delta := if Qltb 0 conflictBalance then -0.05 else 0.05 in
    let oldVal := orNum (SoulState.angerThreshold p) 0.5 in
    let newVal := Qmax 0.2 (Qmin 0.9 (oldVal + delta)) in
    ([mkTraitChange "angerThreshold" oldVal newVal
        (if Qltb 0 conflictBalance then "stood ground" else "was dominated")],
     withAngerThreshold p newVal,
     mkExperiences (socialSuccess e) (socialFailure e)
       (Qmax 0 (conflictWins e - 2)) (Qmax 0 (conflictLosses e - 2))
       (explorationSuccess e) (helpingOthers e) (beingHelped e) (betrayals e))
  else ([], p, e).

Definition evolveVolatility (p : SoulState.Personality) (e : Experiences) :
  list TraitChange * SoulState.Personality * Experiences :=
  let trustBalance := beingHelped e - betrayals e in
  if Qleb 3 (Qabs trustBalance) then
    let delta := if Qltb 0 trustBalance then -0.03 else 0.05 in
    let oldVal := orNum (SoulState.emotionalVolatility p) 0.5 in
    let newVal := Qmax 0.2 (Qmin 0.9 (oldVal + delta)) in
    ([mkTraitChange "emotionalVolatility" oldVal newVal
        (if Qltb 0 trustBalance then "trust built" else "betrayed")],
     withEmotionalVolatility p newVal,
     mkExperiences (socialSuccess e) (socialFailure e)
       (conflictWins e) (conflictLosses e) (explorationSuccess e)
       (helpingOthers e) (Qmax 0 (beingHelped e - 2)) (Qmax 0 (betrayals e - 2)))
  else ([], p, e).

(** [evolveTraits()]: the changes made, and the state afterwards. *)
Definition evolveTraits (now : Z) (te : t) : list TraitChange * t :=
  let '(c1, p, e) := evolveChattiness (currentPersonality te) (experiences te) in
  let '(c2, p, e) := evolveAngerThreshold p e in
  let '(c3, p, e) := evolveVolatility p e in
  let changes := (c1 ++ c2 ++ c3)%list in
  (changes,
   mkTraitEvolution (basePersonality te) p e
     (match changes with
      | [] => traitHistory te
      | _ => (traitHistory te ++ [mkHistoryEntry now changes])%list
      end)
     (totalXP te)).

(** [recordExperience(type, intensity)]. *)
Definition recordExperience (type : string) (intensity : Q) (now : Z) (te : t) : t :=
  (evolveTraits now
     (mkTraitEvolution (basePersonality te) (currentPersonality te)
        (addExperience type intensity (experiences te))
        (traitHistory te)
        (totalXP te + xpOf type * intensity))).2.

(** Each evolving trait is unset or inside its band. *)
Definition inBand (lo hi : Q) (v : option Q) : Prop :=
  match v with Some x => lo <= x <= hi | None => True end.

Definition traitsInBand (p : SoulState.Personality) : Prop :=
  inBand 0.1 0.9 (SoulState.chattiness p)
  ∧ inBand 0.2 0.9 (SoulState.angerThreshold p)
  ∧ inBand 0.2 0.9 (SoulState.emotionalVolatility p).

(** Experiences recorded one after the other, each at its own time. *)
Definition recordAll (xs : list (string * Q * Z)) (te : t) : t :=
  fold_left (λ te x, recordExperience x.1.1 x.1.2 x.2 te) xs te.



End TraitEvolution.

(* ===================================================================== *)
(** ** Relationship manager: the ledger of one agent *)
(* ===================================================================== *)

Module RelationshipManager.
Import JsString Num.
Open Scope Q_scope.

(** The relationships and the trait evolution of one agent; what a saved
    file would restore is part of the state the manager starts from. *)
Record t := mkManager {
  botName : string;
  relationships : gmap string Relationship.t;
  traitEvolution : TraitEvolution.t
}.

(** [new RelationshipManager(botName, personality)] with nothing saved. *)
Definition new (name : string) (personality : SoulState.Personality) : t :=
  mkManager name ∅ (TraitEvolution.new personality).

(** Outbound effects of the manager, in program order. *)
Inductive Effect :=
| RelationshipUpdate (agent target : string)
    (trust respect familiarity affection : Q)
    (type : Relationship.RelationshipType) (interactionCount : nat)
| Save
| RelationshipEvent (agent target : string)
    (relationship : Relationship.RelationshipType) (trust fondness : Q)
    (interactions : nat).

(** [getRelationship(targetName, isBot)]: created on first use. *)
Definition getRelationship (targetName : string) (isBot : bool) (m : t) :
  Relationship.t * t :=
  match relationships m !! targetName with
  | Some rel => (rel, m)
  | None =>
      let rel := Relationship.new targetName isBot in
      (rel, mkManager (botName m) (<[targetName := rel]> (relationships m))
              (traitEvolution m))
  end.

(** The table [experienceMap]. *)
Definition experienceMap : list (string * string) :=
  [("goodConversation", "socialSuccess"); ("thanked", "socialSuccess");
   ("complimented", "socialSuccess"); ("laughedTogether", "socialSuccess");
   ("ignored", "socialFailure"); ("dismissed", "socialFailure");
   ("insulted", "conflictLosses"); ("mocked", "conflictLosses");
   ("defended", "conflictWins"); ("helped", "helpingOthers");
   ("gifted", "helpingOthers"); ("betrayed", "betrayals")].

Definition experienceOf (type : string) : option string :=
  match List.find (λ entry, String.eqb entry.1 type) experienceMap with
  | Some entry => Some entry.2
  | None => None
  end.

(** [recordInteraction(targetName, type, details, isBot)]: the record
    returned, the manager afterwards, and the update sent for display
    followed by the periodic save. *)
Definition recordInteraction (targetName type details : string) (isBot : bool)
  (now : Z) (m : t) : Relationship.t * t * list Effect :=
  let '(rel, m) := getRelationship targetName isBot m in
  let rel := Relationship.recordInteraction type details now rel in
  let te :=
    match experienceOf type with
    | Some experience =>
        TraitEvolution.recordExperience experience 1 now (traitEvolution m)
    | None => traitEvolution m
    end in
  (rel,
   mkManager (botName m) (<[targetName := rel]> (relationships m)) te,
   RelationshipUpdate (botName m) targetName (Relationship.trust rel)
     (Relationship.respect rel) (Relationship.fondness rel)
     (Relationship.fondness rel) (Relationship.type rel)
     (Relationship.totalInteractions rel)
   :: (if (Relationship.totalInteractions rel mod 5 =? 0)%nat then [Save] else [])).

(** [analyzeMessage(sender, message)]. *)
Definition analyzeMessage (m : t) (sender message : string) : string :=
  let msgLower := toLowerCase message in
  if includes msgLower "thank" || includes msgLower "thanks" then "thanked"
  else if includes msgLower "good job" || includes msgLower "nice"
          || includes msgLower "awesome" then "complimented"
  else if includes msgLower "stupid" || includes msgLower "idiot"
          || includes msgLower "useless" then "insulted"
  else if includes msgLower "shut up" || includes msgLower "be quiet"
  then "dismissed"
  else if includes msgLower "help" && negb (includes msgLower "?")
  then "collaborated"
  else if includes msgLower "lol" || includes msgLower "haha"
          || includes msgLower "lmao" then "laughedTogether"
  else if includes msgLower "?" then "chatted"
  else "chatted".

(** [decayAll(hours)]. *)
Definition decayAll (hours : Q) (m : t) : t :=
  mkManager (botName m) (Relationship.decay hours <$> relationships m)
    (traitEvolution m).

(** What [recordIncomingMessage] does for one agent's manager: the message
    is classified and recorded under its sender, with the first fifty
    characters as the summary; every fifth interaction is announced. *)
Definition trackMessage (sender message : string) (isBot : bool) (now : Z)
  (m : t) : Relationship.t * t * list Effect :=
  let '(rel, m, effects) :=
    recordInteraction sender (analyzeMessage m sender message)
      (String.substring 0 50 message) isBot now m in
  (rel, m,
   (effects
    ++ (if (Relationship.totalInteractions rel mod 5 =? 0)%nat
        then [RelationshipEvent (botName m) sender (Relationship.type rel)
                (Relationship.trust rel) (Relationship.fondness rel)
                (Relationship.totalInteractions rel)]
        else []))%list).

(** The operations on a ledger. *)
Inductive Op :=
| Interact (targetName type details : string) (isBot : bool) (now : Z)
| Track (sender message : string) (isBot : bool) (now : Z)
| DecayAll (hours : Q).

Definition step (m : t) (op : Op) : t :=
  match op with
  | Interact targetName type details isBot now =>
      (recordInteraction targetName type details isBot now m).1.2
  | Track sender message isBot now =>
      (trackMessage sender message isBot now m).1.2
  | DecayAll hours => decayAll hours m
  end.

(** An operation whose interaction type is a plain key, or whose decay
    spans at most two hundred hours. *)
Definition moderate (op : Op) : Prop :=
  match op with
  | Interact _ type _ _ _ => Relationship.plainKey type = true
  | Track _ _ _ _ => True
  | DecayAll hours => 0 <= hours <= 200
  end.

(** Every record is filed under its target, holds metrics in range and
    has at least one interaction. *)
Definition wellKept (m : t) : Prop :=
  ∀ k r, relationships m !! k = Some r →
    Relationship.target r = k
    ∧ Relationship.inRange r
    ∧ (1 ≤ Relationship.totalInteractions r)%nat.

End RelationshipManager.

(* ===================================================================== *)
(** ** Command relay: routing between leaders and workers *)
(* ===================================================================== *)

Module CommandRelay.
Import JsString Num.

(** A connection handle. *)
Definition Socket := nat.

Definition Position := (Q * Q * Q)%type.

Record WorkerRecord := mkWorker {
  leader : string;
  socket : Socket;
  status : string;
  lastUpdate : Z;
  position : option Position;
  health : Q;
  food : Q
}.

(** A leader entry; its [workers] set is created empty and never filled. *)
Record LeaderRecord := mkLeader {
  leaderSocket : option Socket;
  leaderWorkers : gset string
}.

Record CommandRecord := mkCommand {
  cmdLeader : string;
  cmdWorker : string;
  cmdCommand : string;
  cmdArgs : list string;
  cmdTimestamp : Z;
  cmdStatus : string
}.

(** The status object a worker reports; absent fields are [None]. *)
Record StatusReport := mkStatus {
  reportStatus : string;
  reportPosition : option Position;
  reportHealth : option Q;
  reportFood : option Q;
  reportCommandId : option string
}.

Record t := mkRelay {
  workers : gmap string WorkerRecord;
  leaders : gmap string LeaderRecord;
  commandQueue : gmap string CommandRecord;
  workersByLeader : gmap string (list string)
}.

Definition empty : t := mkRelay ∅ ∅ ∅ ∅.

(** Outbound effects: socket emissions and the clean-up timer. *)
Inductive Effect :=
| EmitWorkerCommand (to : Socket) (command : string) (args : list string)
    (commandId : string)
| EmitWorkerStatusUpdate (to : Socket) (worker : string) (report : StatusReport)
| ScheduleCleanup (commandId : string) (delayMs : Z).

(** The object returned by [routeCommand]. *)
Record RouteResult := mkResult {
  success : bool;
  error : option string;
  resultCommandId : option string
}.

(** [registerWorker(workerName, leaderName, socket)]. *)
Definition registerWorker (workerName leaderName : string) (sock : Socket)
  (now : Z) (r : t) : t :=
  let leaderWorkers := default [] (workersByLeader r !! leaderName) in
  mkRelay
    (<[workerName := mkWorker leaderName sock "registered" now None 20 20]>
       (workers r))
    (leaders r) (commandQueue r)
    (<[leaderName :=
         if bool_decide (workerName ∈ leaderWorkers) then leaderWorkers
         else (leaderWorkers ++ [workerName])%list]> (workersByLeader r)).

(** [registerLeader(leaderName, socket)]. *)
Definition registerLeader (leaderName : string) (sock : option Socket) (r : t) : t :=
  mkRelay (workers r)
    (<[leaderName := mkLeader sock ∅]> (leaders r))
    (commandQueue r)
    (match workersByLeader r !! leaderName with
     | Some _ => workersByLeader r
     | None => <[leaderName := []]> (workersByLeader r)
     end).

(** [leaderWorkers.splice(leaderWorkers.indexOf(workerName), 1)]. *)
Fixpoint removeFirst (x : string) (l : list string) : list string :=
  match l with
  | [] => []
  | y :: rest => if String.eqb y x then rest else y :: removeFirst x rest
  end.

(** [removeWorker(workerName)]. *)
Definition removeWorker (workerName : string) (r : t) : t :=
  match workers r !! workerName with
  | Some worker =>
      mkRelay (delete workerName (workers r)) (leaders r) (commandQueue r)
        (match workersByLeader r !! leader worker with
         | Some leaderWorkers =>
             <[leader worker := removeFirst workerName leaderWorkers]>
               (workersByLeader r)
         | None => workersByLeader r
         end)
  | None => r
  end.

(** [removeLeader(leaderName)]. *)
Definition removeLeader (leaderName : string) (r : t) : t :=
  mkRelay (workers r) (delete leaderName (leaders r)) (commandQueue r)
    (workersByLeader r).

Definition withQueue (r : t) (q : gmap string CommandRecord) : t :=
  mkRelay (workers r) (leaders r) q (workersByLeader r).

(** [routeCommand(leaderName, workerName, command, args, commandId)]. *)
Definition routeCommand (leaderName workerName command : string)
  (args : list string) (commandId : string) (now : Z) (r : t) :
  RouteResult * t * list Effect :=
  match workers r !! workerName with
  | None => (mkResult false (Some "Worker not found") None, r, [])
  | Some worker =>
      if negb (String.eqb (leader worker) leaderName) then
        (mkResult false (Some "Worker not assigned to this leader") None, r, [])
      else
        (mkResult true None (Some commandId),
         withQueue r
           (<[commandId :=
                mkCommand leaderName workerName command args now "sent"]>
              (commandQueue r)),
         [EmitWorkerCommand (socket worker) command args commandId])
  end.

(** The derived identifier [`${commandId}-${idx}`]. *)
Definition subCommandId (commandId : string) (idx : nat) : string :=
  commandId +:+ "-" +:+ pretty idx.

(** The [forEach] of [routeGroupCommand], from index [idx] on. *)
Fixpoint routeGroupFrom (leaderName command : string) (args : list string)
  (commandId : string) (now : Z) (idx : nat) (names : list string) (r : t) :
  list (string * RouteResult) * t * list Effect :=
  match names with
  | [] => ([], r, [])
  | workerName :: rest =>
      let '(result, r1, effects1) :=
        routeCommand leaderName workerName command args
          (subCommandId commandId idx) now r in
      let '(results, r2, effects2) :=
        routeGroupFrom leaderName command args commandId now (S idx) rest r1 in
      ((workerName, result) :: results, r2, (effects1 ++ effects2)%list)
  end.

(** [routeGroupCommand(leaderName, command, args, commandId)]. *)
Definition routeGroupCommand (leaderName command : string)
  (args : list string) (commandId : string) (now : Z) (r : t) :
  list (string * RouteResult) * t * list Effect :=
  routeGroupFrom leaderName command args commandId now 0
    (default [] (workersByLeader r !! leaderName)) r.

Definition isTerminal (status : string) : bool :=
  String.eqb status "completed" || String.eqb status "error".

(** [updateWorkerStatus(workerName, status)]. *)
Definition updateWorkerStatus (workerName : string) (report : StatusReport)
  (now : Z) (r : t) : t * list Effect :=
  match workers r !! workerName with
  | None => (r, [])
  | Some worker =>
      let worker' :=
        mkWorker (leader worker) (socket worker) (reportStatus report) now
          (match reportPosition report with
           | Some p => Some p
           | None => position worker
           end)
          (default (health worker) (reportHealth report))
          (default (food worker) (reportFood report)) in
      let workers' := <[workerName := worker']> (workers r) in
      let '(queue', cleanup) :=
        match reportCommandId report with
        | Some (String a id) =>
            let commandId := String a id in
            match commandQueue r !! commandId with
            | Some cmd =>
                (<[commandId :=
                     mkCommand (cmdLeader cmd) (cmdWorker cmd) (cmdCommand cmd)
                       (cmdArgs cmd) (cmdTimestamp cmd) (reportStatus report)]>
                   (commandQueue r),
                 if isTerminal (reportStatus report)
                 then [ScheduleCleanup commandId 60000] else [])
            | None => (commandQueue r, [])
            end
        | _ => (commandQueue r, [])
        end in
      let forward :=
        match leaders r !! leader worker with
        | Some (mkLeader (Some sock) _) =>
            [EmitWorkerStatusUpdate sock workerName report]
        | _ => []
        end in
      (mkRelay workers' (leaders r) queue' (workersByLeader r),
       (cleanup ++ forward)%list)
  end.

(** The timer set by [updateWorkerStatus] fires. *)
Definition cleanup (commandId : string) (r : t) : t :=
  withQueue r (delete commandId (commandQueue r)).

(** An example relay: a leader with three registered workers. *)
Definition threeWorkers : t :=
  registerWorker "w2" "Lead" 12%nat 3
    (registerWorker "w1" "Lead" 11%nat 2
       (registerWorker "w0" "Lead" 10%nat 1
          (registerLeader "Lead" (Some 7%nat) empty))).

(** *** The relay as a state machine *)

(** [getWorkersForLeader(leaderName)]. *)
Definition getWorkersForLeader (leaderName : string) (r : t) : list string :=
  default [] (workersByLeader r !! leaderName).

(** The calls that change the relay; outputs are dropped. *)
Inductive Op :=
| RegisterWorker (workerName leaderName : string) (sock : Socket) (now : Z)
| RegisterLeader (leaderName : string) (sock : option Socket)
| RemoveWorker (workerName : string)
| RemoveLeader (leaderName : string)
| RouteCommand (leaderName workerName command : string) (args : list string)
    (commandId : string) (now : Z)
| RouteGroupCommand (leaderName command : string) (args : list string)
    (commandId : string) (now : Z)
| UpdateWorkerStatus (workerName : string) (report : StatusReport) (now : Z)
| Cleanup (commandId : string).

Definition step (r : t) (op : Op) : t :=
  match op with
  | RegisterWorker workerName leaderName sock now =>
      registerWorker workerName leaderName sock now r
  | RegisterLeader leaderName sock => registerLeader leaderName sock r
  | RemoveWorker workerName => removeWorker workerName r
  | RemoveLeader leaderName => removeLeader leaderName r
  | RouteCommand leaderName workerName command args commandId now =>
      (routeCommand leaderName workerName command args commandId now r).1.2
  | RouteGroupCommand leaderName command args commandId now =>
      (routeGroupCommand leaderName command args commandId now r).1.2
  | UpdateWorkerStatus workerName report now =>
      (updateWorkerStatus workerName report now r).1
  | Cleanup commandId => cleanup commandId r
  end.

(** Every registered worker is in the list of its leader, and no list
    names a worker twice. *)
Definition consistent (r : t) : Prop :=
  (∀ w worker, workers r !! w = Some worker →
               w ∈ getWorkersForLeader (leader worker) r)
  ∧ (∀ leaderName, NoDup (getWorkersForLeader leaderName r)).

(** The worker is registered, with this leader. *)
Definition registeredWith (r : t) (leaderName workerName : string) : bool :=
  match workers r !! workerName with
  | Some worker => String.eqb (leader worker) leaderName
  | None => false
  end.

(** The workers that a group command reached: the names of the successful
    results, in order. *)
Definition reached (results : list (string * RouteResult)) : list string :=
  map fst (List.filter (λ x, success x.2) results).


(** *** Group commands over a list with stale names *)

(** The workers currently assigned to a leader: the registered workers
    whose record names that leader. *)
Definition assignedWorkers (r : t) (leaderName : string) : gset string :=
  dom (filter (λ kv, leader kv.2 = leaderName) (workers r)).

(** The identifiers [commandId-i] of the positions [i], counted from
    [idx], whose name passes [live]. *)
Fixpoint idsFrom (commandId : string) (live : string → bool) (idx : nat)
  (names : list string) : list string :=
  match names with
  | [] => []
  | w :: rest =>
      ((if live w then [subCommandId commandId idx] else [])
       ++ idsFrom commandId live (S idx) rest)%list
  end.

(** The identifiers under which a group command of [leaderName] is
    recorded: one for each position of its list whose worker is registered
    with it. *)
Definition recordedIds (commandId leaderName : string) (r : t) : list string :=
  idsFrom commandId (registeredWith r leaderName) 0
    (getWorkersForLeader leaderName r).

(** An example relay: [w0] registered with a leader, then again with
    another one, and [w1] registered with the first. *)
Definition staleRelay : t :=
  registerWorker "w0" "Other" 10%nat 3
    (registerWorker "w1" "Lead" 11%nat 2
       (registerWorker "w0" "Lead" 10%nat 1 empty)).


End CommandRelay.

(* ===================================================================== *)
(** ** Coordination hub: connections, listeners and the relationship cache *)
(* ===================================================================== *)

Module MindServer.
Import JsString.

Definition Socket := nat.

(** The fields of [AgentConnection] that the handlers below read or
    write. *)
Record AgentConnection := mkConnection {
  socket : option Socket;
  in_game : bool
}.

(** The payload of a [relationship-update], with the time it was cached. *)
Record RelationshipData := mkData {
  dataAgent : string;
  dataTarget : string;
  dataTrust : Q;
  dataRespect : Q;
  dataFamiliarity : Q;
  dataAffection : Q;
  dataType : string;
  dataInteractionCount : nat;
  dataTimestamp : Z
}.

(** The hub: [agent_connections] (an object used as a map; the names are
    taken to be plain keys), the [curAgentName] of each connection's
    closure, the [relationship_cache] (a [Map], in insertion order), the
    [agent_listeners] and whether [listenerInterval] is set. *)
Record t := mkServer {
  agent_connections : gmap string AgentConnection;
  curAgentName : gmap Socket string;
  relationship_cache : list (string * RelationshipData);
  agent_listeners : list Socket;
  listenerInterval : bool
}.

Definition initial : t := mkServer ∅ ∅ [] [] false.

Inductive Effect :=
| AgentsStatusUpdate
| DestroyAgentProcess (agentName : string)
| EmitChatMessage (to : Socket) (sender : option string) (message : string)
| BroadcastRelationshipUpdate (data : RelationshipData)
| EmitRelationshipUpdate (to : Socket) (data : RelationshipData)
| SetInterval
| ClearInterval.

Definition withConnections (s : t) (m : gmap string AgentConnection) : t :=
  mkServer m (curAgentName s) (relationship_cache s) (agent_listeners s)
    (listenerInterval s).

(** [registerAgent(settings, viewer_port)], for the name of the profile. *)
Definition registerAgent (agentName : string) (s : t) : t :=
  withConnections s (<[agentName := mkConnection None false]> (agent_connections s)).

(** [logoutAgent(agentName)]. *)
Definition logoutAgent (agentName : string) (s : t) : t * list Effect :=
  match agent_connections s !! agentName with
  | Some conn =>
      (withConnections s
         (<[agentName := mkConnection (socket conn) false]> (agent_connections s)),
       [AgentsStatusUpdate])
  | None => (s, [])
  end.

(** The handler of [connect-agent-process]. *)
Definition onConnectAgentProcess (sock : Socket) (agentName : string) (s : t) :
  t * list Effect :=
  match agent_connections s !! agentName with
  | Some conn =>
      (withConnections s
         (<[agentName := mkConnection (Some sock) (in_game conn)]>
            (agent_connections s)),
       [AgentsStatusUpdate])
  | None => (s, [])
  end.

(** The handler of [login-agent]. *)
Definition onLoginAgent (sock : Socket) (agentName : string) (s : t) :
  t * list Effect :=
  match agent_connections s !! agentName with
  | Some conn =>
      (mkServer
         (<[agentName := mkConnection (Some sock) true]> (agent_connections s))
         (<[sock := agentName]> (curAgentName s))
         (relationship_cache s) (agent_listeners s) (listenerInterval s),
       [AgentsStatusUpdate])
  | None => (s, [])
  end.

(** [agent_listeners.splice(agent_listeners.indexOf(listener_socket), 1)]:
    the first occurrence is removed, and the last element when there is
    none (the index is then [-1]). *)
Fixpoint spliceIndexOf (x : Socket) (l : list Socket) : list Socket :=
  match l with
  | [] => []
  | [y] => []
  | y :: rest => if (y =? x)%nat then rest else y :: spliceIndexOf x rest
  end.

(** [addListener(listener_socket)]. *)
Definition addListener (sock : Socket) (s : t) : t * list Effect :=
  let listeners := (agent_listeners s ++ [sock])%list in
  if (length listeners =? 1)%nat then
    (mkServer (agent_connections s) (curAgentName s) (relationship_cache s)
       listeners true,
     [SetInterval])
  else
    (mkServer (agent_connections s) (curAgentName s) (relationship_cache s)
       listeners (listenerInterval s),
     []).

(** [removeListener(listener_socket)]. *)
Definition removeListener (sock : Socket) (s : t) : t * list Effect :=
  let listeners := spliceIndexOf sock (agent_listeners s) in
  match listeners with
  | [] =>
      (mkServer (agent_connections s) (curAgentName s) (relationship_cache s)
         [] false,
       [ClearInterval])
  | _ =>
      (mkServer (agent_connections s) (curAgentName s) (relationship_cache s)
         listeners (listenerInterval s),
       [])
  end.

(** The handler of [disconnect]; a connection that never logged an agent
    in looks up the key that [null] is converted to. *)
Definition onDisconnect (sock : Socket) (s : t) : t * list Effect :=
  let cur := default "null" (curAgentName s !! sock) in
  let '(s1, effects1) :=
    match agent_connections s !! cur with
    | Some conn =>
        (withConnections s
           (<[cur := mkConnection None false]> (agent_connections s)),
         [AgentsStatusUpdate])
    | None => (s, [])
    end in
  if bool_decide (sock ∈ agent_listeners s1) then
    let '(s2, effects2) := removeListener sock s1 in
    (s2, (effects1 ++ effects2)%list)
  else (s1, effects1).

(** The handler of [destroy-agent]. *)
Definition onDestroyAgent (agentName : string) (s : t) : t * list Effect :=
  match agent_connections s !! agentName with
  | Some conn =>
      (withConnections s (delete agentName (agent_connections s)),
       [DestroyAgentProcess agentName; AgentsStatusUpdate])
  | None => (s, [AgentsStatusUpdate])
  end.

(** The handler of [chat-message]: the message is passed on when the
    target agent has a socket. *)
Definition onChatMessage (sock : Socket) (agentName message : string) (s : t) :
  list Effect :=
  match agent_connections s !! agentName with
  | Some (mkConnection (Some target) _) =>
      [EmitChatMessage target (curAgentName s !! sock) message]
  | _ => []
  end.

(** [[a, b].sort().join('-')]. *)
Definition pairKey (a b : string) : string :=
  if String.ltb b a then b +:+ "-" +:+ a else a +:+ "-" +:+ b.

(** [Map.prototype.set]: an existing key keeps its place. *)
Fixpoint mapSet {A} (k : string) (v : A) (m : list (string * A)) :
  list (string * A) :=
  match m with
  | [] => [(k, v)]
  | (k', v') :: rest =>
      if String.eqb k' k then (k, v) :: rest else (k', v') :: mapSet k v rest
  end.

(** [Map.prototype.get]. *)
Definition mapGet {A} (k : string) (m : list (string * A)) : option A :=
  match List.find (λ entry, String.eqb entry.1 k) m with
  | Some entry => Some entry.2
  | None => None
  end.

(** The handler of [relationship-update]. *)
Definition onRelationshipUpdate (data : RelationshipData) (now : Z) (s : t) :
  t * list Effect :=
  let key := pairKey (dataAgent data) (dataTarget data) in
  let cached :=
    mkData (dataAgent data) (dataTarget data) (dataTrust data)
      (dataRespect data) (dataFamiliarity data) (dataAffection data)
      (dataType data) (dataInteractionCount data) now in
  (mkServer (agent_connections s) (curAgentName s)
     (mapSet key cached (relationship_cache s))
     (agent_listeners s) (listenerInterval s),
   [BroadcastRelationshipUpdate data]).

(** The handler of [listen-to-agents]. *)
Definition onListenToAgents (sock : Socket) (s : t) : t * list Effect :=
  let '(s1, effects) := addListener sock s in
  (s1,
   (effects
    ++ map (λ entry, EmitRelationshipUpdate sock entry.2) (relationship_cache s1))%list).

(** What reaches the hub. *)
Inductive Event :=
| RegisterAgent (agentName : string)
| LogoutAgent (agentName : string)
| ConnectAgentProcess (sock : Socket) (agentName : string)
| LoginAgent (sock : Socket) (agentName : string)
| Disconnect (sock : Socket)
| DestroyAgent (agentName : string)
| ChatMessage (sock : Socket) (agentName message : string)
| RelationshipUpdate (data : RelationshipData) (now : Z)
| ListenToAgents (sock : Socket).

Definition handle (s : t) (e : Event) : t * list Effect :=
  match e with
  | RegisterAgent agentName => (registerAgent agentName s, [])
  | LogoutAgent agentName => logoutAgent agentName s
  | ConnectAgentProcess sock agentName => onConnectAgentProcess sock agentName s
  | LoginAgent sock agentName => onLoginAgent sock agentName s
  | Disconnect sock => onDisconnect sock s
  | DestroyAgent agentName => onDestroyAgent agentName s
  | ChatMessage sock agentName message => (s, onChatMessage sock agentName message s)
  | RelationshipUpdate data now => onRelationshipUpdate data now s
  | ListenToAgents sock => onListenToAgents sock s
  end.

(** The state and the trace after a sequence of events. *)
Fixpoint run (events : list Event) (s : t) : t * list Effect :=
  match events with
  | [] => (s, [])
  | e :: rest =>
      let '(s1, effects1) := handle s e in
      let '(s2, effects2) := run rest s1 in
      (s2, (effects1 ++ effects2)%list)
  end.

(** The agent names of an event are plain keys of an object. *)
Definition plainEvent (e : Event) : bool :=
  match e with
  | RegisterAgent n | LogoutAgent n | ConnectAgentProcess _ n | LoginAgent _ n
  | DestroyAgent n | ChatMessage _ n _ => Relationship.plainKey n
  | Disconnect _ | RelationshipUpdate _ _ | ListenToAgents _ => true
  end.

(** An agent marked as in game has a socket. *)
Definition connected (s : t) : Prop :=
  ∀ agentName conn,
    agent_connections s !! agentName = Some conn →
    in_game conn = true → socket conn ≠ None.

(** The polling interval is set exactly while there are listeners. *)
Definition polling (s : t) : Prop :=
  listenerInterval s = negb (bool_decide (agent_listeners s = [])).

(** The intervals set and not yet cleared, along a trace. *)
Fixpoint openIntervals (trace : list Effect) (n : Z) : Z :=
  match trace with
  | [] => n
  | SetInterval :: rest => openIntervals rest (n + 1)
  | ClearInterval :: rest => openIntervals rest (n - 1)
  | _ :: rest => openIntervals rest n
  end.

End MindServer.

(* ===================================================================== *)
(** ** Agent: the leader's thought tick *)
(* ===================================================================== *)

Module Agent.
Import JsString.

(** A pending context item: the tag and the fields the summary prints. *)
Record ContextItem := mkItem {
  itemType : string;
  itemWorker : string;
  itemStatus : string;
  itemDetails : option string;
  itemSource : string;
  itemMessage : string;
  itemEvent : string;
  itemTimestamp : Z
}.

(** A turn of the conversation history: role and content. *)
Definition Turn := (string * string)%type.

Record t := mkAgent {
  name : string;
  isLeader : bool;
  pendingContext : list ContextItem;
  assignedWorkers : list string;
  history : list Turn
}.

Inductive Effect :=
| PromptConvo (turns : list Turn)
| ExecuteCommand (response : string)
| OpenChat (response : string)
| HistorySave.

Definition isPromptConvo (e : Effect) : bool :=
  match e with PromptConvo _ => true | _ => false end.

(** The number of oracle-backed conversational turns in a trace. *)
Definition oracleCalls (trace : list Effect) : nat :=
  length (List.filter isPromptConvo trace).

Definition withPending (a : t) (items : list ContextItem) : t :=
  mkAgent (name a) (isLeader a) items (assignedWorkers a) (history a).

Definition withHistory (a : t) (turns : list Turn) : t :=
  mkAgent (name a) (isLeader a) (pendingContext a) (assignedWorkers a) turns.

(** The queued copy of an item: [{...contextItem, timestamp: Date.now()}]. *)
Definition stamp (item : ContextItem) (now : Z) : ContextItem :=
  mkItem (itemType item) (itemWorker item) (itemStatus item)
    (itemDetails item) (itemSource item) (itemMessage item)
    (itemEvent item) now.

(** [queueContext(contextItem)]. *)
Definition queueContext (item : ContextItem) (now : Z) (a : t) : bool * t :=
  if negb (isLeader a) then (false, a)
  else (true, withPending a (pendingContext a ++ [stamp item now])%list).

(** [_startThoughtTick()]: the period of the interval it installs, if any
    ([settings.thought_tick_interval || 30000]). *)
Definition _startThoughtTick (thought_tick_interval : option Z) (a : t) :
  option Z :=
  if negb (isLeader a) then None
  else
    Some (match thought_tick_interval with
          | Some i => if (i =? 0)%Z then 30000%Z else i
          | None => 30000%Z
          end).

Definition hasType (tag : string) (c : ContextItem) : bool :=
  String.eqb (itemType c) tag.

Fixpoint concatLines (ls : list string) : string :=
  match ls with
  | [] => ""
  | l :: rest => l +:+ concatLines rest
  end.

(** One section of the summary: a bracketed header and one line per item. *)
Definition section (title unit : string) (lines : list string) : string :=
  match lines with
  | [] => ""
  | _ =>
      newline +:+ "[" +:+ title +:+ " - " +:+ pretty (length lines) +:+ " "
        +:+ unit +:+ "]" +:+ newline +:+ concatLines lines
  end.

Definition workerReportLine (r : ContextItem) : string :=
  "- " +:+ itemWorker r +:+ ": " +:+ itemStatus r +:+ " "
    +:+ orStr (itemDetails r) "" +:+ newline.

Definition chatLine (m : ContextItem) : string :=
  "- " +:+ itemSource m +:+ ": " +:+ dquote +:+ itemMessage m +:+ dquote
    +:+ newline.

Definition eventLine (e : ContextItem) : string :=
  "- " +:+ itemEvent e +:+ ": " +:+ orStr (itemDetails e) "" +:+ newline.

Definition workersSection (assigned : list string) : string :=
  match assigned with
  | [] => ""
  | _ =>
      newline +:+ "[YOUR WORKERS: " +:+ join ", " assigned +:+ "]" +:+ newline
        +:+ "Use !commandWorker(worker_name, command, args) or "
        +:+ "!commandGroup(command, args) to direct workers." +:+ newline
  end.

(** The consolidated summary of one drained batch. *)
Definition batchedMessage (assigned : list string)
  (contextBatch : list ContextItem) : string :=
  section "WORKER REPORTS" "updates"
    (map workerReportLine (List.filter (hasType "worker_report") contextBatch))
  +:+ section "CHAT MESSAGES" "messages"
        (map chatLine (List.filter (hasType "chat") contextBatch))
  +:+ section "EVENTS" "events"
        (map eventLine (List.filter (hasType "event") contextBatch))
  +:+ workersSection assigned.

(** The tag of the data model: worker report, chat or event. *)
Definition knownItem (c : ContextItem) : Prop :=
  itemType c ∈ ["worker_report"; "chat"; "event"].

Section Collaborators.

(** The prompter's conversational turn (the oracle-backed call), and the
    command layer, are collaborators outside this layer. *)
Variable promptConvo : list Turn → option string.
Variable containsCommand : string → option string.
Variable commandExists : string → bool.
Variable executeCommand : string → option string.

(** What follows a non-blank reply of the oracle. *)
Definition handleReply (a : t) (res : string) : t * list Effect :=
  let a1 := withHistory a (history a ++ [(name a, res)])%list in
  let runs :=
    match containsCommand res with
    | Some (String c cmd) => commandExists (String c cmd)
    | _ => false
    end in
  if runs then
    let a2 :=
      match executeCommand res with
      | Some (String c out) =>
          withHistory a1 (history a1 ++ [("system", String c out)])%list
      | _ => a1
      end in
    (a2, [ExecuteCommand res; OpenChat res])
  else (a1, [OpenChat res]).

(** [_processThoughtTick()]. *)
Definition _processThoughtTick (a : t) : t * list Effect :=
  match pendingContext a with
  | [] => (a, [])
  | _ =>
      let contextBatch := pendingContext a in
      let a0 := withPending a [] in
      let message := batchedMessage (assignedWorkers a0) contextBatch in
      if truthy (trim message) then
        let a1 :=
          withHistory a0
            (history a0 ++ [("system", "[THOUGHT TICK BATCH]" +:+ message)])%list in
        match promptConvo (history a1) with
        | Some res =>
            if truthy (trim res) then
              let '(a2, effects) := handleReply a1 res in
              (a2, PromptConvo (history a1) :: effects ++ [HistorySave])%list
            else (a1, [PromptConvo (history a1); HistorySave])
        | None => (a1, [PromptConvo (history a1); HistorySave])
        end
      else (a0, [HistorySave])
  end.

(** The interval callback installed by [_startThoughtTick()]; the interval
    exists for leaders only. *)
Definition thoughtTick (a : t) : t * list Effect :=
  if negb (isLeader a) then (a, [])
  else
    match pendingContext a with
    | [] => (a, [])
    | _ => _processThoughtTick a
    end.

(** What happens to a leader between and at its ticks. *)
Inductive Step :=
| Enqueue (item : ContextItem) (now : Z)
| Tick.

Definition isTick (s : Step) : bool :=
  match s with Tick => true | Enqueue _ _ => false end.

(** The trace of a schedule of enqueues and ticks. *)
Fixpoint runSchedule (steps : list Step) (a : t) : t * list Effect :=
  match steps with
  | [] => (a, [])
  | Enqueue item now :: rest => runSchedule rest (queueContext item now a).2
  | Tick :: rest =>
      let '(a1, effects1) := thoughtTick a in
      let '(a2, effects2) := runSchedule rest a1 in
      (a2, (effects1 ++ effects2)%list)
  end.

End Collaborators.

(** Enqueueing a list of events, each at its own time. *)
Definition queueAll (items : list (ContextItem * Z)) (a : t) : t :=
  fold_left (λ a item, (queueContext item.1 item.2 a).2) items a.

(** *** The summary lines and the list of workers *)

(** The line that the summary prints for an item, by its tag. *)
Definition summaryLine (c : ContextItem) : string :=
  if hasType "worker_report" c then workerReportLine c
  else if hasType "chat" c then chatLine c
  else eventLine c.

Definition withWorkers (a : t) (names : list string) : t :=
  mkAgent (name a) (isLeader a) (pendingContext a) names (history a).

(** [registerWorker(workerName)]. *)
Definition registerWorker (workerName : string) (a : t) : t :=
  if negb (isLeader a) then a
  else if strIn workerName (assignedWorkers a) then a
  else withWorkers a (assignedWorkers a ++ [workerName])%list.

(** [unregisterWorker(workerName)]: the first occurrence is spliced out. *)
Definition unregisterWorker (workerName : string) (a : t) : t :=
  if negb (isLeader a) then a
  else withWorkers a (CommandRelay.removeFirst workerName (assignedWorkers a)).

(** Changes of the list of workers. *)
Inductive WorkerOp :=
| Register (workerName : string)
| Unregister (workerName : string).

Definition applyWorkerOp (a : t) (op : WorkerOp) : t :=
  match op with
  | Register workerName => registerWorker workerName a
  | Unregister workerName => unregisterWorker workerName a
  end.

(** *** The chat handler after a decision *)

(** The re-check made after the delay of a positive decision, at time
    [checked]: another agent responded less than two seconds ago and the
    decision was not a direct mention. *)
Definition preempted (name : string) (decision : ConversationCoordinator.Result.t)
  (checked : Z) (c : ConversationCoordinator.t) : bool :=
  (0 <? ConversationCoordinator.Result.delay decision)%Z
  && (checked - ConversationCoordinator.timestamp
                  (ConversationCoordinator.lastResponse c) <? 2000)%Z
  && negb (bool_decide
             (ConversationCoordinator.responder
                (ConversationCoordinator.lastResponse c) = Some name))
  && negb (String.eqb (ConversationCoordinator.Result.reason decision)
             "directly_mentioned").

(** What the chat handler does with the coordinator's decision when other
    agents are present: it returns whether the agent goes on to respond,
    and the coordinator with the response recorded. *)
Definition afterDecision (name username message : string)
  (decision : ConversationCoordinator.Result.t) (checked : Z)
  (c : ConversationCoordinator.t) : bool * ConversationCoordinator.t :=
  if negb (ConversationCoordinator.Result.shouldRespond decision) then (false, c)
  else if preempted name decision checked c then (false, c)
  else (true, ConversationCoordinator.recordResponse name username message checked c).


End Agent.

(* ===================================================================== *)
(** ** Leader commands: from the action to the worker's socket *)
(* ===================================================================== *)

Module LeaderCommands.
Import JsString.

(** The data of a [leader-command] message. *)
Record LeaderCommand := mkLeaderCommand {
  lcLeader : string;
  lcWorker : string;
  lcCommand : string;
  lcArgs : list string;
  lcCommandId : string;
  lcTimestamp : Z
}.

(** [sendWorkerCommand(workerName, command, args)] of the proxy connected
    under [proxyName]: the identifier returned and the data emitted. *)
Definition sendWorkerCommand (proxyName workerName command : string)
  (args : list string) (now : Z) : string * LeaderCommand :=
  let commandId := proxyName +:+ "-" +:+ workerName +:+ "-" +:+ pretty now in
  (commandId, mkLeaderCommand proxyName workerName command args commandId now).

(** The arguments [{ player_name: target, distance: 4 }], as the list of
    the keys and the printed values. *)
Definition followArgs (target : string) : list string :=
  ["player_name"; target; "distance"; "4"].

(** The action [!workerFollow]: the text it returns and what it sends. *)
Definition workerFollow (proxyName : string) (a : Agent.t)
  (worker_name target : string) (now : Z) : string * option LeaderCommand :=
  if negb (Agent.isLeader a) then ("This command is only for leaders.", None)
  else if negb (strIn worker_name (Agent.assignedWorkers a)) then
    ("Worker " +:+ dquote +:+ worker_name +:+ dquote
       +:+ " not found. Your workers: "
       +:+ join ", " (take 5 (Agent.assignedWorkers a)) +:+ "...",
     None)
  else
    (worker_name +:+ " is now following " +:+ target +:+ ".",
     Some (sendWorkerCommand proxyName worker_name "followPlayer"
             (followArgs target) now).2).

(** What the hub does with a [leader-command]: the relay's effects and the
    notice for the listeners. *)
Inductive HubEffect :=
| Relayed (e : CommandRelay.Effect)
| CommandSent (leader worker command commandId : string) (timestamp : Z).

Definition onLeaderCommand (data : LeaderCommand) (now : Z)
  (r : CommandRelay.t) : CommandRelay.t * list HubEffect :=
  let '(result, r', effects) :=
    CommandRelay.routeCommand (lcLeader data) (lcWorker data) (lcCommand data)
      (lcArgs data) (lcCommandId data) now r in
  (r',
   (map Relayed effects
    ++ [CommandSent (lcLeader data) (lcWorker data) (lcCommand data)
          (lcCommandId data) (lcTimestamp data)])%list).

End LeaderCommands.


(* ===================================================================== *)
(** * Properties *)
(* ===================================================================== *)

(** ** Facts about the string primitives *)

Module JsStringFacts.
Import JsString.


Lemma app_cons (c : ascii) (a b : string) :
  String c a +:+ b = String c (a +:+ b).
Proof. reflexivity. Qed.

Lemma app_nil_l (s : string) : "" +:+ s = s.
Proof. reflexivity. Qed.

Lemma app_nil_r (s : string) : s +:+ "" = s.
Proof. induction s as [|c s IH]; [done|]. by rewrite app_cons, IH. Qed.

Lemma app_assoc (a b c : string) : (a +:+ b) +:+ c = a +:+ b +:+ c.
Proof. induction a as [|x a IH]; [done|]. by rewrite !app_cons, IH. Qed.

Lemma string_length_app (a b : string) :
  String.length (a +:+ b) = (String.length a + String.length b)%nat.
Proof. induction a as [|x a IH]; [done|]. rewrite app_cons. cbn. by rewrite IH. Qed.

Lemma startsWith_spec (s p : string) :
  startsWith s p = true ↔ ∃ b, s = p +:+ b.
Proof.
  revert s. induction p as [|a p IH]; intros s; cbn.
  - split; [intros _; by exists s|done].
  - destruct s as [|b s]; cbn.
    + split; [done|]. intros [t Ht]. by rewrite app_cons in Ht.
    + destruct (ascii_dec a b) as [->|Hne].
      * rewrite IH. split; intros [t Ht]; exists t.
        -- by rewrite app_cons, Ht.
        -- rewrite app_cons in Ht. by injection Ht.
      * split; [done|]. intros [t Ht]. rewrite app_cons in Ht.
        injection Ht as ? ?. congruence.
Qed.

Lemma includes_spec (s p : string) :
  includes s p = true ↔ ∃ a b, s = a +:+ p +:+ b.
Proof.
  induction s as [|c s IH]; cbn [includes].
  - rewrite orb_false_r, startsWith_spec. split.
    + intros [b Hb]. by exists "", b.
    + intros [a [b Hab]]. destruct a; [by exists b|by rewrite app_cons in Hab].
  - rewrite orb_true_iff, startsWith_spec, IH. split.
    + intros [[b Hb]|[a [b Hab]]].
      * by exists "", b.
      * exists (String c a), b. by rewrite app_cons, Hab.
    + intros [a [b Hab]]. destruct a as [|x a].
      * left. by exists b.
      * right. rewrite app_cons in Hab. injection Hab as _ Hab. by exists a, b.
Qed.

Lemma includes_cons (c : ascii) (s p : string) :
  includes s p = true → includes (String c s) p = true.
Proof.
  intros H. change (startsWith (String c s) p || includes s p = true).
  rewrite H. apply orb_true_r.
Qed.

Lemma toLowerCase_app (a b : string) :
  toLowerCase (a +:+ b) = toLowerCase a +:+ toLowerCase b.
Proof. induction a as [|x a IH]; [done|]. rewrite !app_cons. cbn. by rewrite IH. Qed.

Lemma toLowerCase_length (s : string) :
  String.length (toLowerCase s) = String.length s.
Proof. induction s as [|c s IH]; [done|]. cbn. by rewrite IH. Qed.

Lemma includes_toLowerCase (s p : string) :
  includes s p = true →
  includes (toLowerCase s) (toLowerCase p) = true.
Proof.
  rewrite !includes_spec. intros [a [b ->]].
  exists (toLowerCase a), (toLowerCase b). by rewrite !toLowerCase_app.
Qed.

Lemma lowerChar_is_space (c : ascii) :
  Ascii.is_space (lowerChar c) = Ascii.is_space c.
Proof. by destruct c as [[] [] [] [] [] [] [] []]. Qed.

Lemma trimStart_length (s : string) :
  (String.length (trimStart s) ≤ String.length s)%nat.
Proof. induction s as [|c s IH]; cbn; [lia|]. destruct (Ascii.is_space c); cbn; lia. Qed.

Lemma trimEnd_length (s : string) :
  (String.length (trimEnd s) ≤ String.length s)%nat.
Proof.
  induction s as [|c s IH]; cbn; [lia|].
  destruct (trimEnd s); [destruct (Ascii.is_space c)|]; cbn in *; lia.
Qed.

Lemma trim_length (s : string) :
  (String.length (trim s) ≤ String.length s)%nat.
Proof.
  unfold trim. etrans; [apply trimEnd_length|apply trimStart_length].
Qed.

Lemma startsWith_firstNonSpace (s p : string) (c : ascii) :
  firstNonSpace p = true → Ascii.is_space c = true →
  startsWith (String c s) p = false.
Proof.
  destruct p as [|a p]; [done|]. cbn. intros Ha Hc.
  destruct (ascii_dec a c) as [->|]; [|done]. by rewrite Hc in Ha.
Qed.

Lemma includes_trimStart (s p : string) :
  firstNonSpace p = true →
  includes s p = true → includes (trimStart s) p = true.
Proof.
  intros Hp. induction s as [|c s IH]; [done|].
  cbn [trimStart]. destruct (Ascii.is_space c) eqn:Hc; [|done].
  cbn [includes]. by rewrite (startsWith_firstNonSpace s p c).
Qed.

Lemma trimEnd_empty_startsWith (s p : string) :
  lastNonSpace p = true → trimEnd s = "" → startsWith s p = false.
Proof.
  revert p. induction s as [|c s IH]; intros p Hp Hs.
  - by destruct p.
  - cbn in Hs. destruct (trimEnd s) eqn:Ht; [|done].
    destruct (Ascii.is_space c) eqn:Hc; [|done].
    destruct p as [|a p]; [done|]. cbn.
    destruct (ascii_dec a c) as [->|]; [|done].
    destruct p as [|b p]; [cbn in Hp; by rewrite Hc in Hp|].
    apply IH; done.
Qed.

Lemma startsWith_trimEnd (s p : string) :
  lastNonSpace p = true →
  startsWith s p = true → startsWith (trimEnd s) p = true.
Proof.
  revert p. induction s as [|c s IH]; intros p Hp Hs.
  - by destruct p.
  - destruct p as [|a p]; [done|]. cbn in Hs.
    destruct (ascii_dec a c) as [->|]; [|done].
    cbn [trimEnd]. destruct p as [|b p].
    + cbn in Hp. destruct (trimEnd s); cbn.
      * destruct (Ascii.is_space c); [done|]. cbn.
        by destruct (ascii_dec c c).
      * by destruct (ascii_dec c c).
    + assert (Hq : lastNonSpace (String b p) = true) by done.
      pose proof (IH _ Hq Hs) as Hr.
      destruct (trimEnd s) as [|x t] eqn:Ht; [done|].
      cbn [startsWith]. by destruct (ascii_dec c c).
Qed.

Lemma includes_trimEnd (s p : string) :
  lastNonSpace p = true →
  includes s p = true → includes (trimEnd s) p = true.
Proof.
  intros Hp. induction s as [|c s IH]; [by destruct p|].
  cbn [includes]. rewrite orb_true_iff. intros [Hs|Hs].
  - pose proof (startsWith_trimEnd _ _ Hp Hs) as Hr.
    destruct (trimEnd (String c s)); cbn [includes]; by rewrite Hr.
  - specialize (IH Hs). cbn [trimEnd].
    destruct (trimEnd s) as [|x t] eqn:Ht.
    + by destruct p.
    + by apply includes_cons.
Qed.

Lemma includes_trim (s p : string) :
  firstNonSpace p = true → lastNonSpace p = true →
  includes s p = true → includes (trim s) p = true.
Proof.
  intros. unfold trim. by apply includes_trimEnd, includes_trimStart.
Qed.

Lemma trimStart_suffix (s : string) : ∃ a, s = a +:+ trimStart s.
Proof.
  induction s as [|c s [a Ha]]; [by exists ""|].
  cbn [trimStart]. destruct (Ascii.is_space c).
  - exists (String c a). by rewrite app_cons, <- Ha.
  - by exists "".
Qed.

Lemma trimEnd_prefix (s : string) : ∃ b, s = trimEnd s +:+ b.
Proof.
  induction s as [|c s [b Hb]]; [by exists ""|].
  cbn [trimEnd]. destruct (trimEnd s) as [|x t] eqn:Ht.
  - destruct (Ascii.is_space c).
    + by exists (String c s).
    + exists s. by rewrite app_cons.
  - exists b. by rewrite app_cons, <- Hb.
Qed.

Lemma includes_of_trim (s p : string) :
  includes (trim s) p = true → includes s p = true.
Proof.
  rewrite !includes_spec. intros [a [b Hab]]. unfold trim in Hab.
  destruct (trimStart_suffix s) as [u Hu].
  destruct (trimEnd_prefix (trimStart s)) as [v Hv].
  exists (u +:+ a), (b +:+ v).
  rewrite Hu at 1. rewrite Hv, Hab. by rewrite !app_assoc.
Qed.

(** Containment is unaffected by trimming when the phrase starts and ends
    with a character that is not white space. *)
Lemma includes_trim_iff (s p : string) :
  firstNonSpace p = true → lastNonSpace p = true →
  includes (trim s) p = includes s p.
Proof.
  intros Hf Hl. apply eq_true_iff_eq. split.
  - apply includes_of_trim.
  - by apply includes_trim.
Qed.

Lemma existsb_includes_trim (s : string) (ps : list string) :
  forallb (λ p, firstNonSpace p && lastNonSpace p) ps = true →
  existsb (includes (trim s)) ps = existsb (includes s) ps.
Proof.
  induction ps as [|p ps IH]; [done|]. cbn.
  rewrite andb_true_iff, andb_true_iff. intros [[Hf Hl] Hps].
  by rewrite IH, includes_trim_iff.
Qed.

Lemma trim_nonempty (s : string) (c : ascii) (a b : string) :
  Ascii.is_space c = false → s = a +:+ String c b → truthy (trim s) = true.
Proof.
  intros Hc Hs.
  assert (Hin : includes (trim s) (String c "") = true).
  { apply includes_trim; [by cbn; rewrite Hc|by cbn; rewrite Hc|].
    apply includes_spec. exists a, b. by rewrite Hs. }
  destruct (trim s); [done|done].
Qed.

Lemma splitLines_single (l : string) :
  hasNewline l = false → splitLines l = [l].
Proof.
  induction l as [|c l IH]; [done|]. cbn.
  destruct (ascii_dec c (ascii_of_nat 10)); [done|].
  intros H. by rewrite (IH H).
Qed.

Lemma splitLines_line (l rest : string) :
  hasNewline l = false →
  splitLines (l +:+ newline +:+ rest) = l :: splitLines rest.
Proof.
  induction l as [|c l IH]; [done|]. cbn [hasNewline].
  destruct (ascii_dec c (ascii_of_nat 10)) as [|Hc]; [done|].
  intros H. rewrite app_cons. cbn [splitLines].
  destruct (ascii_dec c (ascii_of_nat 10)); [done|]. by rewrite (IH H).
Qed.

(** Splitting what [join] assembled from lines without line feeds. *)
Lemma splitLines_join (ls : list string) :
  ls ≠ [] → Forall (λ l, hasNewline l = false) ls →
  splitLines (join newline ls) = ls.
Proof.
  induction ls as [|l ls IH]; [done|]. intros _ Hall.
  apply Forall_cons in Hall as [Hl Hls].
  destruct ls as [|l' ls].
  - cbn. by apply splitLines_single.
  - change (join newline (l :: l' :: ls))
      with (l +:+ newline +:+ join newline (l' :: ls)).
    rewrite (splitLines_line _ _ Hl). by rewrite IH.
Qed.

Lemma spanWord_word (w rest : string) :
  allWordChars w = true → spanWord rest = ("", rest) →
  spanWord (w +:+ rest) = (w, rest).
Proof.
  intros Hw Hrest. induction w as [|c w IH]; [done|].
  cbn in Hw. apply andb_true_iff in Hw as [Hc Hw].
  rewrite app_cons. cbn [spanWord]. by rewrite Hc, (IH Hw).
Qed.

(** The speaker of a line [speaker: text] is recognised when the speaker is
    a word. *)
Lemma matchSpeaker_line (speaker text : string) :
  isWord speaker = true →
  matchSpeaker (speaker +:+ ": " +:+ text) = Some speaker.
Proof.
  unfold isWord. rewrite andb_true_iff. intros [Hne Hw].
  unfold matchSpeaker. rewrite (spanWord_word speaker _ Hw) by done.
  by destruct speaker.
Qed.

Lemma isWordChar_not_space (c : ascii) :
  isWordChar c = true → Ascii.is_space c = false.
Proof. by destruct c as [[] [] [] [] [] [] [] []]. Qed.

Lemma word_line_not_blank (speaker rest : string) :
  isWord speaker = true → truthy (trim (speaker +:+ rest)) = true.
Proof.
  unfold isWord. rewrite andb_true_iff. intros [Hne Hw].
  destruct speaker as [|c w]; [done|]. cbn in Hw.
  apply andb_true_iff in Hw as [Hc _].
  apply (trim_nonempty _ c "" (w +:+ rest)); [by apply isWordChar_not_space|done].
Qed.

Lemma lastN_length {A} (n : nat) (l : list A) : (length (lastN n l) ≤ n)%nat.
Proof. unfold lastN. rewrite length_drop. lia. Qed.

Lemma lastN_all {A} (n : nat) (l : list A) :
  (length l ≤ n)%nat → lastN n l = l.
Proof.
  intros H. unfold lastN. replace (length l - n) with 0 by lia. done.
Qed.


Ltac in_list :=
  repeat first [apply list_elem_of_here | apply list_elem_of_further].

Lemma lastN_map {A B} (f : A → B) (n : nat) (l : list A) :
  lastN n (map f l) = map f (lastN n l).
Proof. unfold lastN. rewrite length_map. by rewrite <- fmap_drop. Qed.

Lemma lastN_lastN {A} (n m : nat) (l : list A) :
  (n ≤ m)%nat → lastN n (lastN m l) = lastN n l.
Proof.
  intros H. unfold lastN. rewrite length_drop, drop_drop. f_equal. lia.
Qed.

Lemma lastN_absorb {A} (n : nat) (l ms : list A) :
  lastN n (lastN n l ++ ms)%list = lastN n (l ++ ms)%list.
Proof.
  destruct (Nat.le_gt_cases (length l) n) as [Hle|Hgt].
  { by rewrite (lastN_all n l). }
  unfold lastN. rewrite !List.length_app, length_drop.
  rewrite !skipn_app, drop_drop, length_drop. f_equal; f_equal; lia.
Qed.


End JsStringFacts.

(** ** Facts about the number primitives *)

Module NumFacts.
Import Num.
Open Scope Q_scope.

Lemma Qltb_true (a b : Q) : Qltb a b = true ↔ a < b.
Proof.
  unfold Qltb. rewrite negb_true_iff. split.
  - intros H. apply Qnot_le_lt. intros Hle.
    apply Qle_bool_iff in Hle. congruence.
  - intros H. destruct (Qle_bool b a) eqn:E; [|done].
    apply Qle_bool_iff in E. lra.
Qed.

Lemma Qltb_false (a b : Q) : Qltb a b = false ↔ b <= a.
Proof.
  unfold Qltb. rewrite negb_false_iff. apply Qle_bool_iff.
Qed.

Lemma Qleb_true (a b : Q) : Qleb a b = true ↔ a <= b.
Proof. apply Qle_bool_iff. Qed.

Lemma Qleb_false (a b : Q) : Qleb a b = false ↔ b < a.
Proof.
  unfold Qleb. split.
  - intros H. apply Qnot_le_lt. intros Hle.
    apply Qle_bool_iff in Hle. congruence.
  - intros H. destruct (Qle_bool a b) eqn:E; [|done].
    apply Qle_bool_iff in E. lra.
Qed.

Lemma Qmin_cases (a b : Q) : (Qmin a b == a ∧ a <= b) ∨ (Qmin a b == b ∧ b <= a).
Proof.
  destruct (Q.min_spec a b) as [[H E]|[H E]]; [left|right]; split; try done; lra.
Qed.

Lemma Qmax_cases (a b : Q) : (Qmax a b == a ∧ b <= a) ∨ (Qmax a b == b ∧ a <= b).
Proof.
  destruct (Q.max_spec a b) as [[H E]|[H E]]; [right|left]; split; try done; lra.
Qed.

Lemma clamp01_bounds (x : Q) : 0 <= clamp01 x <= 1.
Proof.
  unfold clamp01.
  destruct (Qmax_cases 0 (Qmin 1 x)) as [[E ?]|[E ?]],
           (Qmin_cases 1 x) as [[E' ?]|[E' ?]]; lra.
Qed.

End NumFacts.

(* ===================================================================== *)
(** ** Double-precision numbers: the order *)
(* ===================================================================== *)

Module DoubleFacts.
Import Double.

Lemma compare_cont_spec (a b : positive) :
  CompareSpec (a = b) (a < b)%positive (b < a)%positive (Pos.compare_cont Eq a b).
Proof. exact (Pos.compare_spec a b). Qed.

(** Case analysis on every comparison of exponents or mantissas in sight. *)
Ltac order_cases :=
  repeat match goal with
         | H : context [(?a ?= ?b)%Z] |- _ => destruct (Z.compare_spec a b)
         | |- context [(?a ?= ?b)%Z] => destruct (Z.compare_spec a b)
         | H : context [Pos.compare_cont Eq ?a ?b] |- _ =>
             destruct (compare_cont_spec a b)
         | |- context [Pos.compare_cont Eq ?a ?b] =>
             destruct (compare_cont_spec a b)
         end;
  cbn in *; first [congruence | lia].

Lemma compare_antisym (x y : t) :
  SFcompare y x = option_map CompOpp (SFcompare x y).
Proof.
  destruct x as [[]|[]| |[] mx ex], y as [[]|[]| |[] my ey];
    try reflexivity; cbn; order_cases.
Qed.

Lemma compare_lt_trans (x y z : t) :
  SFcompare x y = Some Lt → SFcompare y z = Some Lt → SFcompare x z = Some Lt.
Proof.
  destruct x as [[]|[]| |[] mx ex], y as [[]|[]| |[] my ey],
           z as [[]|[]| |[] mz ez];
    cbn; try congruence; intros H1 H2; order_cases.
Qed.

Lemma compare_eq_lt_trans (x y z : t) :
  SFcompare x y = Some Eq → SFcompare y z = Some Lt → SFcompare x z = Some Lt.
Proof.
  destruct x as [[]|[]| |[] mx ex], y as [[]|[]| |[] my ey],
           z as [[]|[]| |[] mz ez];
    cbn; try congruence; intros H1 H2; order_cases.
Qed.

(** [a <= b] excludes [b < a]. *)
Lemma leb_not_ltb (a b : t) : leb a b = true → ltb b a = false.
Proof.
  unfold leb, ltb, SFleb, SFltb. rewrite (compare_antisym a b).
  by destruct (SFcompare a b) as [[]|].
Qed.

(** [a <= b] and [b < c] give [a < c]. *)
Lemma leb_ltb_trans (a b c : t) :
  leb a b = true → ltb b c = true → ltb a c = true.
Proof.
  unfold leb, ltb, SFleb, SFltb. intros H1 H2.
  destruct (SFcompare a b) as [[]|] eqn:E1; try done;
    destruct (SFcompare b c) as [[]|] eqn:E2; try done.
  - by rewrite (compare_eq_lt_trans a b c E1 E2).
  - by rewrite (compare_lt_trans a b c E1 E2).
Qed.

(** A value at most [b] is not above any [c] beyond [b]. *)
Lemma not_above (a b c : t) :
  leb a b = true → ltb b c = true → ltb c a = false.
Proof.
  intros H1 H2. apply leb_not_ltb.
  pose proof (leb_ltb_trans a b c H1 H2) as H.
  unfold leb, ltb, SFleb, SFltb in *. by destruct (SFcompare a c) as [[]|].
Qed.

(** No comparison holds of NaN. *)
Lemma ltb_NaN (a : t) : ltb a NaN = false ∧ leb NaN a = false.
Proof. by destruct a as [[]|[]| |[] m e]. Qed.

End DoubleFacts.

(* ===================================================================== *)
(** ** Emotional state store *)
(* ===================================================================== *)

Module SoulStateFacts.
Import JsString Num NumFacts SoulState.
Open Scope Q_scope.

Lemma new_bounded (name : string) (p : Personality) (now : Z) :
  bounded (new name p now).
Proof. unfold bounded, new; cbn. lra. Qed.

Lemma setEmotion_personality_traits emotion intensity now rnd (s : t) :
  volatility (personality (setEmotion emotion intensity now rnd s))
  = volatility (personality s).
Proof.
  unfold setEmotion. by destruct (resists s rnd).
Qed.

Lemma setEmotion_bounded emotion intensity now rnd (s : t) :
  0 <= volatility (personality s) →
  bounded s → bounded (setEmotion emotion intensity now rnd s).
Proof.
  intros Hvol [Hi Hf]. unfold setEmotion.
  destruct (resists s rnd); [by split|].
  split; cbn [emotionIntensity frustrationLevel].
  - apply clamp01_bounds.
  - set (gain := 0.2 * (0.5 + volatility (personality s) * 0.5)).
    assert (0 <= gain) by (unfold gain; lra).
    destruct (strIn _ ["angry"; "frustrated"; "annoyed"; "irritated"]).
    + destruct (Qmin_cases 1 (frustrationLevel s + gain)) as [[E ?]|[E ?]]; lra.
    + destruct (strIn _ ["happy"; "calm"; "grateful"]); [|done].
      destruct (Qmax_cases 0 (frustrationLevel s - 0.1)) as [[E ?]|[E ?]]; lra.
Qed.

Lemma addGrievance_bounded playerName reason now (s : t) :
  bounded s → bounded (addGrievance playerName reason now s).
Proof. by intros [? ?]. Qed.

Lemma decayEmotion_personality_traits now rnd (s : t) :
  volatility (personality (decayEmotion now rnd s)) = volatility (personality s).
Proof.
  unfold decayEmotion.
  destruct (60000 <? now - lastEmotionChange s)%Z; [|done].
  destruct (negb _ && _); [|done].
  destruct (Qleb _ _); [|done].
  by rewrite setEmotion_personality_traits.
Qed.

Lemma decayEmotion_bounded now rnd (s : t) :
  0 <= volatility (personality s) →
  bounded s → bounded (decayEmotion now rnd s).
Proof.
  intros Hvol [Hi Hf]. unfold decayEmotion.
  destruct (60000 <? now - lastEmotionChange s)%Z; [|by split].
  destruct (negb _ && _); [|by split].
  assert (Hb : bounded
    (withIntensity (Qmax 0.3 (emotionIntensity s - emotionDecayRate)) s)).
  { split; cbn; [|done]. unfold emotionDecayRate.
    destruct (Qmax_cases 0.3 (emotionIntensity s - 0.1)) as [[E ?]|[E ?]]; lra. }
  destruct (Qleb _ _); [|done].
  by apply setEmotion_bounded.
Qed.

Lemma step_personality_traits (s : t) (e : Event) :
  volatility (personality (step s e)) = volatility (personality s).
Proof.
  destruct e; cbn [step].
  - apply setEmotion_personality_traits.
  - done.
  - apply decayEmotion_personality_traits.
Qed.

Lemma step_bounded (s : t) (e : Event) :
  0 <= volatility (personality s) → bounded s → bounded (step s e).
Proof.
  intros Hvol Hb. destruct e; cbn [step].
  - by apply setEmotion_bounded.
  - by apply addGrievance_bounded.
  - by apply decayEmotion_bounded.
Qed.

Lemma run_bounded (evs : list Event) (s : t) :
  0 <= volatility (personality s) → bounded s → bounded (run s evs).
Proof.
  revert s. induction evs as [|e evs IH]; intros s Hvol Hb; [done|].
  cbn. apply IH.
  - by rewrite step_personality_traits.
  - by apply step_bounded.
Qed.

(** C6.  Starting from the state built by the constructor, after every
    prefix of every sequence of [setEmotion] (any emotion, any intensity),
    [addGrievance] and [decayEmotion] calls, the stored emotion intensity and
    frustration level lie in [0,1]; the agent's emotional volatility is
    assumed non-negative, as every configured trait is. *)
Theorem emotional_levels_stay_bounded
  (name : string) (p : Personality) (now : Z) (evs : list Event) (k : nat) :
  0 <= volatility p →
  bounded (run (new name p now) (take k evs)).
Proof.
  intros Hvol. apply run_bounded; [done|apply new_bounded].
Qed.

Lemma emotional_levels_stay_bounded_witness :
  bounded
    (run (new "Blaze" emptyPersonality 0)
       (take 3 [SetEmotion "angry" 7 10 0.9;
                AddGrievance "Steve" "attacked me" 11;
                DecayEmotion 90000 0.5;
                SetEmotion "happy" (-4) 90001 0.1])).
Proof.
  apply (emotional_levels_stay_bounded "Blaze" emptyPersonality 0).
  vm_compute. discriminate.
Defined.

Lemma effectiveEmotion_other (s : t) (e : string) :
  e ≠ "angry" → effectiveEmotion s e = e.
Proof.
  intros Hne. unfold effectiveEmotion.
  destruct (String.eqb_spec e "angry"); [done|done].
Qed.

Lemma resists_calm (s : t) (rnd : Q) :
  resists s rnd = true → emotion s = "calm".
Proof.
  unfold resists. rewrite !andb_true_iff. intros [[_ H] _].
  by apply String.eqb_eq.
Qed.

(** C8.  A request for ['angry'] made while the frustration level is below
    the anger threshold is applied as ['frustrated'] when frustration exceeds
    half the threshold and as ['annoyed'] otherwise; at or above the
    threshold ['angry'] itself is applied.  (A calm stoic agent may resist
    the change, in which case nothing is applied and the state is unchanged.)
    Whatever emotion is requested, ['angry'] is stored by [setEmotion] only
    when ['angry'] was requested and frustration has reached the threshold. *)
Theorem anger_is_throttled (s : t) (intensity : Q) (now : Z) (rnd : Q) :
  let thr := threshold (personality s) in
  let s' := setEmotion "angry" intensity now rnd s in
  (resists s rnd = true → s' = s) ∧
  (resists s rnd = false → frustrationLevel s < thr →
     thr * 0.5 < frustrationLevel s → emotion s' = "frustrated") ∧
  (resists s rnd = false → frustrationLevel s < thr →
     frustrationLevel s <= thr * 0.5 → emotion s' = "annoyed") ∧
  (resists s rnd = false → thr <= frustrationLevel s → emotion s' = "angry") ∧
  (∀ requested i, emotion (setEmotion requested i now rnd s) = "angry" →
     requested = "angry" ∧ thr <= frustrationLevel s).
Proof.
  cbn zeta. unfold setEmotion. repeat split.
  - by intros ->.
  - intros -> Hlt Hhalf. cbn [emotion]. unfold effectiveEmotion. cbn [String.eqb].
    apply Qltb_true in Hlt, Hhalf. cbn. by rewrite Hlt, Hhalf.
  - intros -> Hlt Hhalf. cbn [emotion]. unfold effectiveEmotion.
    apply Qltb_true in Hlt. apply Qltb_false in Hhalf. cbn. by rewrite Hlt, Hhalf.
  - intros -> Hge. cbn [emotion]. unfold effectiveEmotion.
    apply Qltb_false in Hge. cbn. by rewrite Hge.
  - destruct (resists s rnd) eqn:Hr.
    + apply resists_calm in Hr. congruence.
    + cbn [emotion] in H. unfold effectiveEmotion in H.
      destruct (String.eqb_spec requested "angry") as [->|Hne]; done.
  - destruct (resists s rnd) eqn:Hr.
    + apply resists_calm in Hr. congruence.
    + cbn [emotion] in H. unfold effectiveEmotion in H.
      destruct (String.eqb_spec requested "angry") as [->|Hne]; [|done].
      destruct (Qltb (frustrationLevel s) (threshold (personality s))) eqn:Hlt.
      * by destruct (Qltb _ (frustrationLevel s)).
      * by apply Qltb_false.
Qed.

(** An agent half-way to its anger threshold: the request for ['angry']
    is stored as ['annoyed'], then as ['frustrated'], then as ['angry']. *)
Lemma anger_is_throttled_witness :
  let s0 := new "Blaze" emptyPersonality 0 in
  let s1 := setEmotion "angry" 0.9 1 0.5 s0 in
  let s2 := setEmotion "angry" 0.9 2 0.5 s1 in
  let s3 := setEmotion "angry" 0.9 3 0.5 s2 in
  let s4 := setEmotion "angry" 0.9 4 0.5 s3 in
  emotion s1 = "annoyed" ∧ emotion s2 = "annoyed" ∧
  emotion s3 = "frustrated" ∧ emotion s4 = "frustrated" ∧
  emotion (setEmotion "angry" 0.9 5 0.5 s4) = "angry".
Proof.
  cbn zeta.
  set (s0 := new "Blaze" emptyPersonality 0).
  set (s1 := setEmotion "angry" 0.9 1 0.5 s0).
  set (s2 := setEmotion "angry" 0.9 2 0.5 s1).
  set (s3 := setEmotion "angry" 0.9 3 0.5 s2).
  set (s4 := setEmotion "angry" 0.9 4 0.5 s3).
  split; [|split; [|split; [|split]]].
  - apply (anger_is_throttled s0 0.9 1 0.5); vm_compute; done.
  - apply (anger_is_throttled s1 0.9 2 0.5); vm_compute; done.
  - apply (anger_is_throttled s2 0.9 3 0.5); vm_compute; done.
  - apply (anger_is_throttled s3 0.9 4 0.5); vm_compute; done.
  - apply (anger_is_throttled s4 0.9 5 0.5); vm_compute; done.
Defined.

(** *** The emotion log and the grievances *)

Lemma pushHistory_length (h : list EmotionChange) (c : EmotionChange) :
  (length h <= 10)%nat → (length (pushHistory h c) <= 10)%nat.
Proof.
  intros Hh. unfold pushHistory. cbv zeta.
  destruct (Nat.ltb_spec 10 (length (h ++ [c])%list)) as [Hlt|Hge]; [|done].
  rewrite List.length_app in Hlt. destruct h as [|x h]; cbn in *; [lia|].
  rewrite List.length_app. cbn. lia.
Qed.

Lemma pushHistory_last (h : list EmotionChange) (c : EmotionChange) :
  last (pushHistory h c) = Some c.
Proof.
  unfold pushHistory. cbv zeta.
  destruct (Nat.ltb_spec 10 (length (h ++ [c])%list)) as [Hlt|Hge].
  - rewrite List.length_app in Hlt.
    destruct h as [|x h]; cbn in *; [lia|]. apply last_snoc.
  - apply last_snoc.
Qed.

Lemma new_logged (name : string) (p : Personality) (now : Z) :
  logged (new name p now).
Proof. split; cbn; [lia|]. intros c Hc. discriminate. Qed.

Lemma setEmotion_logged emotion intensity now rnd (s : t) :
  logged s → logged (setEmotion emotion intensity now rnd s).
Proof.
  intros [Hlen Hlast]. unfold setEmotion.
  destruct (resists s rnd); [by split|].
  split; cbn.
  - by apply pushHistory_length.
  - intros c. rewrite pushHistory_last. intros [= <-]. by cbn.
Qed.

Lemma decayEmotion_logged now rnd (s : t) :
  logged s → logged (decayEmotion now rnd s).
Proof.
  intros Hs. unfold decayEmotion.
  destruct (_ <? _)%Z; [|done].
  destruct (_ && _); [|done].
  assert (Hw : ∀ i, logged (withIntensity i s)) by (intros i; exact Hs).
  destruct (Qleb _ _); [|apply Hw].
  apply setEmotion_logged, Hw.
Qed.

Lemma step_logged (s : t) (e : Event) : logged s → logged (step s e).
Proof.
  destruct e; cbn [step].
  - apply setEmotion_logged.
  - by intros Hs.
  - apply decayEmotion_logged.
Qed.

Lemma run_logged (evs : list Event) (s : t) : logged s → logged (run s evs).
Proof.
  revert s. induction evs as [|e evs IH]; intros s Hs; [done|].
  apply IH, step_logged, Hs.
Qed.

(** X1.  Whatever sequence of emotion changes, grievances and decays an
    agent goes through after its construction, its emotion history never
    holds more than ten entries, and the newest entry, when there is one,
    names the emotion the agent is in, which is also the emotion written
    back to its personality. *)
Theorem emotion_log_is_a_window_of_ten
  (name : string) (p : Personality) (now : Z) (evs : list Event) :
  let s := run (new name p now) evs in
  (length (emotionHistory s) <= 10)%nat ∧
  ∀ c, last (emotionHistory s) = Some c →
    changeTo c = emotion s ∧ currentEmotion (personality s) = Some (emotion s).
Proof. apply run_logged, new_logged. Qed.

Lemma findGrievance_add_same playerName reason now (gs : list Grievance) :
  ∃ g, findGrievance playerName (addGrievanceTo playerName reason now gs) = Some g ∧
       lastTime g = now ∧
       count g = S (match findGrievance playerName gs with
                    | Some g0 => count g0 | None => 0%nat end).
Proof.
  unfold findGrievance. induction gs as [|g gs IH]; cbn.
  - rewrite String.eqb_refl. by eexists.
  - destruct (String.eqb (player g) playerName) eqn:E; cbn.
    + rewrite E. by eexists.
    + rewrite E. exact IH.
Qed.

Lemma findGrievance_add_other playerName other reason now (gs : list Grievance) :
  other ≠ playerName →
  findGrievance other (addGrievanceTo playerName reason now gs) =
  findGrievance other gs.
Proof.
  intros Hne. unfold findGrievance. induction gs as [|g gs IH]; cbn.
  - destruct (String.eqb_spec playerName other); [congruence|done].
  - destruct (String.eqb_spec (player g) playerName) as [Hp|Hp]; cbn.
    + destruct (String.eqb_spec (player g) other); [congruence|done].
    + by rewrite IH.
Qed.

Lemma getFrustrationWith_bounds playerName now (s : t) :
  0 <= getFrustrationWith playerName now s <= 1.
Proof.
  unfold getFrustrationWith.
  destruct (findGrievance playerName (grievances s)) as [g|]; [|lra].
  cbn zeta.
  set (tf := Qmax 0 _).
  assert (Htf : 0 <= tf) by apply Q.le_max_l.
  assert (Hc : 0 <= inject_Z (Z.of_nat (count g))).
  { change 0 with (inject_Z 0). rewrite <- Zle_Qle. lia. }
  split; [|apply Q.le_min_l].
  apply Q.min_glb; [lra|]. apply Qmult_le_0_compat; [|done].
  apply Qmult_le_0_compat; [done|lra].
Qed.


Lemma grievance_window
  (playerName reason : string) (s : t) (t0 now : Z) :
  let s' := addGrievance playerName reason t0 s in
  hasGrievanceWith playerName now s' = (now - t0 <? 300000)%Z ∧
  grievanceCount playerName s' = S (grievanceCount playerName s) ∧
  0 <= getFrustrationWith playerName now s' <= 1 ∧
  (getFrustrationWith playerName now s' == 0 ↔ (300000 <= now - t0)%Z).
Proof.
  cbv zeta.
  destruct (findGrievance_add_same playerName reason t0 (grievances s))
    as (g & Hg & Htime & Hcount).
  split; [|split; [|split]].
  - unfold hasGrievanceWith. cbn [grievances addGrievance]. by rewrite Hg, Htime.
  - unfold grievanceCount. cbn [grievances addGrievance]. by rewrite Hg, Hcount.
  - apply getFrustrationWith_bounds.
  - unfold getFrustrationWith. cbn [grievances addGrievance]. rewrite Hg, Htime.
    cbv zeta.
    assert (Hc : 1 <= inject_Z (Z.of_nat (count g))).
    { change 1 with (inject_Z 1). rewrite <- Zle_Qle. lia. }
    set (n := inject_Z (Z.of_nat (count g))) in *.
    set (d := inject_Z (now - t0)).
    assert (Hd : 300000 <= d ↔ (300000 <= now - t0)%Z).
    { unfold d. change 300000 with (inject_Z 300000). by rewrite <- Zle_Qle. }
    rewrite <- Hd.
    destruct (Qmax_cases 0 (1 - d / 300000)) as [[Hm Hle]|[Hm Hle]];
      rewrite Hm.
    + assert (H0 : n * 0.2 * 0 == 0) by ring. rewrite H0.
      rewrite Q.min_r by lra. split; [intros _|reflexivity].
      assert (d / 300000 == d * (1 # 300000)) by (unfold Qdiv; reflexivity).
      lra.
    + assert (Hdiv : d / 300000 == d * (1 # 300000)) by (unfold Qdiv; reflexivity).
      destruct (Qmin_cases 1 (n * 0.2 * (1 - d / 300000))) as [[Hn Hle']|[Hn Hle']];
        rewrite Hn.
      * split; [lra|]. intros Hge.
        assert (1 - d / 300000 == 0) by lra. nra.
      * split; [|intros Hge; assert (Hz : 1 - d / 300000 == 0) by lra; rewrite Hz; ring].
        intros Hz. rewrite Hdiv in *.
        destruct (Qlt_le_dec d 300000) as [Hlt|Hge]; [|done]. nra.
Qed.

Lemma grievance_frame
  (playerName other reason : string) (s : t) (t0 now : Z) :
  other ≠ playerName →
  let s' := addGrievance playerName reason t0 s in
  hasGrievanceWith other now s' = hasGrievanceWith other now s ∧
  getFrustrationWith other now s' = getFrustrationWith other now s ∧
  grievanceCount other s' = grievanceCount other s.
Proof.
  intros Hne. cbv zeta.
  unfold hasGrievanceWith, getFrustrationWith, grievanceCount. cbn [grievances addGrievance].
  by rewrite (findGrievance_add_other _ _ _ _ _ Hne).
Qed.



(** X2.  Right after a grievance against a player is recorded at time
    [t0], the agent holds a grievance against that player exactly while
    fewer than 300000 ms have passed; the recorded count has grown by one;
    the frustration with the player lies in the unit interval and is zero
    exactly from 300000 ms on.  Nothing changes about the grievances held
    against any other player. *)
Theorem grievance_fades_after_five_minutes
  (playerName reason : string) (s : t) (t0 now : Z) :
  let s' := addGrievance playerName reason t0 s in
  hasGrievanceWith playerName now s' = (now - t0 <? 300000)%Z ∧
  grievanceCount playerName s' = S (grievanceCount playerName s) ∧
  0 <= getFrustrationWith playerName now s' <= 1 ∧
  (getFrustrationWith playerName now s' == 0 ↔ (300000 <= now - t0)%Z) ∧
  ∀ other, other ≠ playerName →
    hasGrievanceWith other now s' = hasGrievanceWith other now s ∧
    getFrustrationWith other now s' = getFrustrationWith other now s ∧
    grievanceCount other s' = grievanceCount other s.
Proof.
  cbv zeta.
  destruct (grievance_window playerName reason s t0 now) as (H1 & H2 & H3 & H4).
  repeat (split; [done|]).
  intros other Hne. by apply grievance_frame.
Qed.

End SoulStateFacts.

(* ===================================================================== *)
(** ** Cognitive engine *)
(* ===================================================================== *)

Module CognitiveEngineFacts.
Import JsString JsStringFacts Num NumFacts CognitiveEngine.
Open Scope Q_scope.

Lemma existsb_includes (s : string) (ps : list string) :
  existsb (includes s) ps = true ↔ ∃ p, p ∈ ps ∧ includes s p = true.
Proof.
  rewrite existsb_exists. split; intros [p [Hin Hp]]; exists p; split;
    try done; by apply list_elem_of_In.
Qed.

Lemma isFarewell_mentions (message : string) :
  isFarewell message = true ↔ mentionsAny message farewellPhrases.
Proof.
  unfold isFarewell, mentionsAny.
  rewrite existsb_includes_trim by reflexivity. apply existsb_includes.
Qed.

(** A message that contains a lower-case phrase as it is written also
    contains it ignoring case. *)
Lemma mentionsAny_literal (message p : string) (phrases : list string) :
  p ∈ phrases → toLowerCase p = p → includes message p = true →
  mentionsAny message phrases.
Proof.
  intros Hin Hlow Hp. exists p. split; [done|].
  rewrite <- Hlow. by apply includes_toLowerCase.
Qed.


Lemma isFarewell_false (message : string) :
  ¬ mentionsAny message farewellPhrases → isFarewell message = false.
Proof.
  intros Hno. destruct (isFarewell message) eqn:E; [|done].
  by apply isFarewell_mentions in E.
Qed.

(** A message shorter than 50 characters that contains an agreement phrase
    passes the acknowledgment test: trimming only shortens it. *)
Lemma isAcknowledgment_short (message : string) :
  (String.length message < 50)%nat →
  mentionsAny message agreementPhrases →
  isAcknowledgment message = true.
Proof.
  intros Hlen Hm. unfold isAcknowledgment. apply andb_true_iff. split.
  - apply Nat.ltb_lt.
    pose proof (trim_length (toLowerCase message)) as Ht.
    rewrite toLowerCase_length in Ht. lia.
  - rewrite existsb_includes_trim by reflexivity. by apply existsb_includes.
Qed.

Lemma backAndForthCount_empty (botName sender : string) :
  backAndForthCount botName sender "" = 0%nat.
Proof. reflexivity. Qed.

Lemma hasNewline_app (a b : string) :
  hasNewline (a +:+ b) = hasNewline a || hasNewline b.
Proof.
  induction a as [|c a IH]; [done|]. rewrite app_cons. cbn.
  by destruct (ascii_dec c (ascii_of_nat 10)).
Qed.

Lemma word_no_newline (w : string) : allWordChars w = true → hasNewline w = false.
Proof.
  induction w as [|c w IH]; [done|]. cbn. rewrite andb_true_iff.
  intros [Hc Hw]. destruct (ascii_dec c (ascii_of_nat 10)) as [->|]; [done|].
  by apply IH.
Qed.

Lemma contextLine_single (m : string * string) :
  singleLine m →
  hasNewline (contextLine m.1 m.2) = false
  ∧ truthy (trim (contextLine m.1 m.2)) = true
  ∧ matchSpeaker (contextLine m.1 m.2) = Some m.1.
Proof.
  intros [Hw Ht]. unfold contextLine. split; [|split].
  - rewrite !hasNewline_app, Ht.
    unfold isWord in Hw. apply andb_true_iff in Hw as [_ Hw].
    by rewrite (word_no_newline _ Hw).
  - by apply word_line_not_blank.
  - by apply matchSpeaker_line.
Qed.

(** The lines the engine reads back are the lines that were printed. *)
Lemma contextLines_printContext (msgs : list (string * string)) :
  Forall singleLine msgs →
  contextLines (printContext msgs) = map (λ m, contextLine m.1 m.2) msgs.
Proof.
  intros Hall. unfold contextLines, printContext.
  destruct msgs as [|m msgs]; [done|].
  rewrite splitLines_join.
  - apply forallb_filter_id, forallb_forall. intros l Hl.
    apply in_map_iff in Hl as (m' & <- & Hm').
    apply list_elem_of_In in Hm'.
    rewrite Forall_forall in Hall. by apply contextLine_single, Hall.
  - done.
  - apply Forall_forall. intros l Hl.
    apply list_elem_of_In, in_map_iff in Hl as (m' & <- & Hm').
    apply list_elem_of_In in Hm'.
    rewrite Forall_forall in Hall. by apply contextLine_single, Hall.
Qed.

Lemma fold_countTurn botName sender (msgs : list (string * string)) :
  ∀ (n : nat) (lastSpeaker : string),
    Forall singleLine msgs →
    (fold_left (countTurn botName sender)
       (map (λ m, contextLine m.1 m.2) msgs) (n, lastSpeaker)).1
    = (n + alternations botName sender lastSpeaker (map fst msgs))%nat.
Proof.
  induction msgs as [|m msgs IH]; intros n lastSpeaker Hall; [cbn; lia|].
  apply Forall_cons in Hall as [Hm Hall].
  destruct (contextLine_single m Hm) as (_ & _ & Hspeaker).
  cbn [map fold_left alternations]. unfold countTurn at 2. rewrite Hspeaker.
  rewrite (IH _ _ Hall).
  destruct (String.eqb m.1 botName && String.eqb lastSpeaker sender
            || String.eqb m.1 sender && String.eqb lastSpeaker botName); lia.
Qed.

(** On a printed context of at most eight single-line messages, the count
    of the engine is the number of alternations of the speakers. *)
Lemma backAndForthCount_printContext botName sender
  (msgs : list (string * string)) :
  Forall singleLine msgs → (length msgs ≤ 8)%nat →
  backAndForthCount botName sender (printContext msgs)
  = alternations botName sender "" (map fst msgs).
Proof.
  intros Hall Hlen. unfold backAndForthCount.
  rewrite (contextLines_printContext msgs Hall).
  rewrite lastN_all by (by rewrite length_map).
  by rewrite (fold_countTurn botName sender msgs 0%nat "" Hall).
Qed.

(** The first speaker never counts when both names are non-empty, so [n]
    lines hold at most [n - 1] alternations. *)
Lemma alternations_bound botName sender (speakers : list string) :
  ∀ lastSpeaker,
    (alternations botName sender lastSpeaker speakers ≤ length speakers)%nat.
Proof.
  induction speakers as [|s rest IH]; intros lastSpeaker; [done|].
  cbn [alternations length]. specialize (IH s).
  destruct (_ || _); lia.
Qed.

Lemma alternations_first botName sender (speakers : list string) :
  botName ≠ "" → sender ≠ "" →
  (alternations botName sender "" speakers ≤ length speakers - 1)%nat.
Proof.
  intros Hb Hs. destruct speakers as [|s rest]; [done|].
  cbn [alternations length].
  pose proof (alternations_bound botName sender rest s) as Hrest.
  replace (String.eqb "" sender) with false
    by (symmetry; apply String.eqb_neq; congruence).
  replace (String.eqb "" botName) with false
    by (symmetry; apply String.eqb_neq; congruence).
  rewrite !andb_false_r. cbn. lia.
Qed.



Lemma throttles_probabilistic rolls botName sender recentContext :
  let count := backAndForthCount botName sender recentContext in
  (2 ≤ count < 4)%nat →
  throttles rolls botName sender recentContext
  = Qltb (throttleRoll rolls) (skipChance count).
Proof.
  cbn zeta. intros [Hlo Hhi]. unfold throttles.
  destruct recentContext as [|a r].
  { rewrite backAndForthCount_empty in Hlo. lia. }
  cbn [truthy andb].
  replace (2 <=? _)%nat with true by (symmetry; apply Nat.leb_le; lia).
  replace (4 <=? _)%nat with false by (symmetry; apply Nat.leb_gt; lia).
  by rewrite orb_false_r.
Qed.

Lemma throttles_below_two rolls botName sender recentContext :
  (backAndForthCount botName sender recentContext < 2)%nat →
  throttles rolls botName sender recentContext = false.
Proof.
  intros Hc. unfold throttles.
  replace (2 <=? _)%nat with false by (symmetry; apply Nat.leb_gt; lia).
  by rewrite andb_false_r.
Qed.


Lemma shouldRespond_farewell oracle rolls botName botPersonality message
  sender recentContext otherBots personality :
  isFarewell message = true →
  let out := shouldRespond oracle rolls botName botPersonality message sender
               recentContext otherBots personality in
  Decision.shouldRespond out.1 = false
  ∧ Decision.reason out.1 = "farewell_detected"
  ∧ Decision.emotion out.1 = orStr (SoulState.currentEmotion personality) "calm"
  ∧ Decision.emotionInfluenced out.1 = false
  ∧ oracleCalls out.2 = 0%nat.
Proof. cbn zeta. unfold shouldRespond. by intros ->. Qed.

Lemma shouldRespond_acknowledgment oracle rolls botName botPersonality message
  sender recentContext otherBots personality :
  isFarewell message = false → isAcknowledgment message = true →
  let out := shouldRespond oracle rolls botName botPersonality message sender
               recentContext otherBots personality in
  Decision.shouldRespond out.1 = false
  ∧ Decision.reason out.1 = "acknowledgment"
  ∧ Decision.emotion out.1 = orStr (SoulState.currentEmotion personality) "calm"
  ∧ Decision.emotionInfluenced out.1 = false
  ∧ oracleCalls out.2 = 0%nat.
Proof. cbn zeta. unfold shouldRespond. by intros -> ->. Qed.






(** A reply of [null] is read as the reply ['skip']. *)
Lemma parseDecision_null : parseDecision None = "skip".
Proof. reflexivity. Qed.

Lemma oracleStage_null oracle rolls botName botPersonality message sender
  recentContext otherBots isExtroverted isIntroverted currentEmotion :
  oracle (buildPrompt botName botPersonality message sender recentContext
            otherBots isExtroverted isIntroverted) = None →
  oracleStage oracle rolls botName botPersonality message sender recentContext
    otherBots isExtroverted isIntroverted currentEmotion
  = oracleStage (λ _, Some "skip") rolls botName botPersonality message sender
      recentContext otherBots isExtroverted isIntroverted currentEmotion.
Proof.
  intros H. unfold oracleStage. rewrite H.
  change (parseDecision None) with "skip".
  change (parseDecision (Some "skip")) with "skip". done.
Qed.

Lemma shouldRespond_null rolls botName botPersonality message sender
  recentContext otherBots personality :
  shouldRespond (λ _, None) rolls botName botPersonality message sender
    recentContext otherBots personality
  = shouldRespond (λ _, Some "skip") rolls botName botPersonality message
      sender recentContext otherBots personality.
Proof.
  unfold shouldRespond.
  destruct (isFarewell message); [done|].
  destruct (isAcknowledgment message); [done|].
  destruct (throttles rolls botName sender recentContext); [done|].
  by apply oracleStage_null.
Qed.

(** After a reply read as ['skip'] only the two overrides can respond. *)
Lemma oracleStage_skip_reasons rolls botName botPersonality message sender
  recentContext otherBots isExtroverted isIntroverted currentEmotion :
  let out := oracleStage (λ _, Some "skip") rolls botName botPersonality
               message sender recentContext otherBots isExtroverted
               isIntroverted currentEmotion in
  (Decision.shouldRespond out.1 = true →
     Decision.reason out.1 = "provoked" ∨ Decision.reason out.1 = "enthusiastic")
  ∧ (Decision.shouldRespond out.1 = false → Decision.reason out.1 = "skip").
Proof.
  cbn zeta. unfold oracleStage.
  change (parseDecision (Some "skip")) with "skip".
  change (String.eqb "skip" "respond") with false.
  cbn [negb andb].
  destruct (strIn _ ["angry"; "frustrated"; "annoyed"; "irritated"] && _);
    [split; [by left|done]|].
  destruct (strIn _ ["happy"; "excited"; "playful"] && _ && _);
    [split; [by right|done]|].
  done.
Qed.

Lemma shouldRespond_skip_reasons rolls botName botPersonality message sender
  recentContext otherBots personality :
  let out := shouldRespond (λ _, Some "skip") rolls botName botPersonality
               message sender recentContext otherBots personality in
  Decision.shouldRespond out.1 = true →
  Decision.reason out.1 = "provoked" ∨ Decision.reason out.1 = "enthusiastic".
Proof.
  cbn zeta. unfold shouldRespond.
  destruct (isFarewell message); [done|].
  destruct (isAcknowledgment message); [done|].
  destruct (throttles rolls botName sender recentContext); [done|].
  apply oracleStage_skip_reasons.
Qed.

(** *** Reading the oracle's reply, and provocations *)

Lemma firstToken_prefix (s : string) : ∃ b, s = firstToken s +:+ b.
Proof.
  induction s as [|c s [b Hb]]; [by exists ""|].
  cbn [firstToken]. destruct (isDelimiter c).
  - by exists (String c s).
  - exists b. by rewrite app_cons, <- Hb.
Qed.

Lemma parseDecision_respond (result : option string) :
  parseDecision result = "respond" →
  includes (toLowerCase (orStr result "skip")) "respond" = true.
Proof.
  unfold parseDecision. cbv zeta.
  set (raw := trim (toLowerCase (orStr result "skip"))).
  intros H. apply includes_of_trim. fold raw.
  destruct (strIn (firstToken raw) ["respond"; "skip"; "wait"]) eqn:Hin.
  - apply includes_spec. exists "". destruct (firstToken_prefix raw) as [b Hb].
    exists b. rewrite H in Hb. by rewrite app_nil_l.
  - destruct (includes raw "respond"); [done|].
    by destruct (includes raw "skip").
Qed.


Lemma parseDecision_range (result : option string) :
  parseDecision result ∈ ["respond"; "skip"; "wait"].
Proof.
  unfold parseDecision. cbv zeta.
  set (raw := trim (toLowerCase (orStr result "skip"))).
  destruct (strIn (firstToken raw) ["respond"; "skip"; "wait"]) eqn:Hin.
  - by apply bool_decide_eq_true in Hin.
  - destruct (includes raw "respond"); [in_list|].
    destruct (includes raw "skip"); in_list.
Qed.

Lemma oracleStage_without_respond oracle rolls botName botPersonality message
  sender recentContext otherBots isExtroverted isIntroverted currentEmotion :
  (∀ prompt,
     includes (toLowerCase (orStr (oracle prompt) "skip")) "respond" = false) →
  let out := oracleStage oracle rolls botName botPersonality message sender
               recentContext otherBots isExtroverted isIntroverted
               currentEmotion in
  Decision.shouldRespond out.1 = true →
  Decision.reason out.1 = "provoked" ∨ Decision.reason out.1 = "enthusiastic".
Proof.
  intros Hno. cbn zeta. unfold oracleStage. cbv zeta.
  set (prompt := buildPrompt _ _ _ _ _ _ _ _).
  destruct (String.eqb_spec (parseDecision (oracle prompt)) "respond") as [Hr|Hr].
  { apply parseDecision_respond in Hr. by rewrite Hno in Hr. }
  cbn [negb andb].
  destruct (strIn _ ["angry"; "frustrated"; "annoyed"; "irritated"] && _);
    [by left|].
  destruct (strIn _ ["happy"; "excited"; "playful"] && _ && _);
    [by right|].
  done.
Qed.

(** X3.  Unless the oracle's reply contains the word respond (in any
    letter case), the engine decides to respond only through one of its two
    emotional overrides: a reply that is missing, empty or malformed is never
    a go-ahead by itself. *)
Theorem reply_without_respond_is_no_go_ahead oracle rolls botName
  botPersonality message sender recentContext otherBots personality :
  (∀ prompt,
     includes (toLowerCase (orStr (oracle prompt) "skip")) "respond" = false) →
  let out := shouldRespond oracle rolls botName botPersonality message sender
               recentContext otherBots personality in
  Decision.shouldRespond out.1 = true →
  Decision.reason out.1 = "provoked" ∨ Decision.reason out.1 = "enthusiastic".
Proof.
  intros Hno. cbn zeta. unfold shouldRespond.
  destruct (isFarewell message); [done|].
  destruct (isAcknowledgment message); [done|].
  destruct (throttles rolls botName sender recentContext); [done|].
  by apply oracleStage_without_respond.
Qed.

Lemma reply_without_respond_is_no_go_ahead_witness :
  let oracle : Oracle := λ _, Some "Hmm, maybe WAIT a little." in
  let out := shouldRespond oracle (mkRolls 0.5 0.1 0.5) "Blaze"
               "talkative" "that was awesome!" "Steve" "" []
               (SoulState.mkPersonality (Some 0.9) None None None [] (Some "happy")) in
  Decision.shouldRespond out.1 = true ∧
  (Decision.reason out.1 = "provoked" ∨ Decision.reason out.1 = "enthusiastic").
Proof.
  split; [reflexivity|].
  apply (reply_without_respond_is_no_go_ahead
           (λ _, Some "Hmm, maybe WAIT a little.") (mkRolls 0.5 0.1 0.5)).
  - intros prompt. reflexivity.
  - reflexivity.
Defined.

Lemma insult_emotion (message botName currentEmotion : string) :
  mentionsAny message ["stupid"; "useless"; "you suck"; "shut up"] →
  quickEmotionCheck message botName currentEmotion
    ∈ ["angry"; "annoyed"; "frustrated"].
Proof.
  intros (p & Hp & Hinc). unfold quickEmotionCheck. cbv zeta.
  set (m := toLowerCase message) in *.
  destruct (includes m "stupid") eqn:E1; cbn [orb]; [in_list|].
  destruct (includes m "idiot") eqn:E2; cbn [orb]; [in_list|].
  destruct (includes m "useless") eqn:E3; cbn [orb]; [in_list|].
  destruct (includes m "shut up") eqn:E4; cbn [orb]; [in_list|].
  destruct (includes m "be quiet" || includes m "stop talking"); [in_list|].
  destruct (includes m "you suck") eqn:E5; cbn [orb]; [in_list|].
  exfalso. set_unfold in Hp. destruct Hp as [->|[->|[->|[->|[]]]]]; congruence.
Qed.

Lemma insult_provokes (message botName : string) :
  mentionsAny message ["stupid"; "useless"; "you suck"; "shut up"] →
  let m := toLowerCase message in
  includes m (toLowerCase botName) || includes m "stupid" || includes m "useless"
  || includes m "you suck" || includes m "shut up" = true.
Proof.
  intros (p & Hp & Hinc). cbv zeta. set (m := toLowerCase message) in *.
  set_unfold in Hp.
  destruct Hp as [->|[->|[->|[->|[]]]]]; rewrite Hinc;
    rewrite ?orb_true_r; reflexivity.
Qed.

(** X4.  A message that contains stupid, useless, you suck or shut up (in
    any letter case) and gets past the farewell, acknowledgment and
    back-and-forth checks is always answered, whatever the oracle replies and
    whatever the random draws are; the oracle is still queried once, and the
    emotion reported is angry, annoyed or frustrated. *)
Theorem insult_is_always_answered oracle rolls botName botPersonality message
  sender recentContext otherBots personality :
  mentionsAny message ["stupid"; "useless"; "you suck"; "shut up"] →
  isFarewell message = false →
  isAcknowledgment message = false →
  throttles rolls botName sender recentContext = false →
  let out := shouldRespond oracle rolls botName botPersonality message sender
               recentContext otherBots personality in
  Decision.shouldRespond out.1 = true
  ∧ Decision.emotion out.1 ∈ ["angry"; "annoyed"; "frustrated"]
  ∧ oracleCalls out.2 = 1%nat.
Proof.
  intros Hins Hf Ha Ht. cbn zeta. unfold shouldRespond. rewrite Hf, Ha, Ht.
  cbv zeta. unfold oracleStage. cbv zeta.
  set (cur := orStr _ "calm").
  pose proof (insult_emotion message botName cur Hins) as Hemo.
  pose proof (insult_provokes message botName Hins) as Hprov.
  cbv zeta in Hprov. rewrite Hprov.
  set (emotion := quickEmotionCheck message botName cur) in *.
  assert (Hin : strIn emotion ["angry"; "frustrated"; "annoyed"; "irritated"] = true).
  { apply bool_decide_eq_true. set_unfold in Hemo. set_unfold. tauto. }
  assert (Hnot : strIn emotion ["happy"; "excited"; "playful"] = false).
  { apply bool_decide_eq_false. set_unfold in Hemo. set_unfold.
    intros [E|[E|[E|[]]]]; rewrite E in Hemo;
      destruct Hemo as [?|[?|[?|[]]]]; discriminate. }
  assert (Hbored : String.eqb emotion "bored" = false).
  { apply String.eqb_neq. intros E. rewrite E in Hemo. set_unfold in Hemo.
    destruct Hemo as [?|[?|[?|[]]]]; discriminate. }
  rewrite Hin, Hnot, Hbored. cbn [andb].
  destruct (String.eqb _ "respond"); cbn [negb andb]; by repeat split.
Qed.

Lemma insult_is_always_answered_witness :
  let out := shouldRespond (λ _, Some "skip") (mkRolls 0.5 0.5 0.5) "Blaze"
               "quiet" "You are USELESS at mining" "Steve" "" []
               SoulState.emptyPersonality in
  Decision.shouldRespond out.1 = true
  ∧ Decision.emotion out.1 ∈ ["angry"; "annoyed"; "frustrated"]
  ∧ oracleCalls out.2 = 1%nat.
Proof.
  apply (insult_is_always_answered (λ _, Some "skip") (mkRolls 0.5 0.5 0.5)
           "Blaze" "quiet" "You are USELESS at mining" "Steve" "" []
           SoulState.emptyPersonality).
  - exists "useless". split; [in_list|reflexivity].
  - reflexivity.
  - reflexivity.
  - reflexivity.
Defined.


(** *** The printed context read back *)

(** X5.  A recent context printed from single-line messages of
    word-named speakers is read back by the engine line for line, and the
    engine's back-and-forth count is the number of speaker alternations
    between the bot and the sender among the last eight messages. *)
Theorem printed_context_is_read_back (botName sender : string)
  (msgs : list (string * string)) :
  Forall singleLine msgs →
  contextLines (printContext msgs) = map (λ m, contextLine m.1 m.2) msgs ∧
  backAndForthCount botName sender (printContext msgs)
  = alternations botName sender "" (map fst (lastN 8 msgs)).
Proof.
  intros Hall. split; [by apply contextLines_printContext|].
  unfold backAndForthCount.
  rewrite (contextLines_printContext msgs Hall), lastN_map.
  rewrite fold_countTurn by (unfold lastN; by apply Forall_drop).
  done.
Qed.

Lemma printed_context_is_read_back_witness :
  let msgs := [("Steve", "hi Blaze"); ("Blaze", "hello: how are you?");
               ("Alex", "look at this"); ("Steve", "nice"); ("Blaze", "ok")] in
  contextLines (printContext msgs) = map (λ m, contextLine m.1 m.2) msgs ∧
  backAndForthCount "Blaze" "Steve" (printContext msgs)
  = alternations "Blaze" "Steve" "" (map fst (lastN 8 msgs)).
Proof.
  apply (printed_context_is_read_back "Blaze" "Steve"
           [("Steve", "hi Blaze"); ("Blaze", "hello: how are you?");
            ("Alex", "look at this"); ("Steve", "nice"); ("Blaze", "ok")]).
  repeat constructor.
Defined.

Lemma skipChance_le (count : nat) : skipChance count <= 0.95.
Proof. unfold skipChance. apply Q.le_min_l. Qed.

Lemma throttles_high_roll rolls botName sender recentContext :
  (backAndForthCount botName sender recentContext < 4)%nat →
  0.95 <= throttleRoll rolls →
  throttles rolls botName sender recentContext = false.
Proof.
  intros Hc Hroll.
  destruct (Nat.lt_ge_cases (backAndForthCount botName sender recentContext) 2)
    as [Hlt|Hge].
  { by apply throttles_below_two. }
  rewrite throttles_probabilistic by lia.
  apply Qltb_false. pose proof (skipChance_le (backAndForthCount botName sender recentContext)).
  lra.
Qed.




End CognitiveEngineFacts.

(* ===================================================================== *)
(** ** Conversation coordinator *)
(* ===================================================================== *)

Module ConversationCoordinatorFacts.
Import JsString JsStringFacts Num NumFacts.
Import SoulStateFacts CognitiveEngineFacts ConversationCoordinator.
Open Scope Q_scope.

Lemma getState_lookup botName personality now mgr :
  states (getState botName personality now mgr).2 !! botName
  = Some (getState botName personality now mgr).1.
Proof.
  unfold getState. destruct (states mgr !! botName) eqn:E; cbn; [done|].
  apply lookup_insert_eq.
Qed.

Lemma getState_again botName p1 p2 now1 now2 mgr :
  getState botName p2 now2 (getState botName p1 now1 mgr).2
  = getState botName p1 now1 mgr.
Proof.
  pose proof (getState_lookup botName p1 now1 mgr) as H.
  destruct (getState botName p1 now1 mgr) as [st mgr'] eqn:E. cbn in *.
  unfold getState at 1. by rewrite H.
Qed.

Lemma findMentionedOther_none botNameLower msgLower otherBots :
  Forall (λ other, includes msgLower (toLowerCase other) = false) otherBots →
  findMentionedOther botNameLower msgLower otherBots = None.
Proof.
  unfold findMentionedOther. induction 1 as [|other rest Hother _ IH]; [done|].
  cbn. by rewrite Hother, andb_false_r.
Qed.

Lemma setEmotion_responseDelay emotion intensity now rnd (s : SoulState.t) :
  baseDelay (SoulState.setEmotion emotion intensity now rnd s) = baseDelay s.
Proof.
  unfold SoulState.setEmotion, baseDelay.
  by destruct (SoulState.resists s rnd).
Qed.

(** The emotion stored by a request for ['attentive']. *)
Lemma setEmotion_attentive now rnd (s : SoulState.t) :
  let s' := SoulState.setEmotion "attentive" 0.7 now rnd s in
  (SoulState.resists s rnd = false → SoulState.emotion s' = "attentive")
  ∧ (SoulState.resists s rnd = true → s' = s ∧ SoulState.emotion s' = "calm").
Proof.
  cbn zeta. unfold SoulState.setEmotion. split.
  - by intros ->.
  - intros Hr. rewrite Hr. split; [done|]. by apply (resists_calm s rnd).
Qed.

Lemma fast_multiplier (s : SoulState.t) :
  SoulState.emotion s = "attentive" ∨ SoulState.emotion s = "calm" →
  delayMultiplier s Fast = 0.5.
Proof. unfold delayMultiplier. by intros [-> | ->]. Qed.

(** The delay lies in the base band scaled by the multiplier. *)
Lemma scaled_delay_bounds (rnd lo hi m : Q) :
  0 <= rnd → rnd < 1 → lo <= hi → 0 <= m →
  let d := Qfloor (rnd * (hi * m - lo * m) + lo * m) in
  lo * m - 1 < inject_Z d ∧ inject_Z d <= hi * m.
Proof.
  intros Hr0 Hr1 Hlh Hm. cbn zeta.
  set (x := rnd * (hi * m - lo * m) + lo * m).
  assert (Hw : 0 <= hi * m - lo * m) by nra.
  assert (Hx : lo * m <= x ∧ x <= hi * m) by (unfold x; split; nra).
  pose proof (Qfloor_le x) as Hfl.
  pose proof (Qlt_floor x) as Hlt.
  rewrite inject_Z_plus in Hlt. change (inject_Z 1) with 1 in Hlt.
  split; lra.
Qed.

(** *** The temperament of the registered agents *)

Lemma setEmotion_volatility emotion intensity now rnd (s : SoulState.t) :
  SoulState.emotionalVolatility
    (SoulState.personality (SoulState.setEmotion emotion intensity now rnd s))
  = SoulState.emotionalVolatility (SoulState.personality s).
Proof. unfold SoulState.setEmotion. by destruct (SoulState.resists s rnd). Qed.

(** With the default volatility the change resistance is one half, which
    is not above one half: the stoic roll never takes place. *)
Lemma unset_never_resists (s : SoulState.t) (rnd : Q) :
  SoulState.emotionalVolatility (SoulState.personality s) = None →
  SoulState.resists s rnd = false.
Proof. unfold SoulState.resists, SoulState.volatility. by intros ->. Qed.

Lemma getState_unset botName personality now (mgr : SoulStateManager) :
  SoulState.emotionalVolatility personality = None →
  unsetIn mgr →
  SoulState.emotionalVolatility
    (SoulState.personality (getState botName personality now mgr).1) = None
  ∧ unsetIn (getState botName personality now mgr).2.
Proof.
  intros Hp Hmgr. unfold getState.
  destruct (states mgr !! botName) as [st|] eqn:E; cbn [fst snd].
  - split; [by apply (Hmgr botName)|done].
  - split; [done|]. intros name s. cbn [states].
    destruct (decide (name = botName)) as [->|Hne].
    + rewrite lookup_insert_eq. by intros [= <-].
    + rewrite lookup_insert_ne by done. apply Hmgr.
Qed.

Lemma putState_unset botName (st : SoulState.t) (mgr : SoulStateManager) :
  SoulState.emotionalVolatility (SoulState.personality st) = None →
  unsetIn mgr → unsetIn (putState botName st mgr).
Proof.
  intros Hst Hmgr name s. unfold putState. cbn [states].
  destruct (decide (name = botName)) as [->|Hne].
  - rewrite lookup_insert_eq. by intros [= <-].
  - rewrite lookup_insert_ne by done. apply Hmgr.
Qed.

Lemma recordMessage_unset sender message isBot now (c : t) :
  temperamentUnset c → temperamentUnset (recordMessage sender message isBot now c).
Proof. done. Qed.

Lemma simpleFallback_unset env botName username message otherBots (c : t) :
  temperamentUnset c →
  temperamentUnset (simpleFallback env botName username message otherBots c).2.
Proof.
  intros Hc. unfold simpleFallback.
  destruct (getState_unset botName SoulState.emptyPersonality (now env) (souls c)
              eq_refl Hc) as [_ Hmgr].
  destruct (getState _ _ _ _) as [state mgr]. cbn [fst snd] in *.
  by repeat match goal with |- context [if ?b then _ else _] => destruct b end.
Qed.

Lemma engineBranch_unset env oracle botName username message otherBots
  (state : SoulState.t) (c : t) :
  SoulState.emotionalVolatility (SoulState.personality state) = None →
  temperamentUnset c →
  temperamentUnset
    (engineBranch env oracle botName username message otherBots state c).1.2.
Proof.
  intros Hstate Hc. unfold engineBranch.
  destruct (CognitiveEngine.shouldRespond _ _ _ _ _ _ _ _ _) as [d trace].
  set (st1 := SoulState.setEmotion _ _ _ _ state).
  set (st2 := if strIn _ _ then _ else st1).
  assert (H2 : SoulState.emotionalVolatility (SoulState.personality st2) = None).
  { unfold st2. destruct (strIn _ _); cbn [SoulState.addGrievance SoulState.personality];
      unfold st1; by rewrite setEmotion_volatility. }
  destruct (CognitiveEngine.Decision.shouldRespond d); cbn [fst snd];
    by apply putState_unset.
Qed.

Lemma shouldRespond_unset env botName username message otherBots (c : t) :
  temperamentUnset c →
  temperamentUnset (shouldRespond env botName username message otherBots c).1.2.
Proof.
  intros Hc. unfold shouldRespond.
  destruct (getState_unset botName SoulState.emptyPersonality (now env) (souls c)
              eq_refl Hc) as [Hstate Hmgr].
  destruct (getState _ _ _ _) as [state mgr]. cbn [fst snd] in *.
  destruct (includes _ _).
  - cbn [fst snd]. apply putState_unset; [|done].
    by rewrite setEmotion_volatility.
  - destruct (findMentionedOther _ _ _) as [[|a other]|].
    + destruct (engine env) as [oracle|].
      * by apply engineBranch_unset.
      * pose proof (simpleFallback_unset env botName username message otherBots
                      (withSouls c mgr) Hmgr) as Hf.
        by destruct (simpleFallback _ _ _ _ _ _) as [r c'].
    + done.
    + destruct (engine env) as [oracle|].
      * by apply engineBranch_unset.
      * pose proof (simpleFallback_unset env botName username message otherBots
                      (withSouls c mgr) Hmgr) as Hf.
        by destruct (simpleFallback _ _ _ _ _ _) as [r c'].
Qed.

Lemma call_unset (c : t) (k : Call) :
  temperamentUnset c → temperamentUnset (call c k).
Proof.
  intros Hc. destruct k as [name profile now|sender message isBot now
                           |env botName username message otherBots
                           |botName username message now
                           |botName now
                           |botName attackerName now rnd]; cbn [call].
  - by apply (getState_unset name (agentPersonality profile) now (souls c)).
  - done.
  - by apply shouldRespond_unset.
  - unfold recordResponse. cbn [souls].
    destruct (getState_unset botName SoulState.emptyPersonality now (souls c)
                eq_refl Hc) as [_ Hmgr].
    by destruct (getState _ _ _ _) as [state mgr].
  - by apply (getState_unset botName SoulState.emptyPersonality now (souls c)).
  - destruct (getState_unset botName SoulState.emptyPersonality now (souls c)
                eq_refl Hc) as [Hstate Hmgr].
    destruct (getState _ _ _ _) as [state mgr]. cbn [fst snd] in *.
    apply putState_unset; [|done].
    cbn [SoulState.addGrievance SoulState.personality].
    by rewrite setEmotion_volatility.
Qed.

(** Whatever the agents have done so far, no soul state has a volatility
    of its own. *)
Lemma calls_leave_temperament_unset (ks : list Call) :
  temperamentUnset (fold_left call ks initial).
Proof.
  induction ks as [|k ks IH] using rev_ind.
  - intros name s. cbn. by rewrite lookup_empty.
  - rewrite fold_left_app. by apply call_unset.
Qed.

(** C2 (amended).  In every state that the agents' calls can bring the
    coordinator to, a message whose lower-cased text contains the
    lower-cased name of the recipient is answered: [shouldRespond = true]
    with reason [directly_mentioned], no further check and no oracle query,
    whatever else the message contains (a farewell, an acknowledgment, the
    name of another agent).  The delay is drawn with the fast multiplier
    0.5, so it lies in the agent's base band scaled by one half.  The
    emotion ['attentive'] is set on the agent's soul state, of which it is
    the emotion afterwards; the returned object carries no emotion. *)
Theorem self_mention_forces_response (ks : list Call) env botName username
  message otherBots :
  includes (toLowerCase message) (toLowerCase botName) = true →
  let c := fold_left call ks initial in
  let before :=
    (getState botName SoulState.emptyPersonality (now env) (souls c)).1 in
  let lo := (baseDelay before).1 in
  let hi := (baseDelay before).2 in
  let out := shouldRespond env botName username message otherBots c in
  Result.shouldRespond out.1.1 = true
  ∧ Result.reason out.1.1 = "directly_mentioned"
  ∧ out.2 = []
  ∧ Result.delay out.1.1
    = Qfloor (delayRoll env * (hi * 0.5 - lo * 0.5) + lo * 0.5)
  ∧ (0 <= delayRoll env → delayRoll env < 1 → lo <= hi →
     lo * 0.5 - 1 < inject_Z (Result.delay out.1.1)
     ∧ inject_Z (Result.delay out.1.1) <= hi * 0.5)
  ∧ Result.emotion out.1.1 = None
  ∧ SoulState.emotion <$> states (souls out.1.2) !! botName = Some "attentive"
  ∧ states (souls out.1.2) !! botName
    = Some (SoulState.setEmotion "attentive" 0.7 (now env) (emotionRoll env)
              before).
Proof.
  intros Hmention. cbn zeta.
  pose proof (calls_leave_temperament_unset ks) as Hc.
  set (c := fold_left call ks initial) in *.
  destruct (getState_unset botName SoulState.emptyPersonality (now env) (souls c)
              eq_refl Hc) as [Hbefore _].
  unfold shouldRespond.
  destruct (getState botName SoulState.emptyPersonality (now env) (souls c))
    as [before mgr] eqn:Hget.
  rewrite Hmention.
  cbn [fst snd Result.shouldRespond Result.reason Result.delay Result.emotion]
    in *.
  pose proof (unset_never_resists before (emotionRoll env) Hbefore) as Hroll.
  pose proof (setEmotion_attentive (now env) (emotionRoll env) before) as [Hno _].
  specialize (Hno Hroll).
  set (after := SoulState.setEmotion "attentive" 0.7 (now env) (emotionRoll env)
                  before) in *.
  assert (Hdelay : getBaseDelay after Fast (delayRoll env)
    = Qfloor (delayRoll env * ((baseDelay before).2 * 0.5 - (baseDelay before).1 * 0.5)
              + (baseDelay before).1 * 0.5)).
  { unfold getBaseDelay. rewrite fast_multiplier by (by left).
    unfold after. by rewrite setEmotion_responseDelay. }
  assert (Hstored : states (souls (withSouls (withSouls c mgr)
                                     (putState botName after (souls (withSouls c mgr)))))
                    !! botName = Some after).
  { cbn. apply lookup_insert_eq. }
  split; [done|]. split; [done|]. split; [done|]. split; [exact Hdelay|].
  split; [|split; [done|split; [|exact Hstored]]].
  - intros Hr0 Hr1 Hlh. rewrite Hdelay. apply scaled_delay_bounds; first [done|lra].
  - rewrite Hstored. cbn. by rewrite Hno.
Qed.

(** A bot registered by its agent, spoken to once and hurt once, is then
    greeted and dismissed in one message. *)
Lemma self_mention_forces_response_witness :
  let env := mkEnv (Some (λ _, Some "skip")) 100000 0.2 0.5
               (CognitiveEngine.mkRolls 0.97 0.99 0.99) 0.9 in
  let ks := [RegisterBot "Blaze"
               (SoulState.mkPersonality (Some 0.9) (Some 0.1) None None [] None) 0;
             RecordIncomingMessage "Steve" "hello there" false 10;
             Hurt "Blaze" "Steve" 20 0.1] in
  let out := shouldRespond env "Blaze" "Steve" "Hey Blaze, bye!" ["Alex"]
               (fold_left call ks initial) in
  Result.shouldRespond out.1.1 = true
  ∧ Result.reason out.1.1 = "directly_mentioned"
  ∧ out.2 = []
  ∧ Result.emotion out.1.1 = None
  ∧ SoulState.emotion <$> states (souls out.1.2) !! "Blaze" = Some "attentive".
Proof.
  cbn zeta.
  match goal with
  | |- context [shouldRespond ?e ?b ?u ?m ?o (fold_left call ?ks initial)] =>
      destruct (self_mention_forces_response ks e b u m o)
        as (H1 & H2 & H3 & _ & _ & H6 & H7 & _)
  end; [reflexivity|].
  exact (conj H1 (conj H2 (conj H3 (conj H6 H7)))).
Defined.

(** The answer to a self-mention carries no emotion: the object returned
    for ["Hey Blaze, bye!"] has the fields [shouldRespond], [delay] and
    [reason] only, while the soul state of the agent has become
    attentive. *)
Lemma self_mention_returns_no_emotion :
  let env := mkEnv (Some (λ _, Some "skip")) 100000 0.2 0.5
               (CognitiveEngine.mkRolls 0.97 0.99 0.99) 0.9 in
  let c := fold_left call
             [RegisterBot "Blaze" SoulState.emptyPersonality 0] initial in
  let out := shouldRespond env "Blaze" "Steve" "Hey Blaze, bye!" [] c in
  out.1.1 = Result.mk true 1375 "directly_mentioned" None
  ∧ Result.emotion out.1.1 ≠ Some "attentive"
  ∧ SoulState.emotion <$> states (souls out.1.2) !! "Blaze" = Some "attentive".
Proof. vm_compute. repeat split; discriminate. Qed.

Lemma engineBranch_result env oracle botName username message otherBots
  (state : SoulState.t) (c : t) :
  let engineOut :=
    CognitiveEngine.shouldRespond oracle (engineRolls env) botName
      (getPersonalityBrief (SoulState.personality state)) message username
      (getRecentContext 4 (souls c))
      (List.filter (λ b, negb (String.eqb b botName)) otherBots)
      (SoulState.personality state) in
  let out := engineBranch env oracle botName username message otherBots state c in
  Result.shouldRespond out.1.1 = CognitiveEngine.Decision.shouldRespond engineOut.1
  ∧ Result.reason out.1.1 = CognitiveEngine.Decision.reason engineOut.1
  ∧ Result.emotion out.1.1 = Some (CognitiveEngine.Decision.emotion engineOut.1)
  ∧ out.2 = engineOut.2.
Proof.
  cbn zeta. unfold engineBranch.
  destruct (CognitiveEngine.shouldRespond _ _ _ _ _ _ _ _ _) as [d trace].
  cbn [fst snd]. by destruct (CognitiveEngine.Decision.shouldRespond d).
Qed.

(** Without a self-mention and without the name of another agent, the
    decision is the engine's when the engine can be called. *)
Lemma shouldRespond_engine env oracle botName username message otherBots c :
  engine env = Some oracle →
  includes (toLowerCase message) (toLowerCase botName) = false →
  Forall (λ other, includes (toLowerCase message) (toLowerCase other) = false)
    otherBots →
  shouldRespond env botName username message otherBots c
  = engineBranch env oracle botName username message otherBots
      (getState botName SoulState.emptyPersonality (now env) (souls c)).1
      (withSouls c
         (getState botName SoulState.emptyPersonality (now env) (souls c)).2).
Proof.
  intros Heng Hself Hothers. unfold shouldRespond.
  destruct (getState _ _ _ _) as [state mgr]. rewrite Hself.
  rewrite (findMentionedOther_none _ _ _ Hothers). by rewrite Heng.
Qed.

(** ... and the heuristic's when the engine cannot be called. *)
Lemma shouldRespond_fallback env botName username message otherBots c :
  engine env = None →
  includes (toLowerCase message) (toLowerCase botName) = false →
  Forall (λ other, includes (toLowerCase message) (toLowerCase other) = false)
    otherBots →
  (shouldRespond env botName username message otherBots c).1.1
  = (simpleFallback env botName username message otherBots c).1
  ∧ (shouldRespond env botName username message otherBots c).2 = [].
Proof.
  intros Heng Hself Hothers. unfold shouldRespond.
  destruct (getState botName SoulState.emptyPersonality (now env) (souls c))
    as [state mgr] eqn:Hget.
  rewrite Hself, (findMentionedOther_none _ _ _ Hothers), Heng.
  assert (Hfb : (simpleFallback env botName username message otherBots
                   (withSouls c mgr)).1
                = (simpleFallback env botName username message otherBots c).1).
  { unfold simpleFallback. cbn [souls withSouls].
    replace mgr with
      (getState botName SoulState.emptyPersonality (now env) (souls c)).2
      by (by rewrite Hget).
    rewrite getState_again, Hget. cbn [lastResponse withSouls].
    repeat match goal with |- context [if ?b then _ else _] => destruct b end;
      done. }
  destruct (simpleFallback env botName username message otherBots
              (withSouls c mgr)) as [r c'] eqn:Hsf.
  cbn [fst snd] in *. by rewrite <- Hfb.
Qed.

Lemma slow_not_shorter_than_normal (state : SoulState.t) (rnd : Q) :
  0 <= rnd → 0 <= (baseDelay state).1 → (baseDelay state).1 <= (baseDelay state).2 →
  (getBaseDelay state Normal rnd ≤ getBaseDelay state Slow rnd)%Z.
Proof.
  intros Hr Hlo Hlh. unfold getBaseDelay, delayMultiplier.
  set (lo := (baseDelay state).1) in *. set (hi := (baseDelay state).2) in *.
  assert (Hw : 0 <= rnd * (hi - lo)) by nra.
  apply Qfloor_resp_le. cbn [urgencyMultiplier].
  destruct (String.eqb _ "excited"), (String.eqb _ "cautious"),
    (String.eqb _ "bored"); nra.
Qed.

(** The question that the oracle's failure leaves unanswered. *)
Lemma question_unanswered_on_oracle_failure :
  let env := mkEnv (Some (λ _, None)) 100000 0.2 0.5
               (CognitiveEngine.mkRolls 0.97 0.99 0.99) 0.1 in
  let out := shouldRespond env "Blaze" "Steve" "how are you?" [] initial in
  includes "how are you?" "?" = true
  ∧ Result.shouldRespond out.1.1 = false
  ∧ Result.reason out.1.1 = "skip"
  ∧ CognitiveEngine.oracleCalls out.2 = 1%nat.
Proof. vm_compute. done. Qed.

(** C1 (amended).  When the oracle's query returns [null] the engine reads
    the reply as ['skip']: the whole decision equals the one for the reply
    ['skip'], so a response is decided only by a self-mention or by the
    provoked or the enthusiastic override.  The question-mark heuristic runs
    only when the engine itself cannot be called (and the message names
    neither the recipient nor another agent): unless another agent responded
    less than five seconds ago, a message containing a question mark is
    answered with the normal delay, any other message exactly when the draw
    is below 0.2, with the slow delay, which is never shorter than the
    normal one for the same draw. *)
Theorem oracle_failure_is_read_as_skip env botName username message otherBots c :
  let state :=
    (getState botName SoulState.emptyPersonality (now env) (souls c)).1 in
  let outNull :=
    shouldRespond (withEngine env (Some (λ _, None))) botName username message
      otherBots c in
  let outSkip :=
    shouldRespond (withEngine env (Some (λ _, Some "skip"))) botName username
      message otherBots c in
  let outThrown :=
    shouldRespond (withEngine env None) botName username message otherBots c in
  let someoneResponded :=
    (now env - timestamp (lastResponse c) <? 5000)%Z
    && negb (bool_decide (responder (lastResponse c) = Some botName)) in
  outNull = outSkip
  ∧ (Result.shouldRespond outNull.1.1 = true →
     Result.reason outNull.1.1 = "directly_mentioned"
     ∨ Result.reason outNull.1.1 = "provoked"
     ∨ Result.reason outNull.1.1 = "enthusiastic")
  ∧ (includes (toLowerCase message) (toLowerCase botName) = false →
     Forall (λ other, includes (toLowerCase message) (toLowerCase other) = false)
       otherBots →
     outThrown.2 = []
     ∧ outThrown.1.1 =
         if someoneResponded
         then Result.mk false 0 "someone_responded" None
         else if includes message "?"
         then Result.mk true (getBaseDelay state Normal (delayRoll env))
                "question" None
         else if Qltb (fallbackRoll env) 0.2
         then Result.mk true (getBaseDelay state Slow (delayRoll env))
                "random" None
         else Result.mk false 0 "skipped" None)
  ∧ (0 <= delayRoll env → 0 <= (baseDelay state).1 →
     (baseDelay state).1 <= (baseDelay state).2 →
     (getBaseDelay state Normal (delayRoll env)
      ≤ getBaseDelay state Slow (delayRoll env))%Z).
Proof.
  cbn zeta.
  assert (Heq : shouldRespond (withEngine env (Some (λ _, None))) botName
                  username message otherBots c
                = shouldRespond (withEngine env (Some (λ _, Some "skip")))
                    botName username message otherBots c).
  { unfold shouldRespond. cbn [now withEngine engine].
    destruct (getState _ _ _ _) as [state mgr].
    destruct (includes _ _); [done|].
    destruct (findMentionedOther _ _ _) as [[|? ?]|]; try done;
      unfold engineBranch; cbn [engineRolls withEngine];
      by rewrite shouldRespond_null. }
  split; [exact Heq|]. split; [|split].
  - rewrite Heq. unfold shouldRespond. cbn [now withEngine engine].
    destruct (getState _ _ _ _) as [state mgr].
    destruct (includes _ _); [by left|].
    assert (Hbranch : ∀ c0,
      Result.shouldRespond
        (engineBranch (withEngine env (Some (λ _, Some "skip")))
           (λ _, Some "skip") botName username message otherBots state c0).1.1
      = true →
      Result.reason
        (engineBranch (withEngine env (Some (λ _, Some "skip")))
           (λ _, Some "skip") botName username message otherBots state c0).1.1
      = "directly_mentioned"
      ∨ Result.reason
          (engineBranch (withEngine env (Some (λ _, Some "skip")))
             (λ _, Some "skip") botName username message otherBots state c0).1.1
        = "provoked"
      ∨ Result.reason
          (engineBranch (withEngine env (Some (λ _, Some "skip")))
             (λ _, Some "skip") botName username message otherBots state c0).1.1
        = "enthusiastic").
    { intros c0.
      pose proof (engineBranch_result (withEngine env (Some (λ _, Some "skip")))
                    (λ _, Some "skip") botName username message otherBots
                    state c0) as (Hs & Hr & _ & _).
      rewrite Hs, Hr. intros Htrue. right.
      by apply shouldRespond_skip_reasons. }
    destruct (findMentionedOther _ _ _) as [[|? ?]|]; try done; apply Hbranch.
  - intros Hself Hothers.
    pose proof (shouldRespond_fallback (withEngine env None) botName username
                  message otherBots c eq_refl Hself Hothers) as [Hr Ht].
    split; [exact Ht|]. rewrite Hr. unfold simpleFallback.
    cbn [now withEngine delayRoll fallbackRoll].
    destruct (getState _ _ _ _) as [state mgr]. cbn [fst lastResponse withSouls].
    repeat match goal with |- context [if ?b then _ else _] => destruct b end;
      done.
  - apply slow_not_shorter_than_normal.
Qed.

Lemma oracle_failure_is_read_as_skip_witness :
  let env := mkEnv None 100000 0.2 0.5
               (CognitiveEngine.mkRolls 0.97 0.99 0.99) 0.1 in
  (shouldRespond (withEngine env None) "Blaze" "Steve" "nice day" [] initial).1.1
  = Result.mk true 5250 "random" None.
Proof.
  cbn zeta.
  match goal with
  | |- context [shouldRespond (withEngine ?e None) ?b ?u ?m ?o ?c] =>
      destruct (oracle_failure_is_read_as_skip e b u m o c) as (_ & _ & H & _)
  end.
  destruct H as [_ H]; [reflexivity|constructor|].
  rewrite H. reflexivity.
Defined.

(** C9 (amended).  For a message that contains neither the recipient's own
    name nor the name of another known agent, and when the cognitive engine
    can be called: if the message contains a farewell phrase the decision is
    [shouldRespond = false] with reason [farewell_detected]; otherwise, if it
    is shorter than 50 characters and contains an agreement phrase, the
    decision is [shouldRespond = false] with reason [acknowledgment]; in
    both cases no query is sent to the oracle. *)
Theorem farewell_and_acknowledgment_are_skipped env oracle botName username
  message otherBots c :
  engine env = Some oracle →
  includes (toLowerCase message) (toLowerCase botName) = false →
  Forall (λ other, includes (toLowerCase message) (toLowerCase other) = false)
    otherBots →
  let out := shouldRespond env botName username message otherBots c in
  (CognitiveEngine.mentionsAny message CognitiveEngine.farewellPhrases →
     Result.shouldRespond out.1.1 = false
     ∧ Result.reason out.1.1 = "farewell_detected"
     ∧ CognitiveEngine.oracleCalls out.2 = 0%nat)
  ∧ (¬ CognitiveEngine.mentionsAny message CognitiveEngine.farewellPhrases →
     (String.length message < 50)%nat →
     CognitiveEngine.mentionsAny message CognitiveEngine.agreementPhrases →
     Result.shouldRespond out.1.1 = false
     ∧ Result.reason out.1.1 = "acknowledgment"
     ∧ CognitiveEngine.oracleCalls out.2 = 0%nat).
Proof.
  intros Heng Hself Hothers. cbn zeta.
  rewrite (shouldRespond_engine env oracle) by done.
  match goal with
  | |- context [engineBranch ?e ?o ?b ?u ?m ?ob ?st ?c0] =>
      pose proof (engineBranch_result e o b u m ob st c0) as (Hs & Hr & _ & Ht)
  end.
  rewrite Hs, Hr, Ht. split.
  - intros Hfarewell. apply isFarewell_mentions in Hfarewell.
    match goal with
    | |- context [CognitiveEngine.shouldRespond ?o ?r ?b ?bp ?m ?s ?ctx ?ob ?p] =>
        pose proof (shouldRespond_farewell o r b bp m s ctx ob p Hfarewell)
          as (H1 & H2 & _ & _ & H3)
    end.
    done.
  - intros Hno Hlen Hack. apply isFarewell_false in Hno.
    pose proof (isAcknowledgment_short _ Hlen Hack) as Hisack.
    match goal with
    | |- context [CognitiveEngine.shouldRespond ?o ?r ?b ?bp ?m ?s ?ctx ?ob ?p] =>
        pose proof (shouldRespond_acknowledgment o r b bp m s ctx ob p Hno Hisack)
          as (H1 & H2 & _ & _ & H3)
    end.
    done.
Qed.

Lemma farewell_and_acknowledgment_are_skipped_witness :
  let env := mkEnv (Some (λ _, Some "respond")) 100000 0.2 0.5
               (CognitiveEngine.mkRolls 0.97 0.99 0.99) 0.1 in
  let bye := shouldRespond env "Blaze" "Steve" "see you later!" ["Alex"] initial in
  let ack := shouldRespond env "Blaze" "Steve" "ok, got it" ["Alex"] initial in
  (Result.shouldRespond bye.1.1 = false
   ∧ Result.reason bye.1.1 = "farewell_detected"
   ∧ CognitiveEngine.oracleCalls bye.2 = 0%nat)
  ∧ (Result.shouldRespond ack.1.1 = false
     ∧ Result.reason ack.1.1 = "acknowledgment"
     ∧ CognitiveEngine.oracleCalls ack.2 = 0%nat).
Proof.
  cbn zeta. split.
  - match goal with
    | |- context [shouldRespond ?e ?b ?u ?m ?o ?c] =>
        destruct (farewell_and_acknowledgment_are_skipped e (λ _, Some "respond")
                    b u m o c) as [H _]
    end; [reflexivity|reflexivity|repeat constructor|].
    apply H. exists "see you". split; [repeat constructor|reflexivity].
  - match goal with
    | |- context [shouldRespond ?e ?b ?u ?m ?o ?c] =>
        destruct (farewell_and_acknowledgment_are_skipped e (λ _, Some "respond")
                    b u m o c) as [_ H]
    end; [reflexivity|reflexivity|repeat constructor|].
    apply H.
    + intros Hm. apply isFarewell_mentions in Hm. vm_compute in Hm. discriminate.
    + vm_compute. lia.
    + exists "got it". split; [repeat constructor|reflexivity].
Defined.

(** A farewell that also names another known agent is dropped by the
    other-agent stage, which reports its own reason. *)
Lemma farewell_masked_by_other_mention :
  let env := mkEnv (Some (λ _, Some "respond")) 100000 0.2 0.5
               (CognitiveEngine.mkRolls 0.97 0.99 0.99) 0.1 in
  let out := shouldRespond env "Blaze" "Steve" "bye alex" ["Alex"] initial in
  includes (toLowerCase "bye alex") (toLowerCase "Blaze") = false
  ∧ includes "bye alex" "bye" = true
  ∧ Result.shouldRespond out.1.1 = false
  ∧ Result.reason out.1.1 = "other_bot_mentioned"
  ∧ Result.reason out.1.1 ≠ "farewell_detected".
Proof. vm_compute. repeat split; discriminate. Qed.

Lemma getRecentContext_print (limit : nat) (mgr : SoulStateManager) :
  getRecentContext limit mgr
  = CognitiveEngine.printContext
      (map (λ m, (chatSender m, chatText m)) (lastN limit (recentMessages mgr))).
Proof.
  unfold getRecentContext, CognitiveEngine.printContext. by rewrite map_map.
Qed.

(** The engine is handed the last four messages: when they are single-line
    messages of named speakers, it counts at most three exchanges, below
    the cutoff of four. *)
Lemma coordinator_context_below_cutoff botName sender (mgr : SoulStateManager) :
  botName ≠ "" → sender ≠ "" →
  Forall (λ m, CognitiveEngine.singleLine (chatSender m, chatText m))
    (recentMessages mgr) →
  (CognitiveEngine.backAndForthCount botName sender (getRecentContext 4 mgr)
   ≤ 3)%nat.
Proof.
  intros Hb Hs Hall. rewrite getRecentContext_print.
  set (msgs := map (λ m, (chatSender m, chatText m))
                 (lastN 4 (recentMessages mgr))).
  assert (Hlen : (length msgs ≤ 4)%nat).
  { unfold msgs. rewrite length_map. apply lastN_length. }
  assert (Hsingle : Forall CognitiveEngine.singleLine msgs).
  { unfold msgs. apply Forall_fmap. unfold lastN. by apply Forall_drop. }
  rewrite backAndForthCount_printContext by (done || lia).
  pose proof (alternations_first botName sender (map fst msgs) Hb Hs) as Hle.
  rewrite length_map in Hle. lia.
Qed.


(** The coordinator hands the engine the last four messages only: with
    eight alternating turns in the shared context the engine counts three
    exchanges, and a high throttle draw lets the oracle's answer through. *)
Lemma coordinator_passes_four_messages :
  let env := mkEnv (Some (λ _, Some "respond")) 100000 0.2 0.5
               (CognitiveEngine.mkRolls 0.97 0.99 0.99) 0.1 in
  let c :=
    foldr (λ '(who, text, at_), recordMessage who text true at_) initial
      [("Bob", "h", 8%Z); ("Blaze", "g", 7%Z); ("Bob", "f", 6%Z);
       ("Blaze", "e", 5%Z); ("Bob", "d", 4%Z); ("Blaze", "c", 3%Z);
       ("Bob", "b", 2%Z); ("Blaze", "a", 1%Z)] in
  let out := shouldRespond env "Blaze" "Bob" "what next" [] c in
  CognitiveEngine.backAndForthCount "Blaze" "Bob" (getRecentContext 8 (souls c))
  = 7%nat
  ∧ CognitiveEngine.backAndForthCount "Blaze" "Bob" (getRecentContext 4 (souls c))
    = 3%nat
  ∧ Result.shouldRespond out.1.1 = true
  ∧ Result.reason out.1.1 = "respond".
Proof. vm_compute. done. Qed.

(** *** The recent messages, the delay and the last response *)

Lemma recordMessage_recent sender message isBot now (c : t) :
  (length (recentMessages (souls c)) ≤ 8)%nat →
  recentMessages (souls (recordMessage sender message isBot now c))
  = lastN 8 (recentMessages (souls c) ++ [mkChatMessage sender message isBot now])%list.
Proof.
  intros Hlen. unfold recordMessage. cbv zeta. cbn [souls withSouls recentMessages].
  set (l := recentMessages (souls c)) in *.
  set (m := mkChatMessage _ _ _ _).
  destruct (Nat.ltb_spec 8 (length (l ++ [m])%list)) as [Hlt|Hge].
  - unfold lastN. rewrite List.length_app in *. cbn [length] in *.
    replace (length l + 1 - 8)%nat with 1%nat by lia.
    by destruct l.
  - by rewrite lastN_all.
Qed.

Lemma recordAll_recent (ms : list ChatMessage) (c : t) :
  (length (recentMessages (souls c)) ≤ 8)%nat →
  recentMessages (souls (recordAll ms c))
  = lastN 8 (recentMessages (souls c) ++ ms)%list.
Proof.
  revert c. induction ms as [|m ms IH]; intros c Hlen.
  - cbn. rewrite List.app_nil_r. by rewrite lastN_all.
  - cbn [recordAll fold_left]. fold (recordAll ms).
    destruct m as [a b i z]. cbn [chatSender chatText chatIsBot chatTimestamp].
    rewrite IH; rewrite recordMessage_recent by done; [|apply lastN_length].
    rewrite lastN_absorb. by rewrite <- (assoc app).
Qed.

(** X6.  The shared list of recent messages is a sliding window: after
    any sequence of recorded messages it holds the last eight of them, in
    order, and for a limit between one and eight the recent context handed
    out is the print-out of the last [limit] messages. *)
Theorem recent_context_is_the_latest_messages (ms : list ChatMessage)
  (limit : nat) :
  (0 < limit ≤ 8)%nat →
  let mgr := souls (recordAll ms initial) in
  recentMessages mgr = lastN 8 ms ∧
  getRecentContext limit mgr
  = CognitiveEngine.printContext
      (map (λ m, (chatSender m, chatText m)) (lastN limit ms)).
Proof.
  intros Hl. cbv zeta.
  assert (Hrec : recentMessages (souls (recordAll ms initial)) = lastN 8 ms).
  { rewrite recordAll_recent by (cbn; lia). done. }
  split; [done|].
  rewrite getRecentContext_print, Hrec, lastN_lastN by lia. done.
Qed.

Lemma recent_context_is_the_latest_messages_witness :
  let ms := map (λ n : nat, mkChatMessage "Steve" (pretty n) false (Z.of_nat n))
              (seq 1 10) in
  let mgr := souls (recordAll ms initial) in
  recentMessages mgr = lastN 8 ms ∧
  getRecentContext 4 mgr
  = CognitiveEngine.printContext
      (map (λ m, (chatSender m, chatText m)) (lastN 4 ms)).
Proof.
  apply (recent_context_is_the_latest_messages
           (map (λ n : nat, mkChatMessage "Steve" (pretty n) false (Z.of_nat n))
              (seq 1 10)) 4).
  lia.
Defined.


Lemma getState_recentMessages botName personality now mgr :
  recentMessages (getState botName personality now mgr).2 = recentMessages mgr.
Proof. unfold getState. by destruct (states mgr !! botName). Qed.

Lemma oracleStage_reason oracle rolls botName botPersonality message sender
  recentContext otherBots isExtroverted isIntroverted currentEmotion :
  CognitiveEngine.Decision.reason
    (CognitiveEngine.oracleStage oracle rolls botName botPersonality message sender
       recentContext otherBots isExtroverted isIntroverted currentEmotion).1
  ∈ ["provoked"; "enthusiastic"; "too_bored"; "respond"; "skip"; "wait"].
Proof.
  unfold CognitiveEngine.oracleStage. cbv zeta.
  repeat match goal with
         | |- context [if ?b then _ else _] => destruct b
         end; cbn [fst CognitiveEngine.Decision.reason].
  1-3: set_unfold; tauto.
  pose proof (parseDecision_range (oracle (CognitiveEngine.buildPrompt botName botPersonality
    message sender recentContext otherBots isExtroverted isIntroverted))) as H.
  set_unfold. tauto.
Qed.

(** X7.  Through the coordinator the engine sees the last four
    messages only, so when they are single-line messages of named speakers
    the back-and-forth count stays below the cutoff of four: with a throttle
    draw of at least 0.95 the reason returned is never the conversation
    limit, but one of the fourteen other reasons. *)
Theorem coordinator_never_reports_the_conversation_limit env botName username
  message otherBots (c : t) :
  botName ≠ "" → username ≠ "" →
  Forall (λ m, CognitiveEngine.singleLine (chatSender m, chatText m))
    (recentMessages (souls c)) →
  0.95 <= CognitiveEngine.throttleRoll (engineRolls env) →
  Result.reason (shouldRespond env botName username message otherBots c).1.1
  ∈ ["directly_mentioned"; "other_bot_mentioned"; "farewell_detected";
     "acknowledgment"; "provoked"; "enthusiastic"; "too_bored"; "respond";
     "skip"; "wait"; "someone_responded"; "question"; "random"; "skipped"].
Proof.
  intros Hb Hu Hall Hroll. unfold shouldRespond.
  destruct (getState botName SoulState.emptyPersonality (now env) (souls c))
    as [state mgr] eqn:Hget.
  destruct (includes _ _); [in_list|].
  set (reasons := [_; _; _; _; _; _; _; _; _; _; _; _; _; _]).
  assert (Hengine : ∀ oracle,
    Result.reason
      (engineBranch env oracle botName username message otherBots state
         (withSouls c mgr)).1.1 ∈ reasons).
  { intros oracle.
    destruct (engineBranch_result env oracle botName username message
                otherBots state (withSouls c mgr)) as (_ & -> & _).
    cbn [souls withSouls]. unfold CognitiveEngine.shouldRespond.
    destruct (CognitiveEngine.isFarewell message); [in_list|].
    destruct (CognitiveEngine.isAcknowledgment message); [in_list|].
    rewrite throttles_high_roll; [| |done].
    - pose proof (oracleStage_reason oracle (engineRolls env) botName
        (getPersonalityBrief (SoulState.personality state)) message username
        (getRecentContext 4 mgr)
        (List.filter (λ b, negb (String.eqb b botName)) otherBots)
        (Qltb 0.5 (orNum (SoulState.chattiness (SoulState.personality state)) 0.5))
        (Qltb (orNum (SoulState.chattiness (SoulState.personality state)) 0.5) 0.4)
        (orStr (SoulState.currentEmotion (SoulState.personality state)) "calm"))
        as Hr.
      cbv zeta. unfold reasons. set_unfold in Hr. set_unfold. tauto.
    - apply Nat.lt_succ_r, coordinator_context_below_cutoff; try done.
      replace mgr with
        (getState botName SoulState.emptyPersonality (now env) (souls c)).2
        by (by rewrite Hget).
      by rewrite getState_recentMessages. }
  assert (Hfallback :
    Result.reason
      (simpleFallback env botName username message otherBots
         (withSouls c mgr)).1 ∈ reasons).
  { unfold simpleFallback. cbn [souls withSouls].
    destruct (getState botName SoulState.emptyPersonality (now env) mgr)
      as [state' mgr'].
    repeat match goal with
           | |- context [if ?b then _ else _] => destruct b
           end; in_list. }
  destruct (findMentionedOther _ _ _) as [[|a o]|]; [|in_list|];
    (destruct (engine env) as [oracle|]; [apply Hengine|]);
    by destruct (simpleFallback _ _ _ _ _ _).
Qed.

Lemma coordinator_never_reports_the_conversation_limit_witness :
  let env := mkEnv (Some (λ _, Some "respond")) 100000 0.2 0.5
               (CognitiveEngine.mkRolls 0.97 0.99 0.99) 0.1 in
  let c :=
    recordAll
      [mkChatMessage "Blaze" "a" true 1; mkChatMessage "Bob" "b" true 2;
       mkChatMessage "Blaze" "c" true 3; mkChatMessage "Bob" "d" true 4;
       mkChatMessage "Blaze" "e" true 5; mkChatMessage "Bob" "f" true 6;
       mkChatMessage "Blaze" "g" true 7; mkChatMessage "Bob" "h" true 8]
      initial in
  Result.reason (shouldRespond env "Blaze" "Bob" "what next" [] c).1.1
  ∈ ["directly_mentioned"; "other_bot_mentioned"; "farewell_detected";
     "acknowledgment"; "provoked"; "enthusiastic"; "too_bored"; "respond";
     "skip"; "wait"; "someone_responded"; "question"; "random"; "skipped"].
Proof.
  apply (coordinator_never_reports_the_conversation_limit
           (mkEnv (Some (λ _, Some "respond")) 100000 0.2 0.5
              (CognitiveEngine.mkRolls 0.97 0.99 0.99) 0.1)
           "Blaze" "Bob" "what next" []).
  - done.
  - done.
  - repeat constructor.
  - cbn. lra.
Defined.


Lemma delayMultiplier_range (state : SoulState.t) (urgency : Urgency) :
  0.35 <= delayMultiplier state urgency <= 3.75.
Proof.
  unfold delayMultiplier.
  destruct (String.eqb_spec (SoulState.emotion state) "excited") as [->|_];
    [destruct urgency; cbn; lra|].
  destruct (String.eqb_spec (SoulState.emotion state) "cautious") as [->|_];
    [destruct urgency; cbn; lra|].
  destruct (String.eqb (SoulState.emotion state) "bored");
    destruct urgency; cbn; lra.
Qed.

Lemma delayMultiplier_ordered (state : SoulState.t) :
  delayMultiplier state Fast <= delayMultiplier state Normal
  ∧ delayMultiplier state Normal <= delayMultiplier state Slow
  ∧ delayMultiplier state Slow <= delayMultiplier state VerySlow.
Proof.
  unfold delayMultiplier. cbn [urgencyMultiplier].
  destruct (String.eqb _ "excited"), (String.eqb _ "cautious"),
    (String.eqb _ "bored"); lra.
Qed.

Lemma getBaseDelay_mono (state : SoulState.t) (u v : Urgency) (rnd : Q) :
  0 <= rnd → 0 <= (baseDelay state).1 → (baseDelay state).1 <= (baseDelay state).2 →
  delayMultiplier state u <= delayMultiplier state v →
  (getBaseDelay state u rnd ≤ getBaseDelay state v rnd)%Z.
Proof.
  intros Hr Hlo Hlh Huv. unfold getBaseDelay. cbv zeta.
  set (lo := (baseDelay state).1) in *. set (hi := (baseDelay state).2) in *.
  assert (Hw : 0 <= rnd * (hi - lo)) by nra.
  apply Qfloor_resp_le. nra.
Qed.

(** X8.  For one state and one draw in [0, 1) over a base band with
    [0 <= min <= max], the delay grows with the urgency level (fast, normal,
    slow, very slow); whatever the urgency and the emotion, it is not
    negative and lies between 0.35 times the minimum (less one) and 3.75
    times the maximum of the band. *)
Theorem delay_follows_urgency (state : SoulState.t) (rnd : Q) :
  0 <= rnd → rnd < 1 →
  0 <= (baseDelay state).1 → (baseDelay state).1 <= (baseDelay state).2 →
  (getBaseDelay state Fast rnd ≤ getBaseDelay state Normal rnd
   ≤ getBaseDelay state Slow rnd)%Z
  ∧ (getBaseDelay state Slow rnd ≤ getBaseDelay state VerySlow rnd)%Z
  ∧ ∀ urgency,
      (0 ≤ getBaseDelay state urgency rnd)%Z
      ∧ 0.35 * (baseDelay state).1 - 1 < inject_Z (getBaseDelay state urgency rnd)
      ∧ inject_Z (getBaseDelay state urgency rnd) <= 3.75 * (baseDelay state).2.
Proof.
  intros Hr0 Hr1 Hlo Hlh.
  destruct (delayMultiplier_ordered state) as (Hfn & Hns & Hsv).
  repeat split; try (by apply getBaseDelay_mono).
  all: pose proof (delayMultiplier_range state urgency) as [Hm0 Hm1].
  all: unfold getBaseDelay; cbv zeta.
  all: set (lo := (baseDelay state).1) in *; set (hi := (baseDelay state).2) in *.
  all: set (m := delayMultiplier state urgency) in *.
  all: destruct (scaled_delay_bounds rnd lo hi m) as [Hlow Hhigh];
         [done|done|done|lra|].
  all: cbv zeta in Hlow, Hhigh.
  all: assert (Hlm : 0.35 * lo <= lo * m) by nra.
  all: assert (Hhm : hi * m <= 3.75 * hi) by nra.
  - change 0%Z with (Qfloor 0). apply Qfloor_resp_le.
    assert (Hd : 0 <= hi * m - lo * m) by nra.
    pose proof (Qmult_le_0_compat _ _ Hr0 Hd). lra.
  - lra.
  - lra.
Qed.

Lemma delay_follows_urgency_witness :
  let state := SoulState.new "Blaze" SoulState.emptyPersonality 0 in
  (getBaseDelay state Fast 0.5 ≤ getBaseDelay state Normal 0.5
   ≤ getBaseDelay state Slow 0.5)%Z
  ∧ (getBaseDelay state Slow 0.5 ≤ getBaseDelay state VerySlow 0.5)%Z
  ∧ ∀ urgency,
      (0 ≤ getBaseDelay state urgency 0.5)%Z
      ∧ 0.35 * (baseDelay state).1 - 1 < inject_Z (getBaseDelay state urgency 0.5)
      ∧ inject_Z (getBaseDelay state urgency 0.5) <= 3.75 * (baseDelay state).2.
Proof.
  apply (delay_follows_urgency
           (SoulState.new "Blaze" SoulState.emptyPersonality 0) 0.5);
    cbn; lra.
Defined.


Lemma recordResponse_lastResponse botName username message now (c : t) :
  lastResponse (recordResponse botName username message now c)
  = mkLastResponse (Some username) (Some botName) now (Some message).
Proof.
  unfold recordResponse. cbn [souls]. by destruct (getState _ _ _ _).
Qed.

Lemma simpleFallback_reason env botName username message otherBots (c : t) :
  Result.reason (simpleFallback env botName username message otherBots c).1
  = if (now env - timestamp (lastResponse c) <? 5000)%Z
       && negb (bool_decide (responder (lastResponse c) = Some botName))
    then "someone_responded"
    else if includes message "?" then "question"
    else if Qltb (fallbackRoll env) 0.2 then "random" else "skipped".
Proof.
  unfold simpleFallback. destruct (getState _ _ _ _) as [state mgr].
  cbn [lastResponse withSouls].
  repeat match goal with
         | |- context [if ?b then _ else _] => destruct b
         end; done.
Qed.

Lemma simpleFallback_deferred env botName username message otherBots (c : t) :
  Result.reason (simpleFallback env botName username message otherBots c).1
  = "someone_responded" →
  Result.shouldRespond (simpleFallback env botName username message otherBots c).1
  = false.
Proof.
  unfold simpleFallback. destruct (getState _ _ _ _) as [state mgr].
  cbn [lastResponse withSouls].
  repeat match goal with
         | |- context [if ?b then _ else _] => destruct b
         end; done.
Qed.

(** X9.  Once an agent's response is recorded, the heuristic fallback
    of every other agent declines with the reason [someone_responded] for the
    next five seconds, whatever the message; the responder's own fallback is
    not held back by its own response. *)
Theorem fallback_defers_to_a_recent_responder env botName username message
  otherBots other user text (t1 : Z) (c : t) :
  other ≠ botName →
  (now env - t1 < 5000)%Z →
  let c1 := recordResponse other user text t1 c in
  let r := (simpleFallback env botName username message otherBots c1).1 in
  let own := (simpleFallback env other username message otherBots c1).1 in
  Result.shouldRespond r = false
  ∧ Result.reason r = "someone_responded"
  ∧ Result.reason own ∈ ["question"; "random"; "skipped"].
Proof.
  intros Hne Ht. cbv zeta.
  assert (Hr : Result.reason
            (simpleFallback env botName username message otherBots
               (recordResponse other user text t1 c)).1 = "someone_responded").
  { rewrite simpleFallback_reason, recordResponse_lastResponse.
    cbn [timestamp responder].
    replace (now env - t1 <? 5000)%Z with true by (symmetry; apply Z.ltb_lt; lia).
    rewrite bool_decide_false by congruence. done. }
  split; [by apply simpleFallback_deferred|]. split; [done|].
  rewrite simpleFallback_reason, recordResponse_lastResponse.
  cbn [timestamp responder]. rewrite bool_decide_true by done.
  rewrite andb_false_r.
  destruct (includes message "?"); [in_list|].
  destruct (Qltb _ _); in_list.
Qed.

Lemma fallback_defers_to_a_recent_responder_witness :
  let env := mkEnv None 104000 0.5 0.5 (CognitiveEngine.mkRolls 0.5 0.5 0.5) 0.1 in
  let c1 := recordResponse "Bob" "Steve" "on my way" 100000 initial in
  let r := (simpleFallback env "Blaze" "Steve" "anyone there?" [] c1).1 in
  let own := (simpleFallback env "Bob" "Steve" "anyone there?" [] c1).1 in
  Result.shouldRespond r = false
  ∧ Result.reason r = "someone_responded"
  ∧ Result.reason own ∈ ["question"; "random"; "skipped"].
Proof.
  apply (fallback_defers_to_a_recent_responder
           (mkEnv None 104000 0.5 0.5 (CognitiveEngine.mkRolls 0.5 0.5 0.5) 0.1)
           "Blaze" "Steve" "anyone there?" [] "Bob" "Steve" "on my way"
           100000 initial).
  - done.
  - cbn. lia.
Defined.


End ConversationCoordinatorFacts.

(* ===================================================================== *)
(** ** Relationship ledger *)
(* ===================================================================== *)

Module RelationshipFacts.
Import Num NumFacts Relationship.
Open Scope Q_scope.

(** *** Ranges, counters and memories *)

Lemma applyChange_range (current delta : Q) :
  -1 <= applyChange current delta <= 1.
Proof.
  unfold applyChange. cbv zeta.
  set (x := current + delta * (1 - Qabs current * 0.5)).
  destruct (Qmax_cases (-1) (Qmin 1 x)) as [[E ?]|[E ?]],
           (Qmin_cases 1 x) as [[E' ?]|[E' ?]]; lra.
Qed.

Lemma Qabs_unit (x : Q) : -1 <= x <= 1 → 0 <= Qabs x <= 1.
Proof.
  intros [Hlo Hhi]. split; [apply Qabs_nonneg|].
  apply Qabs_Qle_condition. lra.
Qed.

Lemma applyChange_between (current delta : Q) :
  -1 <= current <= 1 →
  Qmin current (current + delta) <= applyChange current delta
  ∧ applyChange current delta <= Qmax current (current + delta).
Proof.
  intros Hc. pose proof (Qabs_unit current Hc) as Ha.
  unfold applyChange. cbv zeta.
  set (a := Qabs current) in *.
  set (x := current + delta * (1 - a * 0.5)).
  assert (Hx : (0 <= delta → current <= x ∧ x <= current + delta)
             ∧ (delta <= 0 → current + delta <= x ∧ x <= current)).
  { unfold x. split; intros Hd; split; nra. }
  destruct Hx as [Hpos Hneg].
  destruct (Qmax_cases (-1) (Qmin 1 x)) as [[E ?]|[E ?]],
           (Qmin_cases 1 x) as [[E' ?]|[E' ?]],
           (Qmin_cases current (current + delta)) as [[E1 ?]|[E1 ?]],
           (Qmax_cases current (current + delta)) as [[E2 ?]|[E2 ?]];
    rewrite E, ?E', E1, E2;
    destruct (Qlt_le_dec delta 0) as [Hd|Hd];
    try (specialize (Hpos Hd)); try (assert (Hd' : delta <= 0) by lra; specialize (Hneg Hd'));
    split; lra.
Qed.


Lemma recordInteraction_metrics interaction details now (r : t) :
  let r' := recordInteraction interaction details now r in
  trust r' = applyChange (trust r) (impactTrust (impactOf interaction))
  ∧ fondness r' = applyChange (fondness r) (impactFondness (impactOf interaction))
  ∧ respect r' = applyChange (respect r) (impactRespect (impactOf interaction)).
Proof.
  cbv zeta. unfold recordInteraction. cbv zeta.
  by destruct (_ || _).
Qed.

Lemma recordInteraction_inRange interaction details now (r : t) :
  inRange (recordInteraction interaction details now r).
Proof.
  destruct (recordInteraction_metrics interaction details now r) as (Ht & Hf & Hr).
  unfold inRange. rewrite Ht, Hf, Hr.
  repeat split; apply applyChange_range.
Qed.

Lemma decay_inRange hours (r : t) :
  0 <= hours <= 200 → inRange r → inRange (decay hours r).
Proof.
  intros Hh (Ht & Hf & Hr). unfold inRange, decay. cbn.
  repeat split; nra.
Qed.

Lemma new_inRange targetName bot : inRange (new targetName bot).
Proof. unfold inRange. cbn. lra. Qed.

(** Starting from a fresh record, recorded interactions and moderate
    decays keep the three metrics between -1 and 1. *)
Lemma metrics_stay_between_minus_one_and_one (targetName : string)
  (bot : bool) (us : list Update) :
  Forall moderate us →
  inRange (fold_left apply us (new targetName bot)).
Proof.
  induction us as [|u us IH] using rev_ind; intros Hall.
  - apply new_inRange.
  - apply Forall_app in Hall as [Hus Hu]. apply Forall_cons in Hu as [Hu _].
    rewrite fold_left_app. cbn [fold_left].
    destruct u as [interaction details now|hours]; cbn [apply].
    + apply recordInteraction_inRange.
    + apply decay_inRange; [exact Hu|by apply IH].
Qed.


(** X10.  For a record whose metrics are in range, recording an
    interaction moves each of trust, fondness and respect in the direction
    of the interaction's impact on it and by no more than that impact: the
    new value lies between the old value and the old value plus the
    impact. *)
Theorem interaction_moves_each_metric_toward_its_impact
  (interaction details : string) (now : Z) (r : t) :
  plainKey interaction = true →
  inRange r →
  let r' := recordInteraction interaction details now r in
  let k := impactOf interaction in
  (Qmin (trust r) (trust r + impactTrust k) <= trust r'
   ∧ trust r' <= Qmax (trust r) (trust r + impactTrust k))
  ∧ (Qmin (fondness r) (fondness r + impactFondness k) <= fondness r'
     ∧ fondness r' <= Qmax (fondness r) (fondness r + impactFondness k))
  ∧ (Qmin (respect r) (respect r + impactRespect k) <= respect r'
     ∧ respect r' <= Qmax (respect r) (respect r + impactRespect k)).
Proof.
  intros _ (Ht & Hf & Hr). cbv zeta.
  destruct (recordInteraction_metrics interaction details now r) as (-> & -> & ->).
  repeat split; by apply applyChange_between.
Qed.


Lemma interaction_moves_each_metric_toward_its_impact_witness :
  let r := recordInteraction "gifted" "a pickaxe" 1 (new "Steve" false) in
  let r' := recordInteraction "insulted" "you are useless" 2 r in
  let k := impactOf "insulted" in
  (Qmin (trust r) (trust r + impactTrust k) <= trust r'
   ∧ trust r' <= Qmax (trust r) (trust r + impactTrust k))
  ∧ (Qmin (fondness r) (fondness r + impactFondness k) <= fondness r'
     ∧ fondness r' <= Qmax (fondness r) (fondness r + impactFondness k))
  ∧ (Qmin (respect r) (respect r + impactRespect k) <= respect r'
     ∧ respect r' <= Qmax (respect r) (respect r + impactRespect k)).
Proof.
  apply (interaction_moves_each_metric_toward_its_impact
           "insulted" "you are useless" 2
           (recordInteraction "gifted" "a pickaxe" 1 (new "Steve" false))).
  - reflexivity.
  - apply recordInteraction_inRange.
Defined.

Lemma recordInteraction_counters interaction details now (r : t) :
  let r' := recordInteraction interaction details now r in
  totalInteractions r' = S (totalInteractions r)
  ∧ (positiveInteractions r' + negativeInteractions r'
     ≤ S (positiveInteractions r + negativeInteractions r))%nat
  ∧ (positiveInteractions r ≤ positiveInteractions r')%nat
  ∧ (negativeInteractions r ≤ negativeInteractions r')%nat
  ∧ lastInteraction r' = Some now.
Proof.
  cbv zeta. unfold recordInteraction. cbv zeta.
  destruct (_ || _); cbn;
    destruct (Qltb 0 _); try destruct (Qltb _ 0); repeat split; lia.
Qed.

Lemma interaction_counters_add_up (targetName : string) (bot : bool)
  (us : list Update) :
  let r := fold_left apply us (new targetName bot) in
  totalInteractions r = interactionsIn us
  ∧ (positiveInteractions r + negativeInteractions r ≤ totalInteractions r)%nat
  ∧ (lastInteraction r = None ↔ totalInteractions r = 0%nat).
Proof.
  cbv zeta. induction us as [|u us IH] using rev_ind.
  - cbn. by repeat split.
  - rewrite fold_left_app. cbn [fold_left]. unfold interactionsIn in *.
    rewrite List.filter_app, List.length_app.
    destruct IH as (Ht & Hpn & Hlast).
    set (r := fold_left apply us (new targetName bot)) in *.
    destruct u as [interaction details now|hours]; cbn [apply].
    + destruct (recordInteraction_counters interaction details now r)
        as (Ht' & Hpn' & _ & _ & Hl').
      cbv zeta in *. rewrite Ht', Hl'. cbn [List.filter length].
      repeat split; try lia; done.
    + cbn. rewrite Nat.add_0_r. by repeat split; try apply Hlast.
Qed.

Lemma addMemory_length interaction details now (r : t) :
  (length (memories r) ≤ 10)%nat →
  (length (memories (addMemory interaction details now r)) ≤ 10)%nat.
Proof.
  intros Hlen. unfold addMemory. cbv zeta. cbn [memories].
  set (ms := (memories r ++ _)%list).
  assert (Hms : length ms = S (length (memories r))).
  { unfold ms. rewrite List.length_app. cbn. lia. }
  unfold maxMemories.
  destruct (Nat.ltb_spec 10 (length ms)); [|done].
  destruct ms; cbn in *; lia.
Qed.

Lemma addMemory_last interaction details now (r : t) :
  ∃ m, last (memories (addMemory interaction details now r)) = Some m
       ∧ memoryType m = interaction ∧ memoryDetails m = details
       ∧ memoryTimestamp m = now.
Proof.
  unfold addMemory. cbv zeta. cbn [memories].
  set (m := mkMemory _ _ _ _). exists m.
  split; [|done].
  unfold maxMemories.
  destruct (Nat.ltb_spec 10 (length (memories r ++ [m])%list)) as [Hlt|Hge];
    [|apply last_snoc].
  rewrite List.length_app in Hlt. cbn [length] in Hlt.
  destruct (memories r) as [|x l]; cbn in *; [lia|]. apply last_snoc.
Qed.

Lemma recordInteraction_memories interaction details now (r : t) :
  ∃ r1, memories r1 = memories r
        ∧ memories (recordInteraction interaction details now r)
          = if significant interaction
            then memories (addMemory interaction details now r1)
            else memories r.
Proof.
  unfold recordInteraction, significant. cbv zeta.
  eexists. split; [|by destruct (_ || _)]. done.
Qed.

Lemma memories_keep_the_last_ten (targetName : string) (bot : bool)
  (us : list Update) (interaction details : string) (now : Z) :
  let r := fold_left apply us (new targetName bot) in
  let r' := recordInteraction interaction details now r in
  (length (memories r) ≤ 10)%nat
  ∧ (significant interaction = false → memories r' = memories r)
  ∧ (significant interaction = true →
       ∃ m, last (memories r') = Some m
            ∧ memoryType m = interaction ∧ memoryDetails m = details
            ∧ memoryTimestamp m = now).
Proof.
  cbv zeta. split; [|split].
  - induction us as [|u us IH] using rev_ind; [cbn; lia|].
    rewrite fold_left_app. cbn [fold_left].
    set (r := fold_left apply us (new targetName bot)) in *.
    destruct u as [i d n|hours]; cbn [apply]; [|done].
    destruct (recordInteraction_memories i d n r) as (r1 & Hr1 & ->).
    destruct (significant i); [|done]. apply addMemory_length. by rewrite Hr1.
  - intros Hs.
    destruct (recordInteraction_memories interaction details now
                (fold_left apply us (new targetName bot))) as (r1 & Hr1 & ->).
    by rewrite Hs.
  - intros Hs.
    destruct (recordInteraction_memories interaction details now
                (fold_left apply us (new targetName bot))) as (r1 & Hr1 & ->).
    rewrite Hs. apply addMemory_last.
Qed.

Lemma decay_between (hours x : Q) :
  0 <= hours <= 100 →
  Qmin 0 x <= x * (1 - 0.01 * hours) ∧ x * (1 - 0.01 * hours) <= Qmax 0 x.
Proof.
  intros Hh.
  destruct (Qmin_cases 0 x) as [[E1 ?]|[E1 ?]],
           (Qmax_cases 0 x) as [[E2 ?]|[E2 ?]]; rewrite E1, E2; split; nra.
Qed.

(** X11.  The books of a record.  After any sequence of updates of a fresh
    record, the total number of interactions is the number of interactions
    recorded, decays not counting; the positive and the negative
    interactions together never exceed the total; the time of the last
    interaction is unset exactly when none was recorded; and the record
    holds at most ten memories.  A further interaction whose impact on
    fondness and on trust is below one tenth leaves the memories as they
    are; any other becomes the newest memory, with its type, details and
    time. *)
Theorem record_keeps_its_books (targetName : string) (bot : bool)
  (us : list Update) (interaction details : string) (now : Z) :
  let r := fold_left apply us (new targetName bot) in
  let r' := recordInteraction interaction details now r in
  totalInteractions r = interactionsIn us
  ∧ (positiveInteractions r + negativeInteractions r ≤ totalInteractions r)%nat
  ∧ (lastInteraction r = None ↔ totalInteractions r = 0%nat)
  ∧ (length (memories r) ≤ 10)%nat
  ∧ (significant interaction = false → memories r' = memories r)
  ∧ (significant interaction = true →
       ∃ m, last (memories r') = Some m
            ∧ memoryType m = interaction ∧ memoryDetails m = details
            ∧ memoryTimestamp m = now).
Proof.
  cbv zeta.
  destruct (interaction_counters_add_up targetName bot us) as (H1 & H2 & H3).
  destruct (memories_keep_the_last_ten targetName bot us interaction details now)
    as (H4 & H5 & H6).
  by repeat (split; [done|]).
Qed.

(** X12.  A decay over at most one hundred hours moves each metric
    toward zero without crossing it: the new value lies between zero and
    the old value; the interaction count and the memories are untouched. *)
Theorem decay_fades_toward_neutral (hours : Q) (r : t) :
  0 <= hours <= 100 →
  let r' := decay hours r in
  (Qmin 0 (trust r) <= trust r' ∧ trust r' <= Qmax 0 (trust r))
  ∧ (Qmin 0 (fondness r) <= fondness r' ∧ fondness r' <= Qmax 0 (fondness r))
  ∧ (Qmin 0 (respect r) <= respect r' ∧ respect r' <= Qmax 0 (respect r))
  ∧ totalInteractions r' = totalInteractions r
  ∧ memories r' = memories r.
Proof.
  intros Hh. cbv zeta. unfold decay. cbn.
  repeat split; try (by apply decay_between); done.
Qed.

Lemma decay_fades_toward_neutral_witness :
  let r := recordInteraction "betrayed" "stole my diamonds" 1 (new "Steve" false) in
  let r' := decay 24 r in
  (Qmin 0 (trust r) <= trust r' ∧ trust r' <= Qmax 0 (trust r))
  ∧ (Qmin 0 (fondness r) <= fondness r' ∧ fondness r' <= Qmax 0 (fondness r))
  ∧ (Qmin 0 (respect r) <= respect r' ∧ respect r' <= Qmax 0 (respect r))
  ∧ totalInteractions r' = totalInteractions r
  ∧ memories r' = memories r.
Proof.
  apply (decay_fades_toward_neutral 24
           (recordInteraction "betrayed" "stole my diamonds" 1 (new "Steve" false))).
  lra.
Defined.

End RelationshipFacts.

(* ===================================================================== *)
(** ** Relationship record on double-precision numbers *)
(* ===================================================================== *)

Module Relationship64Facts.
Import Relationship64 DoubleFacts.

(** The chain of comparisons assigns what the documented thresholds say. *)
Lemma typeOf_documented (avg : Double.t) : documentedType avg (typeOf avg).
Proof.
  unfold documentedType, typeOf.
  split; [by intros ->|].
  split; [intros [H1 H2]; by rewrite (leb_not_ltb _ _ H2), H1|].
  split.
  { intros [H1 H2].
    rewrite (not_above _ _ (Double.literal 0.6) H2) by reflexivity.
    by rewrite (leb_not_ltb _ _ H2), H1. }
  split.
  { intros [H1 H2].
    rewrite (not_above _ _ (Double.literal 0.6) H2) by reflexivity.
    rewrite (not_above _ _ (Double.literal 0.3) H2) by reflexivity.
    by rewrite (leb_not_ltb _ _ H2), H1. }
  split.
  { intros [H1 H2].
    rewrite (not_above _ _ (Double.literal 0.6) H2) by reflexivity.
    rewrite (not_above _ _ (Double.literal 0.3) H2) by reflexivity.
    rewrite (not_above _ _ (Double.literal 0.1) H2) by reflexivity.
    by rewrite (leb_not_ltb _ _ H2), H1. }
  intros H2.
  rewrite (not_above _ _ (Double.literal 0.6) H2) by reflexivity.
  rewrite (not_above _ _ (Double.literal 0.3) H2) by reflexivity.
  rewrite (not_above _ _ (Double.literal 0.1) H2) by reflexivity.
  rewrite (not_above _ _ (Double.literal (-0.2)) H2) by reflexivity.
  by rewrite (leb_not_ltb _ _ H2).
Qed.

(** A mean that is no number is classified as the last case. *)
Lemma typeOf_NaN : typeOf Double.NaN = Relationship.Enemy.
Proof. reflexivity. Qed.

(** [updateType] stores the class of the mean and touches no metric. *)
Lemma updateType_spec (r : t) :
  type (updateType r) = typeOf (mean r) ∧ mean (updateType r) = mean r.
Proof. done. Qed.

Lemma apply_synced (r : t) (u : Update) :
  type (apply r u) = typeOf (mean (apply r u)).
Proof.
  destruct u as [interaction details now|hours]; cbn [apply].
  - unfold recordInteraction. cbv zeta. by destruct (_ || _).
  - done.
Qed.

(** C7.  Whatever a relationship record holds, after [recordInteraction]
    (any interaction type) and after [decay] (any number of hours) the
    stored type is a function of the stored trust, fondness and respect
    alone: the class of their mean, which is the one the documented
    thresholds assign to it; so it is after every sequence of such updates
    of a fresh record.  Numbers are double-precision values and the mean
    is the one the program computes, [(trust + fondness + respect) / 3]. *)
Theorem relationship_type_follows_metrics :
  (∀ (r : t) (u : Update),
     type (apply r u) = typeOf (mean (apply r u))
     ∧ documentedType (mean (apply r u)) (type (apply r u)))
  ∧ (∀ (targetName : string) (bot : bool) (us : list Update),
       let r := fold_left apply us (new targetName bot) in
       type r = typeOf (mean r) ∧ documentedType (mean r) (type r)).
Proof.
  assert (Hstep : ∀ (r : t) (u : Update),
            type (apply r u) = typeOf (mean (apply r u))
            ∧ documentedType (mean (apply r u)) (type (apply r u))).
  { intros r u. split; [apply apply_synced|].
    rewrite apply_synced. apply typeOf_documented. }
  split; [exact Hstep|].
  intros targetName bot us. cbn zeta.
  destruct us as [|u us _] using rev_ind.
  - split; [reflexivity|]. exact (typeOf_documented (mean (new targetName bot))).
  - rewrite fold_left_app. apply Hstep.
Qed.

(** One shared goal makes an acquaintance of a stranger: the three metrics
    are 0.1 each and their computed mean is the next double above 0.1. *)
Lemma relationship_type_follows_metrics_witness :
  let r := fold_left apply
             [RecordInteraction "sharedGoal" "built a base" 1]
             (new "Steve" false) in
  Double.ltb (Double.literal 0.1) (mean r) = true
  ∧ type r = Relationship.Acquaintance
  ∧ documentedType (mean r) (type r).
Proof.
  split; [reflexivity|]. split; [reflexivity|].
  apply (proj2 relationship_type_follows_metrics "Steve" false).
Defined.

(** An insult and a betrayal turn a stranger into a rival, and a day of
    decay leaves him one. *)
Lemma insult_and_betrayal_make_a_rival :
  type (fold_left apply
          [RecordInteraction "insulted" "you are useless" 1;
           RecordInteraction "betrayed" "stole my diamonds" 2;
           Decay (Double.ofZ 24)]
          (new "Steve" false))
  = Relationship.Rival.
Proof. reflexivity. Qed.

(** At a threshold the exact mean and the computed one part ways: after one
    shared goal the exact mean is 0.1, which is not above 0.1, while the
    computed mean is the next double above the double of 0.1. *)
Lemma exact_mean_differs_at_threshold :
  Relationship.type
    (Relationship.recordInteraction "sharedGoal" "built a base" 1
       (Relationship.new "Steve" false))
  = Relationship.Stranger
  ∧ type (recordInteraction "sharedGoal" "built a base" 1 (new "Steve" false))
    = Relationship.Acquaintance.
Proof. split; reflexivity. Qed.

(** An interaction type that the table inherits from [Object.prototype]
    turns the three metrics into NaN; no threshold applies to their mean
    and the type stored is the last case of the chain. *)
Lemma inherited_key_leaves_no_number :
  let r := recordInteraction "constructor" "" 1 (new "Steve" false) in
  trust r = Double.NaN ∧ fondness r = Double.NaN ∧ respect r = Double.NaN
  ∧ mean r = Double.NaN
  ∧ totalInteractions r = 1%nat ∧ memories r = []
  ∧ type r = Relationship.Enemy.
Proof. by vm_compute. Qed.

End Relationship64Facts.

(* ===================================================================== *)
(** ** Trait evolution *)
(* ===================================================================== *)

Module TraitEvolutionFacts.
Import JsString JsStringFacts Num NumFacts TraitEvolution.
Open Scope Q_scope.

Lemma clamp_band (lo hi x : Q) : lo <= hi → lo <= Qmax lo (Qmin hi x) <= hi.
Proof.
  intros H.
  destruct (Qmax_cases lo (Qmin hi x)) as [[E ?]|[E ?]],
           (Qmin_cases hi x) as [[E' ?]|[E' ?]]; lra.
Qed.

Lemma evolveChattiness_band p e :
  traitsInBand p → traitsInBand (evolveChattiness p e).1.2.
Proof.
  intros (Hc & Ha & Hv). unfold evolveChattiness. cbv zeta.
  destruct (Qleb 5 _); [|done]. cbn.
  split; [|done]. cbn. apply clamp_band. lra.
Qed.

Lemma evolveAngerThreshold_band p e :
  traitsInBand p → traitsInBand (evolveAngerThreshold p e).1.2.
Proof.
  intros (Hc & Ha & Hv). unfold evolveAngerThreshold. cbv zeta.
  destruct (Qleb 3 _); [|done]. cbn.
  split; [done|split; [|done]]. cbn. apply clamp_band. lra.
Qed.

Lemma evolveVolatility_band p e :
  traitsInBand p → traitsInBand (evolveVolatility p e).1.2.
Proof.
  intros (Hc & Ha & Hv). unfold evolveVolatility. cbv zeta.
  destruct (Qleb 3 _); [|done]. cbn.
  split; [done|split; [done|]]. cbn. apply clamp_band. lra.
Qed.

Lemma evolveTraits_personality now te :
  currentPersonality (evolveTraits now te).2
  = (evolveVolatility
       (evolveAngerThreshold
          (evolveChattiness (currentPersonality te) (experiences te)).1.2
          (evolveChattiness (currentPersonality te) (experiences te)).2).1.2
       (evolveAngerThreshold
          (evolveChattiness (currentPersonality te) (experiences te)).1.2
          (evolveChattiness (currentPersonality te) (experiences te)).2).2).1.2.
Proof.
  unfold evolveTraits.
  destruct (evolveChattiness _ _) as [[c1 p1] e1]. cbn [fst snd].
  destruct (evolveAngerThreshold _ _) as [[c2 p2] e2]. cbn [fst snd].
  by destruct (evolveVolatility _ _) as [[c3 p3] e3].
Qed.

Lemma recordExperience_band type intensity now te :
  traitsInBand (currentPersonality te) →
  traitsInBand (currentPersonality (recordExperience type intensity now te)).
Proof.
  intros H. unfold recordExperience. rewrite evolveTraits_personality.
  cbn [currentPersonality experiences].
  by apply evolveVolatility_band, evolveAngerThreshold_band, evolveChattiness_band.
Qed.

Lemma recordExperience_base type intensity now te :
  basePersonality (recordExperience type intensity now te) = basePersonality te.
Proof.
  unfold recordExperience, evolveTraits. cbn [currentPersonality experiences basePersonality].
  destruct (evolveChattiness _ _) as [[c1 p1] e1].
  destruct (evolveAngerThreshold _ _) as [[c2 p2] e2].
  by destruct (evolveVolatility _ _) as [[c3 p3] e3].
Qed.


Lemma recordAll_band (xs : list (string * Q * Z)) te :
  traitsInBand (currentPersonality te) →
  traitsInBand (currentPersonality (recordAll xs te))
  ∧ basePersonality (recordAll xs te) = basePersonality te.
Proof.
  revert te. induction xs as [|x xs IH]; intros te H; [done|].
  cbn [recordAll fold_left]. fold (recordAll xs).
  destruct (IH (recordExperience x.1.1 x.1.2 x.2 te)) as [Hb Hbase].
  { by apply recordExperience_band. }
  split; [done|]. etrans; [exact Hbase|apply recordExperience_base].
Qed.

(** X13.  When the personality an agent starts with has its chattiness
    unset or in [0.1, 0.9] and its anger threshold and emotional volatility
    unset or in [0.2, 0.9], they stay so after any sequence of recorded
    experiences, of any type and intensity; the base personality is never
    changed. *)
Theorem evolved_traits_stay_in_their_bands
  (personality : SoulState.Personality) (xs : list (string * Q * Z)) :
  traitsInBand personality →
  let te := recordAll xs (new personality) in
  traitsInBand (currentPersonality te) ∧ basePersonality te = personality.
Proof. intros H. by apply (recordAll_band xs (new personality)). Qed.

Lemma evolved_traits_stay_in_their_bands_witness :
  let personality :=
    SoulState.mkPersonality (Some 0.88) None (Some 0.2) None [] None in
  let te := recordAll
              [("socialSuccess", 5, 1%Z); ("socialSuccess", 3, 2%Z);
               ("conflictWins", 4, 3%Z); ("betrayals", 3, 4%Z);
               ("socialSuccess", 3, 5%Z)]
              (new personality) in
  traitsInBand (currentPersonality te) ∧ basePersonality te = personality.
Proof.
  apply (evolved_traits_stay_in_their_bands
           (SoulState.mkPersonality (Some 0.88) None (Some 0.2) None [] None)).
  repeat split; cbn; lra.
Defined.








(** Outside its band a trait can be moved further: a chattiness of 1 is
    brought down to 0.9 by a social success. *)
Lemma out_of_band_trait_jumps :
  let te := new (SoulState.mkPersonality (Some 1) None None None [] None) in
  entryChanges
    <$> traitHistory (recordExperience "socialSuccess" 5 1 te)
  = [[mkTraitChange "chattiness" 1 (Qmax 0.1 (Qmin 0.9 (1 + 0.05)))
        "social success"]]
  ∧ Qmax 0.1 (Qmin 0.9 (1 + 0.05)) == 0.9.
Proof. split; [reflexivity|by vm_compute]. Qed.

End TraitEvolutionFacts.

(* ===================================================================== *)
(** ** Relationship manager *)
(* ===================================================================== *)

Module RelationshipManagerFacts.
Import JsString JsStringFacts Num NumFacts RelationshipManager.
Import RelationshipFacts TraitEvolutionFacts.
Open Scope Q_scope.

(** The record that [getRelationship] hands out. *)
Lemma getRelationship_record targetName isBot (m : t) :
  (getRelationship targetName isBot m).1
  = default (Relationship.new targetName isBot) (relationships m !! targetName).
Proof. unfold getRelationship. by destruct (relationships m !! targetName). Qed.

Lemma recordInteraction_spec targetName type details isBot now (m : t) :
  let old := (getRelationship targetName isBot m).1 in
  let out := recordInteraction targetName type details isBot now m in
  out.1.1 = Relationship.recordInteraction type details now old
  ∧ relationships out.1.2 = <[targetName := out.1.1]> (relationships m)
  ∧ botName out.1.2 = botName m.
Proof.
  cbv zeta. unfold recordInteraction, getRelationship.
  destruct (relationships m !! targetName) as [rel|] eqn:E; cbn.
  - done.
  - by rewrite insert_insert_eq.
Qed.

Lemma trackMessage_spec sender message isBot now (m : t) :
  let out := trackMessage sender message isBot now m in
  let rec := recordInteraction sender (analyzeMessage m sender message)
               (String.substring 0 50 message) isBot now m in
  out.1 = rec.1.
Proof.
  cbv zeta. unfold trackMessage.
  by destruct (recordInteraction _ _ _ _ _ _) as [[rel m'] effects].
Qed.

Lemma analyzeMessage_range (m : t) (sender message : string) :
  analyzeMessage m sender message
  ∈ ["thanked"; "complimented"; "insulted"; "dismissed"; "collaborated";
     "laughedTogether"; "chatted"].
Proof.
  unfold analyzeMessage. cbv zeta.
  repeat match goal with
         | |- context [if ?b then _ else _] => destruct b
         end; in_list.
Qed.


Lemma recordInteraction_target type details now (r : Relationship.t) :
  Relationship.target (Relationship.recordInteraction type details now r)
  = Relationship.target r.
Proof.
  unfold Relationship.recordInteraction. cbv zeta. by destruct (_ || _).
Qed.

Lemma recordInteraction_wellKept targetName type details isBot now (m : t) :
  wellKept m →
  wellKept (recordInteraction targetName type details isBot now m).1.2.
Proof.
  intros Hm k r.
  destruct (recordInteraction_spec targetName type details isBot now m)
    as (Hrec & Hmap & _). cbv zeta in *.
  rewrite Hmap, Hrec. clear Hrec Hmap.
  destruct (decide (k = targetName)) as [->|Hne].
  - rewrite lookup_insert_eq. intros [= <-].
    set (old := (getRelationship targetName isBot m).1).
    split; [|split].
    + rewrite recordInteraction_target. unfold old.
      rewrite getRelationship_record.
      destruct (relationships m !! targetName) as [rel|] eqn:E; cbn; [|done].
      by apply Hm in E as (? & _).
    + apply recordInteraction_inRange.
    + destruct (recordInteraction_counters type details now old) as (-> & _).
      lia.
  - rewrite lookup_insert_ne by done. apply Hm.
Qed.

Lemma decayAll_wellKept hours (m : t) :
  0 <= hours <= 200 → wellKept m → wellKept (decayAll hours m).
Proof.
  intros Hh Hm k r. unfold decayAll. cbn [relationships].
  rewrite lookup_fmap. destruct (relationships m !! k) as [rel|] eqn:E; [|done].
  cbn. intros [= <-]. apply Hm in E as (Ht & Hr & Hn).
  split; [done|]. split; [by apply decay_inRange|done].
Qed.

Lemma recordInteraction_traits targetName type details isBot now (m : t) :
  (TraitEvolution.traitsInBand
     (TraitEvolution.currentPersonality (traitEvolution m)) →
   TraitEvolution.traitsInBand
     (TraitEvolution.currentPersonality
        (traitEvolution (recordInteraction targetName type details isBot now m).1.2)))
  ∧ TraitEvolution.basePersonality
      (traitEvolution (recordInteraction targetName type details isBot now m).1.2)
    = TraitEvolution.basePersonality (traitEvolution m).
Proof.
  unfold recordInteraction, getRelationship.
  destruct (relationships m !! targetName); cbn [fst snd traitEvolution];
    destruct (experienceOf type); try done;
    (split; [by apply recordExperience_band|apply recordExperience_base]).
Qed.

(** What one operation keeps, whatever the operation. *)
Lemma step_frame (m : t) (op : Op) :
  (TraitEvolution.traitsInBand
     (TraitEvolution.currentPersonality (traitEvolution m)) →
   TraitEvolution.traitsInBand
     (TraitEvolution.currentPersonality (traitEvolution (step m op))))
  ∧ TraitEvolution.basePersonality (traitEvolution (step m op))
    = TraitEvolution.basePersonality (traitEvolution m)
  ∧ botName (step m op) = botName m.
Proof.
  destruct op as [target type details isBot now|sender message isBot now|hours];
    cbn [step].
  - destruct (recordInteraction_traits target type details isBot now m).
    by destruct (recordInteraction_spec target type details isBot now m)
      as (_ & _ & Hb).
  - pose proof (trackMessage_spec sender message isBot now m) as Hspec.
    cbv zeta in Hspec. rewrite Hspec.
    destruct (recordInteraction_traits sender (analyzeMessage m sender message)
                (String.substring 0 50 message) isBot now m).
    by destruct (recordInteraction_spec sender (analyzeMessage m sender message)
                   (String.substring 0 50 message) isBot now m) as (_ & _ & Hb).
  - done.
Qed.

Lemma step_wellKept (m : t) (op : Op) :
  moderate op → wellKept m → wellKept (step m op).
Proof.
  intros Hop Hm.
  destruct op as [target type details isBot now|sender message isBot now|hours];
    cbn [step].
  - by apply recordInteraction_wellKept.
  - pose proof (trackMessage_spec sender message isBot now m) as Hspec.
    cbv zeta in Hspec. rewrite Hspec. by apply recordInteraction_wellKept.
  - by apply decayAll_wellKept.
Qed.

Lemma new_wellKept name personality : wellKept (new name personality).
Proof. intros k r. cbn [new relationships]. by rewrite lookup_empty. Qed.

(** X15.  Starting from a new manager with nothing saved, after any
    sequence of recorded interactions (of plain types), tracked chat
    messages and decays over at most two hundred hours, every relationship
    is filed under the name of its target, has its metrics between -1 and 1
    and counts at least one interaction; the base personality and the name
    of the agent are kept, and the evolving traits are in their bands when
    those of the starting personality were. *)
Theorem ledger_is_well_kept (name : string)
  (personality : SoulState.Personality) (ops : list Op) :
  Forall moderate ops →
  let m := fold_left step ops (new name personality) in
  wellKept m
  ∧ TraitEvolution.basePersonality (traitEvolution m) = personality
  ∧ botName m = name
  ∧ (TraitEvolution.traitsInBand personality →
     TraitEvolution.traitsInBand
       (TraitEvolution.currentPersonality (traitEvolution m))).
Proof.
  cbv zeta. induction ops as [|op ops IH] using rev_ind; intros Hall.
  - split; [apply new_wellKept|]. split; [done|]. split; [done|]. by intros ?.
  - apply Forall_app in Hall as [Hops Hop]. apply Forall_cons in Hop as [Hop _].
    rewrite fold_left_app. cbn [fold_left].
    destruct (IH Hops) as (Hm & Hbase & Hname & Ht).
    destruct (step_frame (fold_left step ops (new name personality)) op)
      as (Ht' & Hb' & Hn').
    split; [by apply step_wellKept|]. split; [congruence|].
    split; [congruence|]. intros Hp. by apply Ht', Ht.
Qed.

Lemma ledger_is_well_kept_witness :
  let m := fold_left step
             [Track "Steve" "Thanks for the pickaxe" false 1;
              Interact "Alex" "attacked" "hit me" false 2;
              Interact "Alex" "sharedGoal" "built a base" false 3;
              Track "Bob" "lol nice one" true 4;
              DecayAll 24;
              Track "Steve" "you are useless" false 5]
             (new "Blaze" SoulState.emptyPersonality) in
  wellKept m
  ∧ TraitEvolution.basePersonality (traitEvolution m) = SoulState.emptyPersonality
  ∧ botName m = "Blaze"
  ∧ TraitEvolution.traitsInBand
      (TraitEvolution.currentPersonality (traitEvolution m)).
Proof.
  cbv zeta.
  match goal with
  | |- context [fold_left step ?ops (new ?name ?personality)] =>
      destruct (ledger_is_well_kept name personality ops)
        as (Hkept & Hbase & Hname & Htraits)
  end.
  - repeat constructor; cbn; lra.
  - split; [exact Hkept|]. split; [exact Hbase|]. split; [exact Hname|].
    apply Htraits. by repeat split.
Defined.


Lemma getRelationship_inRange sender isBot (m : t) :
  wellKept m → Relationship.inRange (getRelationship sender isBot m).1.
Proof.
  intros Hm. rewrite getRelationship_record.
  destruct (relationships m !! sender) as [rel|] eqn:E; cbn.
  - by apply Hm in E as (_ & ? & _).
  - apply new_inRange.
Qed.

Lemma trackMessage_filed sender message isBot now (m : t) :
  let old := (getRelationship sender isBot m).1 in
  let out := trackMessage sender message isBot now m in
  out.1.1 = Relationship.recordInteraction (analyzeMessage m sender message)
              (String.substring 0 50 message) now old
  ∧ relationships out.1.2 !! sender = Some out.1.1
  ∧ Relationship.totalInteractions out.1.1
    = S (Relationship.totalInteractions old)
  ∧ ∀ other, other ≠ sender →
      relationships out.1.2 !! other = relationships m !! other.
Proof.
  cbv zeta. rewrite trackMessage_spec.
  destruct (recordInteraction_spec sender (analyzeMessage m sender message)
              (String.substring 0 50 message) isBot now m) as (Hrec & Hmap & _).
  cbv zeta in *. rewrite Hmap. split; [done|].
  split; [by rewrite lookup_insert_eq|]. split.
  - rewrite Hrec.
    by destruct (recordInteraction_counters (analyzeMessage m sender message)
                   (String.substring 0 50 message) now
                   (getRelationship sender isBot m).1) as (-> & _).
  - intros other Hne. by rewrite lookup_insert_ne.
Qed.

Lemma Qmin_le_of_nonneg (a d : Q) : 0 <= d → Qmin a (a + d) == a.
Proof. intros H. apply Q.min_l. lra. Qed.

Lemma Qmax_le_of_nonpos (a d : Q) : d <= 0 → Qmax a (a + d) == a.
Proof. intros H. apply Q.max_l. lra. Qed.

Lemma trackMessage_moves sender message isBot now (m : t) :
  Relationship.inRange (getRelationship sender isBot m).1 →
  let old := (getRelationship sender isBot m).1 in
  let new := (trackMessage sender message isBot now m).1.1 in
  let k := Relationship.impactOf (analyzeMessage m sender message) in
  (Qmin (Relationship.trust old) (Relationship.trust old + Relationship.impactTrust k)
     <= Relationship.trust new
   ∧ Relationship.trust new
     <= Qmax (Relationship.trust old) (Relationship.trust old + Relationship.impactTrust k))
  ∧ (Qmin (Relationship.fondness old)
       (Relationship.fondness old + Relationship.impactFondness k)
       <= Relationship.fondness new
     ∧ Relationship.fondness new
       <= Qmax (Relationship.fondness old)
            (Relationship.fondness old + Relationship.impactFondness k))
  ∧ (Qmin (Relationship.respect old)
       (Relationship.respect old + Relationship.impactRespect k)
       <= Relationship.respect new
     ∧ Relationship.respect new
       <= Qmax (Relationship.respect old)
            (Relationship.respect old + Relationship.impactRespect k)).
Proof.
  intros (Ht & Hf & Hr). cbv zeta.
  destruct (trackMessage_filed sender message isBot now m) as (-> & _).
  destruct (recordInteraction_metrics (analyzeMessage m sender message)
              (String.substring 0 50 message) now
              (getRelationship sender isBot m).1) as (-> & -> & ->).
  repeat split; by apply applyChange_between.
Qed.

(** X16.  A chat message that contains thank (in any letter case) is
    classified as thanked, whatever else it says.  Tracking it files the
    record under its sender and counts one more interaction, and the
    records of all other names are left as they were.  When the sender's
    trust, fondness and respect were between -1 and 1, none of them is
    lowered. *)
Theorem thanks_never_lower_the_metrics (sender message : string) (isBot : bool)
  (now : Z) (m : t) :
  includes (toLowerCase message) "thank" = true →
  let old := (getRelationship sender isBot m).1 in
  let out := trackMessage sender message isBot now m in
  analyzeMessage m sender message = "thanked"
  ∧ relationships out.1.2 !! sender = Some out.1.1
  ∧ Relationship.totalInteractions out.1.1
    = S (Relationship.totalInteractions old)
  ∧ (∀ other, other ≠ sender →
       relationships out.1.2 !! other = relationships m !! other)
  ∧ (Relationship.inRange old →
     Relationship.trust old <= Relationship.trust out.1.1
     ∧ Relationship.fondness old <= Relationship.fondness out.1.1
     ∧ Relationship.respect old <= Relationship.respect out.1.1).
Proof.
  intros Hthank. cbv zeta.
  destruct (trackMessage_filed sender message isBot now m)
    as (_ & Hfiled & Htotal & Hframe). cbv zeta in *.
  assert (Htype : analyzeMessage m sender message = "thanked").
  { unfold analyzeMessage. cbv zeta. by rewrite Hthank. }
  split; [done|]. split; [done|]. split; [done|]. split; [done|].
  intros Hrange.
  destruct (trackMessage_moves sender message isBot now m Hrange)
    as ((Ht & _) & (Hf & _) & (Hr & _)).
  cbv zeta in *. rewrite Htype in Ht, Hf, Hr.
  rewrite Qmin_le_of_nonneg in Ht, Hf, Hr by (cbn; lra).
  by repeat split.
Qed.

(** Thanks that come with an insult, from a sender who was rude before. *)
Lemma thanks_never_lower_the_metrics_witness :
  let m := (trackMessage "Steve" "you are useless" false 1
              (new "Blaze" SoulState.emptyPersonality)).1.2 in
  let old := (getRelationship "Steve" false m).1 in
  let out := trackMessage "Steve" "Thanks for nothing, idiot" false 2 m in
  analyzeMessage m "Steve" "Thanks for nothing, idiot" = "thanked"
  ∧ relationships out.1.2 !! "Steve" = Some out.1.1
  ∧ Relationship.totalInteractions out.1.1
    = S (Relationship.totalInteractions old)
  ∧ Relationship.trust old <= Relationship.trust out.1.1
  ∧ Relationship.fondness old <= Relationship.fondness out.1.1
  ∧ Relationship.respect old <= Relationship.respect out.1.1.
Proof.
  destruct (thanks_never_lower_the_metrics "Steve" "Thanks for nothing, idiot"
              false 2
              (trackMessage "Steve" "you are useless" false 1
                 (new "Blaze" SoulState.emptyPersonality)).1.2)
    as (Htype & Hfiled & Htotal & _ & Hmetrics); [reflexivity|].
  split; [exact Htype|]. split; [exact Hfiled|]. split; [exact Htotal|].
  apply Hmetrics.
  apply getRelationship_inRange.
  apply (step_wellKept (new "Blaze" SoulState.emptyPersonality)
           (Track "Steve" "you are useless" false 1) I).
  apply new_wellKept.
Defined.

(** An insult without thanks or praise raises none of the sender's
    metrics, counts as negative and becomes the newest memory. *)
Lemma insults_never_raise_the_metrics (sender message : string) (isBot : bool)
  (now : Z) (m : t) :
  wellKept m →
  existsb (includes (toLowerCase message)) ["stupid"; "idiot"; "useless"] = true →
  existsb (includes (toLowerCase message)) ["thank"; "good job"; "nice"; "awesome"]
  = false →
  let old := (getRelationship sender isBot m).1 in
  let out := trackMessage sender message isBot now m in
  Relationship.trust out.1.1 <= Relationship.trust old
  ∧ Relationship.fondness out.1.1 <= Relationship.fondness old
  ∧ Relationship.respect out.1.1 <= Relationship.respect old
  ∧ Relationship.negativeInteractions out.1.1
    = S (Relationship.negativeInteractions old)
  ∧ ∃ memory, last (Relationship.memories out.1.1) = Some memory
              ∧ Relationship.memoryType memory = "insulted"
              ∧ Relationship.memoryTimestamp memory = now.
Proof.
  intros Hm Hins Hpraise. cbv zeta.
  assert (Htype : analyzeMessage m sender message = "insulted").
  { assert (Hthanks : includes (toLowerCase message) "thanks" = true →
                      includes (toLowerCase message) "thank" = true).
    { rewrite !includes_spec. intros (a & b & E).
      exists a, ("s" +:+ b). rewrite E. reflexivity. }
    unfold analyzeMessage. cbv zeta. cbn [existsb] in Hins, Hpraise.
    destruct (includes (toLowerCase message) "thank"); [done|].
    destruct (includes (toLowerCase message) "thanks"); [by specialize (Hthanks eq_refl)|].
    destruct (includes (toLowerCase message) "good job"); [done|].
    destruct (includes (toLowerCase message) "nice"); [done|].
    destruct (includes (toLowerCase message) "awesome"); [done|].
    cbn [orb].
    destruct (includes (toLowerCase message) "stupid"); [done|].
    destruct (includes (toLowerCase message) "idiot"); [done|].
    by destruct (includes (toLowerCase message) "useless"). }
  destruct (trackMessage_moves sender message isBot now m
              (getRelationship_inRange sender isBot m Hm))
    as ((_ & Ht) & (_ & Hf) & (_ & Hr)).
  cbv zeta in *. rewrite Htype in Ht, Hf, Hr.
  rewrite Qmax_le_of_nonpos in Ht, Hf, Hr by (cbn; lra).
  split; [done|]. split; [done|]. split; [done|].
  destruct (trackMessage_filed sender message isBot now m) as (-> & _).
  rewrite Htype. set (old := (getRelationship sender isBot m).1).
  split.
  - unfold Relationship.recordInteraction. cbv zeta.
    by destruct (_ || _).
  - destruct (recordInteraction_memories "insulted"
                (String.substring 0 50 message) now old) as (r1 & _ & ->).
    change (Relationship.significant "insulted") with true. cbn match.
    destruct (addMemory_last "insulted" (String.substring 0 50 message) now r1)
      as (mem & Hlast & Hty & _ & Hts).
    by exists mem.
Qed.


End RelationshipManagerFacts.

(* ===================================================================== *)
(** ** Command relay *)
(* ===================================================================== *)

Module CommandRelayFacts.
Import JsString JsStringFacts CommandRelay.

Lemma subCommandId_inj (commandId : string) (i j : nat) :
  subCommandId commandId i = subCommandId commandId j → i = j.
Proof.
  unfold subCommandId. intros H.
  apply (inj (String.app commandId)) in H.
  apply (inj (String.app "-")) in H.
  by apply (inj pretty) in H.
Qed.

Lemma routeCommand_unregistered leaderName workerName command args commandId
  now (r : t) :
  workers r !! workerName = None →
  routeCommand leaderName workerName command args commandId now r
  = (mkResult false (Some "Worker not found") None, r, []).
Proof. unfold routeCommand. by intros ->. Qed.

Lemma routeCommand_assigned leaderName workerName command args commandId now
  (r : t) (worker : WorkerRecord) :
  workers r !! workerName = Some worker → leader worker = leaderName →
  routeCommand leaderName workerName command args commandId now r
  = (mkResult true None (Some commandId),
     withQueue r
       (<[commandId := mkCommand leaderName workerName command args now "sent"]>
          (commandQueue r)),
     [EmitWorkerCommand (socket worker) command args commandId]).
Proof.
  unfold routeCommand. intros -> <-. by rewrite String.eqb_refl.
Qed.

Lemma registerWorker_idempotent workerName leaderName sock now (r : t) :
  workersByLeader
    (registerWorker workerName leaderName sock now
       (registerWorker workerName leaderName sock now r)) !! leaderName
  = workersByLeader (registerWorker workerName leaderName sock now r)
      !! leaderName.
Proof.
  unfold registerWorker. cbn [workersByLeader].
  rewrite !lookup_insert_eq. cbn [default from_option id].
  set (ws := default [] (workersByLeader r !! leaderName)).
  destruct (decide (workerName ∈ ws)) as [Hin|Hout].
  - by rewrite !(bool_decide_true _ Hin).
  - rewrite (bool_decide_false _ Hout).
    rewrite bool_decide_true; [done|]. set_solver.
Qed.

(** C10.  [updateWorkerStatus] for a worker name without a worker record
    does nothing: the relay is returned as it was (no worker record appears,
    every command record keeps its fields) and nothing is emitted or
    scheduled, so no leader is notified. *)
Theorem status_of_unknown_worker_is_ignored workerName report now (r : t) :
  workers r !! workerName = None →
  let out := updateWorkerStatus workerName report now r in
  out.1 = r
  ∧ workers out.1 !! workerName = None
  ∧ commandQueue out.1 = commandQueue r
  ∧ out.2 = [].
Proof.
  intros Hnone. cbn zeta. unfold updateWorkerStatus. rewrite Hnone. cbn.
  by repeat split.
Qed.

Lemma status_of_unknown_worker_is_ignored_witness :
  let r := (routeCommand "Lead" "w0" "mine" ["stone"] "Lead-w0-17" 50
              threeWorkers).1.2 in
  let report := mkStatus "completed" None (Some 3%Q) None (Some "Lead-w0-17") in
  let out := updateWorkerStatus "ghost" report 60 r in
  (cmdStatus <$> commandQueue r !! "Lead-w0-17") = Some "sent"
  ∧ out.1 = r
  ∧ (cmdStatus <$> commandQueue out.1 !! "Lead-w0-17") = Some "sent"
  ∧ out.2 = [].
Proof.
  cbn zeta.
  match goal with
  | |- context [updateWorkerStatus ?w ?rep ?n ?r] =>
      destruct (status_of_unknown_worker_is_ignored w rep n r)
        as (Hsame & _ & _ & Hquiet); [reflexivity|]
  end.
  split; [reflexivity|]. split; [exact Hsame|].
  split; [rewrite Hsame; reflexivity|exact Hquiet].
Defined.

(** *** Invariants of the relay, and the life of a command *)

Lemma removeFirst_other (x y : string) (l : list string) :
  y ≠ x → y ∈ removeFirst x l ↔ y ∈ l.
Proof.
  intros Hne. induction l as [|z l IH]; [done|]. cbn.
  destruct (String.eqb_spec z x) as [->|Hz].
  - rewrite elem_of_cons. split; [by right|]. by intros [?|?].
  - by rewrite !elem_of_cons, IH.
Qed.

Lemma removeFirst_subset (x y : string) (l : list string) :
  y ∈ removeFirst x l → y ∈ l.
Proof.
  induction l as [|z l IH]; [done|]. cbn.
  destruct (String.eqb_spec z x) as [->|Hz].
  - apply list_elem_of_further.
  - rewrite !elem_of_cons. intros [?|?]; [by left|right; by apply IH].
Qed.

Lemma removeFirst_NoDup (x : string) (l : list string) :
  NoDup l → NoDup (removeFirst x l).
Proof.
  induction 1 as [|z l Hz Hl IH]; [constructor|]. cbn.
  destruct (String.eqb_spec z x) as [->|Hne]; [done|].
  constructor; [|done]. intros Hin. by apply removeFirst_subset in Hin.
Qed.

Lemma removeFirst_absent (x : string) (l : list string) :
  x ∉ l → removeFirst x l = l.
Proof.
  induction l as [|z l IH]; [done|]. cbn. rewrite not_elem_of_cons.
  intros [Hne Hl]. destruct (String.eqb_spec z x) as [->|_]; [done|].
  by rewrite IH.
Qed.

Lemma removeFirst_snoc (x : string) (l : list string) :
  x ∉ l → removeFirst x (l ++ [x]) = l.
Proof.
  induction l as [|z l IH]; cbn.
  - by rewrite String.eqb_refl.
  - rewrite not_elem_of_cons. intros [Hne Hl].
    destruct (String.eqb_spec z x) as [->|_]; [done|]. by rewrite IH.
Qed.

Lemma empty_consistent : consistent empty.
Proof.
  split.
  - intros w worker. cbn. by rewrite lookup_empty.
  - intros leaderName. unfold getWorkersForLeader. cbn.
    rewrite lookup_empty. constructor.
Qed.

Lemma registerWorker_consistent workerName leaderName sock now (r : t) :
  consistent r → consistent (registerWorker workerName leaderName sock now r).
Proof.
  intros [Hreg Hnd]. unfold consistent, getWorkersForLeader in *.
  unfold registerWorker. cbn [workers workersByLeader].
  set (ws := default [] (workersByLeader r !! leaderName)).
  split.
  - intros w worker. destruct (decide (w = workerName)) as [->|Hne].
    + rewrite lookup_insert_eq. intros [= <-]. cbn [leader].
      rewrite lookup_insert_eq. cbn.
      destruct (decide (workerName ∈ ws)) as [Hin|Hout].
      * by rewrite bool_decide_true.
      * rewrite bool_decide_false by done. apply elem_of_app. right.
        apply list_elem_of_here.
    + rewrite lookup_insert_ne by done. intros Hw.
      specialize (Hreg w worker Hw).
      destruct (decide (leader worker = leaderName)) as [Hl|Hl].
      * rewrite Hl in *. rewrite lookup_insert_eq. cbn. fold ws in Hreg.
        destruct (bool_decide _); [done|]. apply elem_of_app. by left.
      * by rewrite lookup_insert_ne.
  - intros l. destruct (decide (l = leaderName)) as [->|Hl].
    + rewrite lookup_insert_eq. cbn. specialize (Hnd leaderName). fold ws in Hnd.
      destruct (decide (workerName ∈ ws)) as [Hin|Hout].
      * by rewrite bool_decide_true.
      * rewrite bool_decide_false by done.
        apply NoDup_app. split; [done|]. split; [|apply NoDup_singleton].
        intros x Hx Hx'. apply list_elem_of_singleton in Hx'. by subst.
    + rewrite lookup_insert_ne by done. apply Hnd.
Qed.


Lemma registerLeader_lists leaderName sock (r : t) (l : string) :
  getWorkersForLeader l (registerLeader leaderName sock r)
  = getWorkersForLeader l r.
Proof.
  unfold getWorkersForLeader, registerLeader. cbn [workersByLeader].
  destruct (workersByLeader r !! leaderName) as [ws|] eqn:E; [done|].
  destruct (decide (l = leaderName)) as [->|Hl].
  - by rewrite lookup_insert_eq, E.
  - by rewrite lookup_insert_ne.
Qed.

Lemma registerLeader_consistent leaderName sock (r : t) :
  consistent r → consistent (registerLeader leaderName sock r).
Proof.
  intros [Hreg Hnd]. split.
  - intros w worker Hw. rewrite registerLeader_lists. by apply Hreg.
  - intros l. rewrite registerLeader_lists. apply Hnd.
Qed.

Lemma removeWorker_consistent workerName (r : t) :
  consistent r → consistent (removeWorker workerName r).
Proof.
  intros [Hreg Hnd]. unfold removeWorker.
  destruct (workers r !! workerName) as [worker|] eqn:E; [|done].
  unfold consistent, getWorkersForLeader in *. cbn [workers workersByLeader].
  destruct (workersByLeader r !! leader worker) as [ws|] eqn:El.
  - split.
    + intros w rec. destruct (decide (w = workerName)) as [->|Hne].
      { by rewrite lookup_delete_eq. }
      rewrite lookup_delete_ne by done. intros Hw.
      specialize (Hreg w rec Hw).
      destruct (decide (leader rec = leader worker)) as [Hl|Hl].
      * rewrite Hl in *. rewrite lookup_insert_eq. rewrite El in Hreg. cbn in *.
        by apply removeFirst_other.
      * by rewrite lookup_insert_ne.
    + intros l. destruct (decide (l = leader worker)) as [->|Hl].
      * rewrite lookup_insert_eq. cbn. apply removeFirst_NoDup.
        specialize (Hnd (leader worker)). by rewrite El in Hnd.
      * rewrite lookup_insert_ne by done. apply Hnd.
  - split; [|done].
    intros w rec. destruct (decide (w = workerName)) as [->|Hne].
    { by rewrite lookup_delete_eq. }
    rewrite lookup_delete_ne by done. apply Hreg.
Qed.

Lemma routeCommand_frame leaderName workerName command args commandId now (r : t) :
  let out := routeCommand leaderName workerName command args commandId now r in
  workers out.1.2 = workers r ∧ leaders out.1.2 = leaders r
  ∧ workersByLeader out.1.2 = workersByLeader r.
Proof.
  cbv zeta. unfold routeCommand.
  destruct (workers r !! workerName) as [worker|]; [|done].
  by destruct (negb _).
Qed.

Lemma routeGroupFrom_frame leaderName command args commandId now
  (names : list string) :
  ∀ (idx : nat) (r : t),
    let out := routeGroupFrom leaderName command args commandId now idx names r in
    workers out.1.2 = workers r ∧ leaders out.1.2 = leaders r
    ∧ workersByLeader out.1.2 = workersByLeader r.
Proof.
  induction names as [|w names IH]; intros idx r; [done|].
  cbn [routeGroupFrom].
  pose proof (routeCommand_frame leaderName w command args
                (subCommandId commandId idx) now r) as Hf.
  destruct (routeCommand _ _ _ _ _ _ _) as [[res r1] e1]. cbn [fst snd] in Hf.
  specialize (IH (S idx) r1).
  destruct (routeGroupFrom _ _ _ _ _ _ _ _) as [[results r2] e2].
  cbn [fst snd] in *. destruct Hf as (? & ? & ?), IH as (? & ? & ?).
  repeat split; congruence.
Qed.

Lemma updateWorkerStatus_frame workerName report now (r : t) :
  let out := updateWorkerStatus workerName report now r in
  leaders out.1 = leaders r
  ∧ workersByLeader out.1 = workersByLeader r
  ∧ dom (workers out.1) = dom (workers r)
  ∧ ∀ w, leader <$> workers out.1 !! w = leader <$> workers r !! w.
Proof.
  cbv zeta. unfold updateWorkerStatus.
  destruct (workers r !! workerName) as [worker|] eqn:E; [|done].
  destruct (match reportCommandId report with
            | Some (String a id) => _ | _ => _ end) as [queue' cl].
  cbn [fst leaders workersByLeader workers].
  split; [done|]. split; [done|]. split.
  - apply dom_insert_lookup_L. by eexists.
  - intros w. destruct (decide (w = workerName)) as [->|Hne].
    + by rewrite lookup_insert_eq, E.
    + by rewrite lookup_insert_ne.
Qed.

Lemma consistent_frame (r r' : t) :
  workersByLeader r' = workersByLeader r →
  (∀ w, leader <$> workers r' !! w = leader <$> workers r !! w) →
  consistent r → consistent r'.
Proof.
  intros Hl Hw [Hreg Hnd]. unfold consistent, getWorkersForLeader in *.
  rewrite Hl. split; [|done].
  intros w worker Hlook. specialize (Hw w). rewrite Hlook in Hw. cbn in Hw.
  destruct (workers r !! w) as [rec|] eqn:E; [|done].
  injection Hw as ->. by apply (Hreg w rec).
Qed.

Lemma step_consistent (r : t) (op : Op) : consistent r → consistent (step r op).
Proof.
  intros Hr. destruct op; cbn [step].
  - by apply registerWorker_consistent.
  - by apply registerLeader_consistent.
  - by apply removeWorker_consistent.
  - revert Hr. by apply consistent_frame.
  - destruct (routeCommand_frame leaderName workerName command args commandId
                now r) as (Hw & _ & Hl).
    revert Hr. apply consistent_frame; [done|]. intros w. by rewrite Hw.
  - destruct (routeGroupFrom_frame leaderName command args commandId now
                (default [] (workersByLeader r !! leaderName)) 0 r)
      as (Hw & _ & Hl).
    revert Hr. apply consistent_frame; [done|]. intros w.
    unfold routeGroupCommand. by rewrite Hw.
  - destruct (updateWorkerStatus_frame workerName report now r)
      as (_ & Hl & _ & Hw).
    revert Hr. by apply consistent_frame.
  - revert Hr. by apply consistent_frame.
Qed.

(** X17.  After any sequence of registrations, removals, routed
    commands, status updates and clean-ups on a new relay, every registered
    worker is in the list of the leader it is registered with, and no
    leader's list names a worker twice. *)
Theorem relay_lists_every_registered_worker_once (ops : list Op) :
  let r := fold_left step ops empty in
  (∀ w worker, workers r !! w = Some worker →
               w ∈ getWorkersForLeader (leader worker) r)
  ∧ (∀ leaderName, NoDup (getWorkersForLeader leaderName r)).
Proof.
  cbv zeta. change (consistent (fold_left step ops empty)).
  induction ops as [|op ops IH] using rev_ind; [apply empty_consistent|].
  rewrite fold_left_app. by apply step_consistent.
Qed.


Lemma routeCommand_success leaderName workerName command args commandId now (r : t) :
  success (routeCommand leaderName workerName command args commandId now r).1.1
  = registeredWith r leaderName workerName
  ∧ length (routeCommand leaderName workerName command args commandId now r).2
    = (if registeredWith r leaderName workerName then 1 else 0)%nat.
Proof.
  unfold routeCommand, registeredWith.
  destruct (workers r !! workerName) as [worker|]; [|done].
  by destruct (String.eqb (leader worker) leaderName).
Qed.

Lemma registeredWith_frame (r r' : t) leaderName workerName :
  workers r' = workers r →
  registeredWith r' leaderName workerName = registeredWith r leaderName workerName.
Proof. unfold registeredWith. by intros ->. Qed.

Lemma routeGroupFrom_reached leaderName command args commandId now
  (names : list string) :
  ∀ (idx : nat) (r : t),
    let out := routeGroupFrom leaderName command args commandId now idx names r in
    reached out.1.1 = List.filter (registeredWith r leaderName) names
    ∧ length out.2 = length (List.filter (registeredWith r leaderName) names).
Proof.
  induction names as [|w names IH]; intros idx r; [done|].
  cbn [routeGroupFrom List.filter].
  pose proof (routeCommand_success leaderName w command args
                (subCommandId commandId idx) now r) as [Hs Hl].
  pose proof (routeCommand_frame leaderName w command args
                (subCommandId commandId idx) now r) as (Hw & _).
  destruct (routeCommand _ _ _ _ _ _ _) as [[res r1] e1]. cbn [fst snd] in *.
  specialize (IH (S idx) r1).
  destruct (routeGroupFrom _ _ _ _ _ _ _ _) as [[results r2] e2].
  cbn [fst snd] in *. destruct IH as [IHr IHl].
  assert (Hsame : List.filter (registeredWith r1 leaderName) names
                  = List.filter (registeredWith r leaderName) names).
  { apply List.filter_ext. intros x. by apply registeredWith_frame. }
  rewrite Hsame in IHr, IHl.
  unfold reached in *. cbn [List.filter snd]. rewrite Hs, List.length_app, Hl.
  destruct (registeredWith r leaderName w); cbn; split; congruence.
Qed.

(** X18.  In such a relay a group command reaches exactly the workers
    that are registered with the leader at that moment, each of them once:
    the successful results name those workers and no others, without
    repetition, and one command is emitted per successful result.  Names
    left in the list by a worker that registered elsewhere get a failure
    and no command. *)
Theorem group_command_reaches_exactly_the_registered_workers
  leaderName command args commandId now (r : t) :
  consistent r →
  let out := routeGroupCommand leaderName command args commandId now r in
  (∀ w, w ∈ reached out.1.1 ↔ registeredWith r leaderName w = true)
  ∧ NoDup (reached out.1.1)
  ∧ length out.2 = length (reached out.1.1).
Proof.
  intros [Hreg Hnd]. cbv zeta. unfold routeGroupCommand.
  destruct (routeGroupFrom_reached leaderName command args commandId now
              (default [] (workersByLeader r !! leaderName)) 0 r) as [Hr Hl].
  cbv zeta in *. rewrite Hr, Hl. split; [|split; [|done]].
  - intros w. rewrite list_elem_of_In, List.filter_In, <- list_elem_of_In.
    split; [by intros [_ ?]|]. intros Hw. split; [|done].
    unfold registeredWith in Hw.
    destruct (workers r !! w) as [worker|] eqn:E; [|done].
    apply String.eqb_eq in Hw as <-. by apply Hreg.
  - apply NoDup_ListNoDup, List.NoDup_filter, NoDup_ListNoDup, Hnd.
Qed.

Lemma group_command_reaches_exactly_the_registered_workers_witness :
  let r := registerWorker "w0" "Other" 10%nat 4 threeWorkers in
  let out := routeGroupCommand "Lead" "mine" ["stone"] "Lead-group-17" 50 r in
  (∀ w, w ∈ reached out.1.1 ↔ registeredWith r "Lead" w = true)
  ∧ NoDup (reached out.1.1)
  ∧ length out.2 = length (reached out.1.1).
Proof.
  apply (group_command_reaches_exactly_the_registered_workers
           "Lead" "mine" ["stone"] "Lead-group-17" 50
           (registerWorker "w0" "Other" 10%nat 4 threeWorkers)).
  repeat apply registerWorker_consistent.
  apply registerLeader_consistent, empty_consistent.
Defined.


Lemma routeCommand_cases leaderName workerName command args commandId now (r : t) :
  let out := routeCommand leaderName workerName command args commandId now r in
  if registeredWith r leaderName workerName
  then out.1.1 = mkResult true None (Some commandId)
       ∧ commandQueue out.1.2
         = <[commandId := mkCommand leaderName workerName command args now "sent"]>
             (commandQueue r)
  else (∃ e, out.1.1 = mkResult false (Some e) None) ∧ out.1.2 = r ∧ out.2 = [].
Proof.
  cbv zeta. unfold routeCommand, registeredWith.
  destruct (workers r !! workerName) as [worker|]; [|by eauto].
  destruct (String.eqb (leader worker) leaderName); cbn; by eauto.
Qed.

Lemma routeCommand_result_frame leaderName workerName command args commandId now
  (r r' : t) :
  workers r' = workers r →
  (routeCommand leaderName workerName command args commandId now r').1.1
  = (routeCommand leaderName workerName command args commandId now r).1.1.
Proof.
  intros Hw. unfold routeCommand. rewrite Hw.
  destruct (workers r !! workerName) as [worker|]; [|done].
  by destruct (negb _).
Qed.

Lemma elem_of_idsFrom (commandId : string) (live : string → bool)
  (names : list string) :
  ∀ (idx : nat) (k : string),
    k ∈ idsFrom commandId live idx names
    ↔ ∃ i w, names !! i = Some w ∧ live w = true
             ∧ k = subCommandId commandId (idx + i).
Proof.
  induction names as [|w rest IH]; intros idx k; cbn [idsFrom].
  - split; [by intros ?%elem_of_nil|]. by intros (i & x & ? & _).
  - rewrite elem_of_app, IH. split.
    + intros [Hhead|(i & x & Hx & Hlive & ->)].
      * destruct (live w) eqn:E; [|by apply elem_of_nil in Hhead].
        apply list_elem_of_singleton in Hhead as ->.
        exists 0, w. by rewrite Nat.add_0_r.
      * exists (S i), x. repeat split; [done..|]. f_equal. lia.
    + intros ([|i] & x & Hx & Hlive & ->).
      * cbn in Hx. injection Hx as ->. left. rewrite Hlive, Nat.add_0_r.
        apply list_elem_of_here.
      * right. exists i, x. repeat split; [done..|]. f_equal. lia.
Qed.

Lemma idsFrom_NoDup (commandId : string) (live : string → bool)
  (names : list string) :
  ∀ idx, NoDup (idsFrom commandId live idx names).
Proof.
  induction names as [|w rest IH]; intros idx; cbn [idsFrom]; [constructor|].
  destruct (live w); cbn [app]; [|apply IH].
  constructor; [|apply IH].
  intros (i & x & _ & _ & Heq)%elem_of_idsFrom.
  apply subCommandId_inj in Heq. lia.
Qed.

Lemma idsFrom_length (commandId : string) (live : string → bool)
  (names : list string) :
  ∀ idx, length (idsFrom commandId live idx names)
         = length (List.filter live names).
Proof.
  induction names as [|w rest IH]; intros idx; [done|].
  cbn [idsFrom List.filter]. rewrite List.length_app, IH.
  by destruct (live w).
Qed.

Lemma idsFrom_all (commandId : string) (live : string → bool)
  (names : list string) :
  ∀ idx, Forall (λ w, live w = true) names →
         idsFrom commandId live idx names
         = subCommandId commandId <$> seq idx (length names).
Proof.
  induction names as [|w rest IH]; intros idx Hall; [done|].
  apply Forall_cons in Hall as [Hw Hrest].
  cbn [idsFrom length seq fmap list_fmap]. rewrite Hw. cbn [app].
  f_equal. by apply IH.
Qed.

Lemma registeredWith_ext (r r' : t) leaderName :
  workers r' = workers r →
  ∀ w, registeredWith r' leaderName w = registeredWith r leaderName w.
Proof. intros Hw w. by apply registeredWith_frame. Qed.

Lemma idsFrom_ext (commandId : string) (live live' : string → bool)
  (names : list string) :
  (∀ w, live w = live' w) →
  ∀ idx, idsFrom commandId live idx names = idsFrom commandId live' idx names.
Proof.
  intros Hext. induction names as [|w rest IH]; intros idx; [done|].
  cbn [idsFrom]. by rewrite Hext, IH.
Qed.

(** The group loop, position by position. *)
Lemma routeGroupFrom_positions leaderName command args commandId now
  (names : list string) :
  ∀ (idx : nat) (r : t),
    let live := registeredWith r leaderName in
    let out := routeGroupFrom leaderName command args commandId now idx names r in
    out.1.1
    = imap (λ i w, (w, (routeCommand leaderName w command args
                          (subCommandId commandId (idx + i)) now r).1.1)) names
    ∧ (∀ i w, names !! i = Some w → live w = true →
         commandQueue out.1.2 !! subCommandId commandId (idx + i)
         = Some (mkCommand leaderName w command args now "sent"))
    ∧ (∀ k, (k ∉ idsFrom commandId live idx names) →
         commandQueue out.1.2 !! k = commandQueue r !! k).
Proof.
  induction names as [|w rest IH]; intros idx r; cbn zeta.
  { cbn. by repeat split. }
  cbn [routeGroupFrom].
  pose proof (routeCommand_cases leaderName w command args
                (subCommandId commandId idx) now r) as Hcase.
  pose proof (routeCommand_frame leaderName w command args
                (subCommandId commandId idx) now r) as (Hw & _).
  cbv zeta in Hcase.
  destruct (routeCommand leaderName w command args (subCommandId commandId idx)
              now r) as [[result r1] effects1] eqn:Hroute.
  cbn [fst snd] in *.
  specialize (IH (S idx) r1). cbn zeta in IH.
  destruct (routeGroupFrom leaderName command args commandId now (S idx) rest r1)
    as [[results r2] effects2].
  cbn [fst snd] in *. destruct IH as (Hres & Hnew & Hold).
  rewrite (idsFrom_ext commandId _ (registeredWith r leaderName) rest
             (registeredWith_ext r r1 leaderName Hw)) in Hold.
  split; [|split].
  - cbn [imap]. rewrite Nat.add_0_r, Hroute. cbn [fst snd]. f_equal.
    rewrite Hres. apply imap_ext. intros i x _. cbn.
    rewrite (routeCommand_result_frame _ _ _ _ _ _ r r1 Hw).
    do 5 f_equal. lia.
  - intros [|i] x Hx Hlive.
    + cbn in Hx. injection Hx as <-. rewrite Nat.add_0_r.
      rewrite Hlive in Hcase. destruct Hcase as [_ Hq].
      rewrite Hold.
      * rewrite Hq. apply lookup_insert_eq.
      * intros (j & y & _ & _ & Heq)%elem_of_idsFrom.
        apply subCommandId_inj in Heq. lia.
    + cbn in Hx. replace (idx + S i) with (S idx + i) by lia.
      apply Hnew; [done|]. by rewrite (registeredWith_ext r r1 leaderName Hw).
  - intros k Hk. cbn [idsFrom] in Hk.
    rewrite Hold by (intros Hin; apply Hk, elem_of_app; by right).
    destruct (registeredWith r leaderName w) eqn:Hlive.
    + destruct Hcase as [_ ->]. apply lookup_insert_ne.
      intros <-. apply Hk, elem_of_app. left. apply list_elem_of_here.
    + by destruct Hcase as (_ & -> & _).
Qed.

Lemma elem_of_assignedWorkers (r : t) (leaderName w : string) :
  w ∈ assignedWorkers r leaderName ↔ registeredWith r leaderName w = true.
Proof.
  unfold assignedWorkers, registeredWith.
  rewrite elem_of_dom. split.
  - intros [worker (Hw & Hl)%map_lookup_filter_Some]. rewrite Hw.
    cbn in Hl. by apply String.eqb_eq.
  - destruct (workers r !! w) as [worker|] eqn:E; [|done].
    intros Hl%String.eqb_eq. exists worker.
    by apply map_lookup_filter_Some.
Qed.

Lemma consistent_count (r : t) (leaderName : string) :
  consistent r →
  length (List.filter (registeredWith r leaderName)
            (getWorkersForLeader leaderName r))
  = size (assignedWorkers r leaderName).
Proof.
  intros [Hreg Hnd].
  set (l := List.filter _ _).
  assert (Hl : NoDup l).
  { apply NoDup_ListNoDup, List.NoDup_filter, NoDup_ListNoDup, Hnd. }
  rewrite <- (size_list_to_set (C := gset string) l Hl). f_equal.
  apply set_eq. intros w.
  rewrite elem_of_list_to_set, elem_of_assignedWorkers.
  unfold l. rewrite list_elem_of_In, List.filter_In, <- list_elem_of_In.
  split; [by intros [_ ?]|]. intros Hw. split; [|done].
  unfold registeredWith in Hw.
  destruct (workers r !! w) as [worker|] eqn:E; [|done].
  apply String.eqb_eq in Hw as <-. by apply Hreg.
Qed.

(** C5 (amended).  [routeCommand] to a worker name that is not registered
    returns a failure, leaves the relay (hence the command queue) unchanged
    and emits nothing.  [routeGroupCommand] returns one result per name of
    the leader's list and numbers them by position: the name at position
    [i] is routed under [commandId-i].  A name whose worker is registered
    with the leader gets a successful result and a [sent] record under that
    identifier; any other name gets a failure and no record.  So the
    identifiers recorded are those of the positions of the currently
    assigned workers: they are distinct, no other entry of the queue
    changes, one command is emitted per record, and the queue grows by
    their number when they are new.  In a relay whose lists name every
    registered worker once (every relay built by the relay's own methods)
    that number is the number [N] of workers currently assigned to the
    leader.  When every name of the list is currently assigned, the
    identifiers are [commandId-0] ... [commandId-(N-1)]. *)
Theorem relay_routing leaderName command args commandId now (r : t) :
  let names := getWorkersForLeader leaderName r in
  let ids := recordedIds commandId leaderName r in
  let out := routeGroupCommand leaderName command args commandId now r in
  (∀ workerName,
     workers r !! workerName = None →
     routeCommand leaderName workerName command args commandId now r
     = (mkResult false (Some "Worker not found") None, r, []))
  ∧ length out.1.1 = length names
  ∧ (∀ i w, names !! i = Some w →
       if registeredWith r leaderName w
       then out.1.1 !! i
            = Some (w, mkResult true None (Some (subCommandId commandId i)))
            ∧ commandQueue out.1.2 !! subCommandId commandId i
              = Some (mkCommand leaderName w command args now "sent")
       else (∃ e, out.1.1 !! i = Some (w, mkResult false (Some e) None))
            ∧ commandQueue out.1.2 !! subCommandId commandId i
              = commandQueue r !! subCommandId commandId i)
  ∧ (∀ k, (k ∉ ids) → commandQueue out.1.2 !! k = commandQueue r !! k)
  ∧ dom (commandQueue out.1.2) = dom (commandQueue r) ∪ list_to_set ids
  ∧ NoDup ids
  ∧ length out.2 = length ids
  ∧ ((∀ k, k ∈ ids → commandQueue r !! k = None) →
     size (commandQueue out.1.2) = size (commandQueue r) + length ids)
  ∧ (consistent r → length ids = size (assignedWorkers r leaderName))
  ∧ (Forall (λ w, registeredWith r leaderName w = true) names →
     ids = subCommandId commandId <$> seq 0 (length names)).
Proof.
  cbv zeta. unfold recordedIds, routeGroupCommand.
  fold (getWorkersForLeader leaderName r).
  set (names := getWorkersForLeader leaderName r).
  set (ids := idsFrom commandId (registeredWith r leaderName) 0 names).
  pose proof (routeGroupFrom_positions leaderName command args commandId now
                names 0 r) as (Hres & Hnew & Hold).
  pose proof (routeGroupFrom_reached leaderName command args commandId now
                names 0 r) as [_ Hlen].
  cbv zeta in *. cbn [Nat.add] in Hres, Hnew. fold ids in Hold.
  set (out := routeGroupFrom leaderName command args commandId now 0 names r) in *.
  assert (Hdom : dom (commandQueue out.1.2)
                 = dom (commandQueue r) ∪ list_to_set ids).
  { apply set_eq. intros k.
    rewrite elem_of_union, !elem_of_dom, elem_of_list_to_set.
    destruct (decide (k ∈ ids)) as [Hin|Hout].
    - split; [by right|]. intros _.
      apply elem_of_idsFrom in Hin as (i & w & Hw & Hlive & ->).
      cbn [Nat.add]. rewrite (Hnew i w Hw Hlive). by eexists.
    - rewrite (Hold k Hout). split; [by left|]. by intros [?|?]. }
  split; [intros workerName; apply routeCommand_unregistered|].
  split; [by rewrite Hres, length_imap|].
  split.
  { intros i w Hw.
    assert (Hi : out.1.1 !! i
                 = Some (w, (routeCommand leaderName w command args
                               (subCommandId commandId i) now r).1.1)).
    { rewrite Hres, list_lookup_imap, Hw. done. }
    pose proof (routeCommand_cases leaderName w command args
                  (subCommandId commandId i) now r) as Hcase.
    cbv zeta in Hcase.
    destruct (registeredWith r leaderName w) eqn:Hlive.
    - destruct Hcase as [Hr _]. rewrite Hi, Hr. split; [done|by apply Hnew].
    - destruct Hcase as [[e He] _]. split; [exists e; by rewrite Hi, He|].
      apply Hold. intros (j & x & Hx & Hlive' & Heq)%elem_of_idsFrom.
      apply subCommandId_inj in Heq. cbn [Nat.add] in Heq. subst j.
      rewrite Hw in Hx. injection Hx as <-. congruence. }
  split; [exact Hold|]. split; [exact Hdom|].
  split; [apply idsFrom_NoDup|].
  split; [by rewrite Hlen; unfold ids; rewrite idsFrom_length|].
  split.
  { intros Hfresh.
    rewrite <- (size_dom (commandQueue out.1.2)), Hdom, size_union.
    - by rewrite size_dom, size_list_to_set by apply idsFrom_NoDup.
    - intros k Hk1 Hk2. apply elem_of_list_to_set in Hk2.
      apply elem_of_dom in Hk1 as [? Hk1]. by rewrite (Hfresh k Hk2) in Hk1. }
  split.
  - intros Hr. unfold ids. rewrite idsFrom_length. by apply consistent_count.
  - intros Hall. by apply idsFrom_all.
Qed.

(** The relay with a stale name, and the relay without. *)
Lemma relay_routing_witness :
  let out := routeGroupCommand "Lead" "mine" ["stone"] "cid" 50 staleRelay in
  routeCommand "Lead" "ghost" "mine" ["stone"] "cid" 50 staleRelay
  = (mkResult false (Some "Worker not found") None, staleRelay, [])
  ∧ length out.1.1 = 2%nat
  ∧ length (recordedIds "cid" "Lead" staleRelay)
    = size (assignedWorkers staleRelay "Lead")
  ∧ dom (commandQueue out.1.2)
    = dom (commandQueue staleRelay)
      ∪ list_to_set (recordedIds "cid" "Lead" staleRelay)
  ∧ size (commandQueue out.1.2)
    = size (commandQueue staleRelay) + length (recordedIds "cid" "Lead" staleRelay)
  ∧ recordedIds "Lead-group-17" "Lead" threeWorkers
    = ["Lead-group-17-0"; "Lead-group-17-1"; "Lead-group-17-2"].
Proof.
  cbv zeta.
  destruct (relay_routing "Lead" "mine" ["stone"] "cid" 50 staleRelay)
    as (Hghost & Hlen & _ & _ & Hdom & _ & _ & Hsize & Hcount & _).
  destruct (relay_routing "Lead" "mine" ["stone"] "Lead-group-17" 50 threeWorkers)
    as (_ & _ & _ & _ & _ & _ & _ & _ & _ & Hall).
  split; [by apply Hghost|]. split; [exact Hlen|].
  split.
  { apply Hcount. unfold staleRelay.
    repeat apply registerWorker_consistent. apply empty_consistent. }
  split; [exact Hdom|].
  split; [apply Hsize; intros k _; apply lookup_empty|].
  rewrite Hall; [reflexivity|].
  repeat constructor.
Defined.

(** A worker that registers again under another leader stays in the first
    leader's list.  The first leader then has one worker assigned and two
    names listed: its group command returns two results, and the one record
    it creates is numbered 1, not 0. *)
Lemma stale_name_shifts_the_identifiers :
  let out := routeGroupCommand "Lead" "mine" ["stone"] "cid" 50 staleRelay in
  getWorkersForLeader "Lead" staleRelay = ["w0"; "w1"]
  ∧ registeredWith staleRelay "Lead" "w0" = false
  ∧ registeredWith staleRelay "Lead" "w1" = true
  ∧ size (assignedWorkers staleRelay "Lead") = 1%nat
  ∧ out.1.1
    = [("w0", mkResult false (Some "Worker not assigned to this leader") None);
       ("w1", mkResult true None (Some "cid-1"))]
  ∧ commandQueue out.1.2 !! "cid-0" = None
  ∧ commandQueue out.1.2 !! "cid-1"
    = Some (mkCommand "Lead" "w1" "mine" ["stone"] 50 "sent")
  ∧ size (commandQueue out.1.2) = 1%nat.
Proof. by vm_compute. Qed.


(** X19.  The life of a command: routed to a worker of the leader under
    a new, non-empty identifier, it is emitted to the worker's socket and
    queued as sent; the worker's report of a terminal status for that
    identifier stores the status in the queued record, schedules the
    clean-up in 60000 ms and is forwarded to the leader's socket when the
    leader has one; once the clean-up has run, the queue is what it was
    before the command, and leaders and worker lists never changed. *)
Theorem command_life_cycle leaderName workerName command args commandId
  (sent finished : Z) (report : StatusReport) (r : t) (worker : WorkerRecord) :
  workers r !! workerName = Some worker →
  leader worker = leaderName →
  commandId ≠ "" →
  commandQueue r !! commandId = None →
  reportCommandId report = Some commandId →
  isTerminal (reportStatus report) = true →
  let routed := routeCommand leaderName workerName command args commandId sent r in
  let updated := updateWorkerStatus workerName report finished routed.1.2 in
  let final := cleanup commandId updated.1 in
  routed.1.1 = mkResult true None (Some commandId)
  ∧ routed.2 = [EmitWorkerCommand (socket worker) command args commandId]
  ∧ commandQueue routed.1.2 !! commandId
    = Some (mkCommand leaderName workerName command args sent "sent")
  ∧ commandQueue updated.1 !! commandId
    = Some (mkCommand leaderName workerName command args sent (reportStatus report))
  ∧ updated.2
    = ScheduleCleanup commandId 60000
      :: match leaders r !! leaderName with
         | Some (mkLeader (Some sock) _) =>
             [EmitWorkerStatusUpdate sock workerName report]
         | _ => []
         end
  ∧ commandQueue final = commandQueue r
  ∧ workersByLeader final = workersByLeader r
  ∧ leaders final = leaders r.
Proof.
  intros Hw Hl Hid Hfresh Hrep Hterm. cbv zeta.
  rewrite (routeCommand_assigned _ _ _ _ _ _ _ _ Hw Hl). cbn [fst snd].
  split; [done|]. split; [done|].
  split; [cbn; apply lookup_insert_eq|].
  unfold updateWorkerStatus. cbn [workers withQueue]. rewrite Hw, Hrep.
  destruct commandId as [|a id]; [done|].
  cbn [commandQueue withQueue]. rewrite lookup_insert_eq, Hterm.
  cbn [fst snd commandQueue leaders leader cmdLeader cmdWorker cmdCommand
       cmdArgs cmdTimestamp]. rewrite Hl.
  split; [apply lookup_insert_eq|]. split; [done|].
  unfold cleanup. cbn [commandQueue withQueue workersByLeader leaders].
  split; [|done].
  rewrite insert_insert_eq. by apply delete_insert_id.
Qed.

Lemma command_life_cycle_witness :
  let report := mkStatus "completed" None (Some 18%Q) None (Some "Lead-w1-17") in
  let routed := routeCommand "Lead" "w1" "mine" ["stone"] "Lead-w1-17" 50
                  threeWorkers in
  let updated := updateWorkerStatus "w1" report 90 routed.1.2 in
  let final := cleanup "Lead-w1-17" updated.1 in
  routed.1.1 = mkResult true None (Some "Lead-w1-17")
  ∧ routed.2 = [EmitWorkerCommand 11%nat "mine" ["stone"] "Lead-w1-17"]
  ∧ commandQueue routed.1.2 !! "Lead-w1-17"
    = Some (mkCommand "Lead" "w1" "mine" ["stone"] 50 "sent")
  ∧ commandQueue updated.1 !! "Lead-w1-17"
    = Some (mkCommand "Lead" "w1" "mine" ["stone"] 50 "completed")
  ∧ updated.2
    = [ScheduleCleanup "Lead-w1-17" 60000;
       EmitWorkerStatusUpdate 7%nat "w1" report]
  ∧ commandQueue final = commandQueue threeWorkers
  ∧ workersByLeader final = workersByLeader threeWorkers
  ∧ leaders final = leaders threeWorkers.
Proof.
  apply (command_life_cycle "Lead" "w1" "mine" ["stone"] "Lead-w1-17" 50 90
           (mkStatus "completed" None (Some 18%Q) None (Some "Lead-w1-17"))
           threeWorkers (mkWorker "Lead" 11%nat "registered" 2 None 20 20));
    reflexivity || done.
Defined.

(** X20.  Registering a worker that was unknown and absent from the
    leader's list, and removing it again, restores the relay: the worker
    records, every leader's worker list, the leaders and the queue are what
    they were. *)
Theorem register_then_remove_restores_the_relay workerName leaderName sock now
  (r : t) :
  workers r !! workerName = None →
  workerName ∉ getWorkersForLeader leaderName r →
  let r' := removeWorker workerName
              (registerWorker workerName leaderName sock now r) in
  workers r' = workers r
  ∧ (∀ l, getWorkersForLeader l r' = getWorkersForLeader l r)
  ∧ leaders r' = leaders r
  ∧ commandQueue r' = commandQueue r.
Proof.
  intros Hw Hout. cbv zeta. unfold removeWorker, registerWorker.
  cbn [workers workersByLeader leaders commandQueue].
  rewrite lookup_insert_eq. cbn [leader]. rewrite lookup_insert_eq.
  cbn [workers workersByLeader leaders commandQueue].
  split; [by apply delete_insert_id|]. split; [|done].
  intros l. unfold getWorkersForLeader in *. cbn [workersByLeader].
  rewrite bool_decide_false by done. rewrite insert_insert_eq.
  destruct (decide (l = leaderName)) as [->|Hl].
  - rewrite lookup_insert_eq. cbn. by apply removeFirst_snoc.
  - by rewrite lookup_insert_ne.
Qed.

Lemma register_then_remove_restores_the_relay_witness :
  let r' := removeWorker "w3" (registerWorker "w3" "Lead" 13%nat 9 threeWorkers) in
  workers r' = workers threeWorkers
  ∧ (∀ l, getWorkersForLeader l r' = getWorkersForLeader l threeWorkers)
  ∧ leaders r' = leaders threeWorkers
  ∧ commandQueue r' = commandQueue threeWorkers.
Proof.
  apply (register_then_remove_restores_the_relay "w3" "Lead" 13%nat 9 threeWorkers).
  - reflexivity.
  - assert (E : getWorkersForLeader "Lead" threeWorkers = ["w0"; "w1"; "w2"])
      by (by vm_compute).
    rewrite E. rewrite !not_elem_of_cons. repeat split; try done.
    apply not_elem_of_nil.
Defined.


End CommandRelayFacts.

(* ===================================================================== *)
(** ** Coordination hub *)
(* ===================================================================== *)

Module MindServerFacts.
Import JsString JsStringFacts MindServer.

Lemma run_app (events more : list Event) (s : t) :
  run (events ++ more) s
  = ((run more (run events s).1).1,
     ((run events s).2 ++ (run more (run events s).1).2)%list).
Proof.
  revert s. induction events as [|e events IH]; intros s; cbn [run app].
  - cbn [fst snd app]. by destruct (run more s).
  - destruct (handle s e) as [s1 effects1]. rewrite IH.
    destruct (run events s1) as [s2 effects2]. cbn [fst snd].
    by rewrite <- (assoc app).
Qed.

Lemma run_snoc (events : list Event) (e : Event) (s : t) :
  run (events ++ [e]) s
  = ((handle (run events s).1 e).1,
     ((run events s).2 ++ (handle (run events s).1 e).2)%list).
Proof.
  rewrite run_app. cbn [run]. destruct (handle _ e) as [s1 effects1].
  cbn [fst snd]. by rewrite List.app_nil_r.
Qed.

(** *** Connections *)

Lemma removeListener_connections sock (s : t) :
  agent_connections (removeListener sock s).1 = agent_connections s.
Proof. unfold removeListener. by destruct (spliceIndexOf _ _). Qed.

Lemma addListener_connections sock (s : t) :
  agent_connections (addListener sock s).1 = agent_connections s.
Proof. unfold addListener. by destruct (_ =? _)%nat. Qed.

Lemma connected_insert (s : t) agentName (conn : AgentConnection) :
  connected s → (in_game conn = true → socket conn ≠ None) →
  connected (withConnections s (<[agentName := conn]> (agent_connections s))).
Proof.
  intros Hs Hc name c. cbn [agent_connections withConnections].
  destruct (decide (name = agentName)) as [->|Hne].
  - rewrite lookup_insert_eq. by intros [= <-].
  - rewrite lookup_insert_ne by done. apply Hs.
Qed.

Lemma handle_connected (s : t) (e : Event) :
  connected s → connected (handle s e).1.
Proof.
  intros Hs. destruct e as [n|n|sock n|sock n|sock|n|sock n msg|data now|sock];
    cbn [handle fst].
  - unfold registerAgent. by apply connected_insert.
  - unfold logoutAgent. destruct (agent_connections s !! n); [|done].
    by apply connected_insert.
  - unfold onConnectAgentProcess. destruct (agent_connections s !! n); [|done].
    by apply connected_insert.
  - unfold onLoginAgent. destruct (agent_connections s !! n); [|done].
    cbn [fst]. intros name c. cbn [agent_connections].
    destruct (decide (name = n)) as [->|Hne].
    + rewrite lookup_insert_eq. by intros [= <-].
    + rewrite lookup_insert_ne by done. apply Hs.
  - unfold onDisconnect.
    set (cur := default "null" (curAgentName s !! sock)).
    assert (H1 : connected
              (match agent_connections s !! cur with
               | Some conn =>
                   (withConnections s
                      (<[cur := mkConnection None false]> (agent_connections s)),
                    [AgentsStatusUpdate])
               | None => (s, [])
               end).1).
    { destruct (agent_connections s !! cur); [|done]. by apply connected_insert. }
    destruct (match agent_connections s !! cur with
              | Some conn => _ | None => _ end) as [s1 effects1].
    cbn [fst] in H1. destruct (bool_decide _); [|done].
    pose proof (removeListener_connections sock s1) as Hc.
    destruct (removeListener sock s1) as [s2 effects2]. cbn [fst] in *.
    intros name c. rewrite Hc. apply H1.
  - unfold onDestroyAgent. destruct (agent_connections s !! n); [|done].
    cbn [fst]. intros name c. cbn [agent_connections withConnections].
    destruct (decide (name = n)) as [->|Hne].
    + by rewrite lookup_delete_eq.
    + rewrite lookup_delete_ne by done. apply Hs.
  - done.
  - done.
  - unfold onListenToAgents.
    pose proof (addListener_connections sock s) as Hc.
    destruct (addListener sock s) as [s1 effects]. cbn [fst] in *.
    intros name c. rewrite Hc. apply Hs.
Qed.

Lemma run_connected (events : list Event) (s : t) :
  connected s → connected (run events s).1.
Proof.
  revert s. induction events as [|e events IH]; intros s Hs; [done|].
  cbn [run]. pose proof (handle_connected s e Hs) as H1.
  destruct (handle s e) as [s1 effects1]. specialize (IH s1 H1).
  by destruct (run events s1) as [s2 effects2].
Qed.

(** X21.  After any sequence of registrations, logins, disconnections and
    the other events of the hub (for agents whose names are plain keys), an
    agent that is marked as in game has a socket, so a chat message
    addressed to it is always passed on, to that socket. *)
Theorem agent_in_game_has_a_socket (events : list Event) (sock : Socket)
  (agentName message : string) (conn : AgentConnection) :
  Forall (λ e, plainEvent e = true) events →
  let s := (run events initial).1 in
  agent_connections s !! agentName = Some conn →
  in_game conn = true →
  ∃ target,
    socket conn = Some target
    ∧ onChatMessage sock agentName message s
      = [EmitChatMessage target (curAgentName s !! sock) message].
Proof.
  intros _. cbv zeta. intros Hconn Hin.
  assert (Hs : connected (run events initial).1).
  { apply run_connected. intros name c. cbn. by rewrite lookup_empty. }
  specialize (Hs agentName conn Hconn Hin).
  destruct conn as [[target|] g]; [|done].
  exists target. split; [done|]. unfold onChatMessage. by rewrite Hconn.
Qed.


Lemma agent_in_game_has_a_socket_witness :
  let events := [RegisterAgent "Blaze"; RegisterAgent "Frost";
                 ConnectAgentProcess 4%nat "Blaze"; LoginAgent 5%nat "Blaze";
                 LoginAgent 6%nat "Frost"; Disconnect 4%nat] in
  let s := (run events initial).1 in
  ∃ target,
    socket (mkConnection (Some 5%nat) true) = Some target
    ∧ onChatMessage 6%nat "Blaze" "hello" s
      = [EmitChatMessage target (curAgentName s !! 6%nat) "hello"].
Proof.
  apply (agent_in_game_has_a_socket
           [RegisterAgent "Blaze"; RegisterAgent "Frost";
            ConnectAgentProcess 4%nat "Blaze"; LoginAgent 5%nat "Blaze";
            LoginAgent 6%nat "Frost"; Disconnect 4%nat]
           6%nat "Blaze" "hello" (mkConnection (Some 5%nat) true)).
  - repeat constructor.
  - by vm_compute.
  - reflexivity.
Defined.

(** *** Listeners *)

Lemma openIntervals_app (t1 t2 : list Effect) (n : Z) :
  openIntervals (t1 ++ t2) n = openIntervals t2 (openIntervals t1 n).
Proof.
  revert n. induction t1 as [|e t1 IH]; intros n; [done|].
  destruct e; cbn [openIntervals app]; apply IH.
Qed.

Lemma addListener_polling sock (s : t) :
  polling s →
  polling (addListener sock s).1
  ∧ openIntervals (addListener sock s).2 (if listenerInterval s then 1 else 0)%Z
    = (if listenerInterval (addListener sock s).1 then 1 else 0)%Z.
Proof.
  unfold polling, addListener. intros Hp.
  destruct (agent_listeners s) as [|x l] eqn:E; cbn in *.
  - rewrite Hp. by split.
  - rewrite List.length_app. cbn.
    replace (length l + 1 =? 0)%nat with false by (symmetry; apply Nat.eqb_neq; lia).
    cbn. rewrite Hp. by split.
Qed.

Lemma removeListener_polling sock (s : t) :
  polling s → agent_listeners s ≠ [] →
  polling (removeListener sock s).1
  ∧ openIntervals (removeListener sock s).2 (if listenerInterval s then 1 else 0)%Z
    = (if listenerInterval (removeListener sock s).1 then 1 else 0)%Z.
Proof.
  unfold polling, removeListener. intros Hp Hne.
  destruct (agent_listeners s) as [|x l] eqn:E; [done|].
  rewrite Hp. rewrite bool_decide_false by done.
  by destruct (spliceIndexOf sock (x :: l)) as [|y l'] eqn:Es.
Qed.

Lemma withConnections_polling (s : t) m :
  polling (withConnections s m) ↔ polling s.
Proof. done. Qed.

Lemma handle_polling (s : t) (e : Event) :
  polling s →
  polling (handle s e).1
  ∧ openIntervals (handle s e).2 (if listenerInterval s then 1 else 0)%Z
    = (if listenerInterval (handle s e).1 then 1 else 0)%Z.
Proof.
  intros Hs. destruct e as [n|n|sock n|sock n|sock|n|sock n msg|data now|sock];
    cbn [handle fst snd].
  - by split.
  - unfold logoutAgent. by destruct (agent_connections s !! n); split.
  - unfold onConnectAgentProcess. by destruct (agent_connections s !! n); split.
  - unfold onLoginAgent. by destruct (agent_connections s !! n); split.
  - unfold onDisconnect.
    set (cur := default "null" (curAgentName s !! sock)).
    destruct (agent_connections s !! cur) as [conn|].
    + cbn [agent_listeners withConnections].
      destruct (decide (sock ∈ agent_listeners s)) as [Hin|Hout].
      * rewrite bool_decide_true by done.
        set (s1 := withConnections s _).
        destruct (removeListener_polling sock s1) as [H1 H2]; [done| |].
        { cbn. intros E. rewrite E in Hin. by apply elem_of_nil in Hin. }
        destruct (removeListener sock s1) as [s2 effects2]. by cbn in *.
      * rewrite bool_decide_false by done. by split.
    + destruct (decide (sock ∈ agent_listeners s)) as [Hin|Hout].
      * rewrite bool_decide_true by done.
        destruct (removeListener_polling sock s) as [H1 H2]; [done| |].
        { intros E. rewrite E in Hin. by apply elem_of_nil in Hin. }
        destruct (removeListener sock s) as [s2 effects2]. by cbn in *.
      * rewrite bool_decide_false by done. by split.
  - unfold onDestroyAgent. by destruct (agent_connections s !! n); split.
  - split; [done|]. unfold onChatMessage.
    by destruct (agent_connections s !! n) as [[[target|] g]|].
  - by split.
  - unfold onListenToAgents.
    destruct (addListener_polling sock s Hs) as [H1 H2].
    destruct (addListener sock s) as [s1 effects]. cbn [fst snd] in *.
    split; [done|]. rewrite openIntervals_app, H2.
    generalize (if listenerInterval s1 then 1%Z else 0%Z).
    induction (relationship_cache s1) as [|entry l IH]; intros z; [done|].
    cbn. apply IH.
Qed.

(** X22.  After any sequence of events the polling interval of the hub
    is set exactly when there is at least one listener, and along the trace
    one interval at most is set and not yet cleared: polling never runs
    without listeners and is never started twice. *)
Theorem polling_runs_exactly_while_someone_listens (events : list Event) :
  let out := run events initial in
  listenerInterval out.1 = negb (bool_decide (agent_listeners out.1 = []))
  ∧ openIntervals out.2 0 = (if listenerInterval out.1 then 1 else 0)%Z.
Proof.
  cbv zeta. induction events as [|e events IH] using rev_ind; [done|].
  rewrite run_snoc. cbn [fst snd]. destruct IH as [Hp Ho].
  destruct (handle_polling (run events initial).1 e Hp) as [Hp' Ho'].
  split; [done|]. by rewrite openIntervals_app, Ho.
Qed.

(** *** The relationship cache *)

Lemma pairKey_sym (a b : string) : pairKey a b = pairKey b a.
Proof.
  unfold pairKey, String.ltb. rewrite (String.compare_antisym a b).
  destruct (String.compare b a) eqn:E; cbn; try done.
  by apply String.compare_eq_iff in E as ->.
Qed.

Lemma mapGet_mapSet_eq {A} (k : string) (v : A) (m : list (string * A)) :
  mapGet k (mapSet k v m) = Some v.
Proof.
  unfold mapGet. induction m as [|[k' v'] m IH]; cbn.
  - by rewrite String.eqb_refl.
  - destruct (String.eqb k' k) eqn:E; cbn.
    + by rewrite String.eqb_refl.
    + by rewrite E.
Qed.

Lemma mapGet_mapSet_ne {A} (k k0 : string) (v : A) (m : list (string * A)) :
  k0 ≠ k → mapGet k0 (mapSet k v m) = mapGet k0 m.
Proof.
  intros Hne. unfold mapGet. induction m as [|[k' v'] m IH]; cbn.
  - destruct (String.eqb_spec k k0); [congruence|done].
  - destruct (String.eqb_spec k' k) as [->|Hk]; cbn.
    + destruct (String.eqb_spec k k0); [congruence|done].
    + destruct (String.eqb k' k0); [done|]. apply IH.
Qed.

Lemma mapSet_length {A} (k : string) (v : A) (m : list (string * A)) :
  length (mapSet k v m)
  = match mapGet k m with Some _ => length m | None => S (length m) end.
Proof.
  unfold mapGet. induction m as [|[k' v'] m IH]; cbn; [done|].
  destruct (String.eqb k' k) eqn:E; cbn; [done|]. rewrite IH.
  by destruct (List.find _ m).
Qed.

Lemma mapSet_elem {A} (k : string) (v : A) (m : list (string * A)) :
  (k, v) ∈ mapSet k v m.
Proof.
  induction m as [|[k' v'] m IH]; cbn [mapSet]; [apply list_elem_of_here|].
  destruct (String.eqb k' k); [apply list_elem_of_here|].
  by apply list_elem_of_further.
Qed.

(** X23.  The hub caches relationship updates under a key that does not
    depend on the order of the two names: an update is found again under
    the key of the reversed pair, stamped with the time it arrived; the
    entries under all other keys are untouched; the cache grows by one
    entry only when the key is new; and a client that starts listening is
    sent the cached entry. *)
Theorem relationship_cache_is_keyed_by_the_unordered_pair
  (data : RelationshipData) (now : Z) (sock : Socket) (s : t) :
  let key := pairKey (dataAgent data) (dataTarget data) in
  let cached :=
    mkData (dataAgent data) (dataTarget data) (dataTrust data)
      (dataRespect data) (dataFamiliarity data) (dataAffection data)
      (dataType data) (dataInteractionCount data) now in
  let s' := (onRelationshipUpdate data now s).1 in
  pairKey (dataTarget data) (dataAgent data) = key
  ∧ mapGet (pairKey (dataTarget data) (dataAgent data)) (relationship_cache s')
    = Some cached
  ∧ (∀ k, k ≠ key →
       mapGet k (relationship_cache s') = mapGet k (relationship_cache s))
  ∧ length (relationship_cache s')
    = match mapGet key (relationship_cache s) with
      | Some _ => length (relationship_cache s)
      | None => S (length (relationship_cache s))
      end
  ∧ EmitRelationshipUpdate sock cached ∈ (onListenToAgents sock s').2.
Proof.
  cbv zeta. unfold onRelationshipUpdate. cbn [fst relationship_cache].
  split; [apply pairKey_sym|]. rewrite (pairKey_sym (dataTarget data)).
  split; [apply mapGet_mapSet_eq|].
  split; [intros k Hk; by apply mapGet_mapSet_ne|].
  split; [apply mapSet_length|].
  unfold onListenToAgents.
  set (s' := mkServer _ _ _ _ _).
  assert (Hc : relationship_cache (addListener sock s').1 = relationship_cache s').
  { unfold addListener. by destruct (_ =? _)%nat. }
  destruct (addListener sock s') as [s1 effects]. cbn [fst snd] in *.
  apply elem_of_app. right. rewrite Hc. unfold s'. cbn [relationship_cache].
  set (key := pairKey _ _). set (cached := mkData _ _ _ _ _ _ _ _ _).
  apply (list_elem_of_fmap_2 (λ entry, EmitRelationshipUpdate sock entry.2)
           _ (key, cached)), mapSet_elem.
Qed.

End MindServerFacts.

(* ===================================================================== *)
(** ** Tick scheduler *)
(* ===================================================================== *)

Module AgentFacts.
Import JsString JsStringFacts Agent.

Lemma hasInk_truthy (s : string) : hasInk s → truthy (trim s) = true.
Proof. intros (a & c & b & Hc & Hs). by apply (trim_nonempty s c a b). Qed.

Lemma hasInk_app_l (x y : string) : hasInk x → hasInk (x +:+ y).
Proof.
  intros (a & c & b & Hc & ->). exists a, c, (b +:+ y). split; [done|].
  by rewrite app_assoc, app_cons.
Qed.

Lemma hasInk_app_r (x y : string) : hasInk y → hasInk (x +:+ y).
Proof.
  intros (a & c & b & Hc & ->). exists (x +:+ a), c, b. split; [done|].
  by rewrite app_assoc.
Qed.

Lemma section_hasInk (title unit : string) (lines : list string) :
  lines ≠ [] → hasInk (section title unit lines).
Proof.
  intros Hne. destruct lines as [|l ls]; [done|].
  unfold section. apply hasInk_app_r, hasInk_app_l.
  by exists "", "["%char, "".
Qed.

Lemma workersSection_hasInk (assigned : list string) :
  assigned ≠ [] → hasInk (workersSection assigned).
Proof.
  intros Hne. destruct assigned as [|w ws]; [done|].
  unfold workersSection. apply hasInk_app_r, hasInk_app_l.
  by exists "", "["%char, "YOUR WORKERS: ".
Qed.

Lemma tagged_lines_nonempty (tag : string) (line : ContextItem → string)
  (batch : list ContextItem) (c : ContextItem) :
  c ∈ batch → itemType c = tag →
  map line (List.filter (hasType tag) batch) ≠ [].
Proof.
  intros Hin Htag.
  assert (Hc : In c (List.filter (hasType tag) batch)).
  { apply filter_In. split; [by apply list_elem_of_In|].
    unfold hasType. rewrite Htag. apply String.eqb_refl. }
  destruct (List.filter (hasType tag) batch); [done|done].
Qed.

(** The summary is not blank as soon as one item of the batch carries a tag
    of the data model, or the leader has an assigned worker. *)
Lemma batchedMessage_not_blank (assigned : list string)
  (batch : list ContextItem) :
  Exists knownItem batch ∨ assigned ≠ [] →
  truthy (trim (batchedMessage assigned batch)) = true.
Proof.
  intros Hsome. apply hasInk_truthy. unfold batchedMessage.
  destruct Hsome as [Hknown|Hworkers].
  - apply Exists_exists in Hknown as (c & Hin & Hc). unfold knownItem in Hc.
    apply elem_of_cons in Hc as [Hc|Hc]; [|apply elem_of_cons in Hc as [Hc|Hc]].
    + by eapply hasInk_app_l, section_hasInk, tagged_lines_nonempty.
    + by eapply hasInk_app_r, hasInk_app_l, section_hasInk, tagged_lines_nonempty.
    + apply list_elem_of_singleton in Hc.
      by eapply hasInk_app_r, hasInk_app_r, hasInk_app_l, section_hasInk,
        tagged_lines_nonempty.
  - by apply hasInk_app_r, hasInk_app_r, hasInk_app_r, workersSection_hasInk.
Qed.

Lemma queueContext_leader (item : ContextItem) (now : Z) (a : t) :
  isLeader a = true →
  queueContext item now a
  = (true, withPending a (pendingContext a ++ [stamp item now])%list).
Proof. intros Hl. unfold queueContext. by rewrite Hl. Qed.

Lemma queueAll_leader (items : list (ContextItem * Z)) :
  ∀ a : t,
    isLeader a = true →
    isLeader (queueAll items a) = true
    ∧ assignedWorkers (queueAll items a) = assignedWorkers a
    ∧ pendingContext (queueAll items a)
      = (pendingContext a ++ map (λ item, stamp item.1 item.2) items)%list.
Proof.
  induction items as [|[item now] items IH]; intros a Hl.
  { cbn. by rewrite List.app_nil_r. }
  cbn [queueAll fold_left fst snd]. rewrite (queueContext_leader _ _ _ Hl).
  destruct (IH (withPending a (pendingContext a ++ [stamp item now])%list) Hl)
    as (H1 & H2 & H3).
  unfold queueAll in *. cbn [fst snd] in *.
  split; [done|]. split; [done|].
  rewrite H3. cbn [pendingContext withPending map fst snd].
  by rewrite <- List.app_assoc.
Qed.

Lemma oracleCalls_app (t1 t2 : list Effect) :
  oracleCalls (t1 ++ t2)%list = oracleCalls t1 + oracleCalls t2.
Proof. unfold oracleCalls. by rewrite List.filter_app, List.length_app. Qed.

Section Collaborators.
Variable promptConvo : list Turn → option string.
Variable containsCommand : string → option string.
Variable commandExists : string → bool.
Variable executeCommand : string → option string.

Local Abbreviation tick :=
  (thoughtTick promptConvo containsCommand commandExists executeCommand).
Local Abbreviation process :=
  (_processThoughtTick promptConvo containsCommand commandExists executeCommand).
Local Abbreviation schedule :=
  (runSchedule promptConvo containsCommand commandExists executeCommand).

Lemma handleReply_effects (a : t) (res : string) :
  let out := handleReply containsCommand commandExists executeCommand a res in
  oracleCalls out.2 = 0 ∧ pendingContext out.1 = pendingContext a.
Proof.
  cbn zeta. unfold handleReply.
  destruct (match containsCommand res with
            | Some (String c cmd) => commandExists (String c cmd)
            | _ => false
            end); cbn [fst snd]; [|done].
  by destruct (executeCommand res) as [[|? ?]|].
Qed.

(** Whatever is queued, a flush drains the queue and makes at most one
    call. *)
Lemma process_at_most_once (a : t) :
  (oracleCalls (process a).2 ≤ 1)%nat ∧ pendingContext (process a).1 = [].
Proof.
  unfold _processThoughtTick.
  destruct (pendingContext a) as [|c rest] eqn:Hp; [cbn; split; [lia|done]|].
  cbn [assignedWorkers withPending].
  destruct (truthy (trim _)); [|cbn; split; [lia|done]].
  set (a1 := withHistory _ _).
  destruct (promptConvo (history a1)) as [res|]; [|cbn; split; [lia|done]].
  destruct (truthy (trim res)); [|cbn; split; [lia|done]].
  pose proof (handleReply_effects a1 res) as [Hcalls Hpending].
  destruct (handleReply containsCommand commandExists executeCommand a1 res)
    as [a2 effects].
  cbn [fst snd] in *. split; [|by rewrite Hpending].
  change (PromptConvo (history a1) :: effects ++ [HistorySave])%list
    with ([PromptConvo (history a1)] ++ (effects ++ [HistorySave]))%list.
  rewrite !oracleCalls_app, Hcalls. cbn. lia.
Qed.

(** A flush whose summary is not blank makes exactly one call. *)
Lemma process_once (a : t) :
  pendingContext a ≠ [] →
  Exists knownItem (pendingContext a) ∨ assignedWorkers a ≠ [] →
  oracleCalls (process a).2 = 1.
Proof.
  intros Hne Hsome. unfold _processThoughtTick.
  destruct (pendingContext a) as [|c rest] eqn:Hp; [done|].
  cbn [assignedWorkers withPending].
  rewrite (batchedMessage_not_blank (assignedWorkers a) (c :: rest)) by done.
  set (a1 := withHistory _ _).
  destruct (promptConvo (history a1)) as [res|]; [|done].
  destruct (truthy (trim res)); [|done].
  pose proof (handleReply_effects a1 res) as [Hcalls _].
  destruct (handleReply containsCommand commandExists executeCommand a1 res)
    as [a2 effects].
  cbn [fst snd] in *.
  change (PromptConvo (history a1) :: effects ++ [HistorySave])%list
    with ([PromptConvo (history a1)] ++ (effects ++ [HistorySave]))%list.
  rewrite !oracleCalls_app, Hcalls. done.
Qed.

Lemma tick_idle (a : t) : pendingContext a = [] → tick a = (a, []).
Proof.
  intros Hp. unfold thoughtTick. rewrite Hp. by destruct (negb (isLeader a)).
Qed.

Lemma tick_leader (a : t) : isLeader a = true → tick a = process a.
Proof.
  intros Hl. unfold thoughtTick, _processThoughtTick. rewrite Hl. cbn [negb].
  by destruct (pendingContext a).
Qed.

Lemma tick_at_most_once (a : t) : (oracleCalls (tick a).2 ≤ 1)%nat.
Proof.
  destruct (isLeader a) eqn:Hl.
  - rewrite (tick_leader a Hl). apply process_at_most_once.
  - unfold thoughtTick. rewrite Hl. cbn. lia.
Qed.

(** Over any schedule of enqueues and ticks, the calls never outnumber the
    ticks, however many events are queued in between. *)
Lemma calls_bounded_by_ticks (steps : list Step) :
  ∀ a : t,
    (oracleCalls (schedule steps a).2 ≤ length (List.filter isTick steps))%nat.
Proof.
  induction steps as [|[item now|] steps IH]; intros a; cbn [runSchedule].
  - cbn. lia.
  - apply IH.
  - pose proof (tick_at_most_once a) as Hone.
    destruct (tick a) as [a1 effects1]. specialize (IH a1).
    destruct (schedule steps a1) as [a2 effects2]. cbn [fst snd] in *.
    rewrite oracleCalls_app. cbn [List.filter isTick length]. lia.
Qed.

(** C4.  For a leader, enqueueing [K >= 1] context events and then letting
    the tick fire drains the whole pending queue and results in at most one
    oracle-backed conversational turn, never [K]; the turn is made exactly
    once when the events carry the tags of the data model (worker report,
    chat, event).  A tick that finds the queue empty changes nothing and
    makes no call, as does the tick that follows a flush. *)
Theorem one_oracle_call_per_tick (a : t) (items : list (ContextItem * Z)) :
  isLeader a = true →
  items ≠ [] →
  let queued := queueAll items a in
  let out := tick queued in
  length (pendingContext queued) = length (pendingContext a) + length items
  ∧ (oracleCalls out.2 ≤ 1)%nat
  ∧ pendingContext out.1 = []
  ∧ (Forall (λ item, knownItem item.1) items → oracleCalls out.2 = 1)
  ∧ tick out.1 = (out.1, [])
  ∧ (∀ idle : t, pendingContext idle = [] → tick idle = (idle, [])).
Proof.
  intros Hl Hne. cbn zeta.
  destruct (queueAll_leader items a Hl) as (Hl' & _ & Hq).
  rewrite (tick_leader _ Hl').
  destruct (process_at_most_once (queueAll items a)) as [Hmost Hdrained].
  split; [by rewrite Hq, List.length_app, length_map|].
  split; [exact Hmost|]. split; [exact Hdrained|].
  split; [|split; [by apply tick_idle|apply tick_idle]].
  intros Hknown. apply process_once.
  - rewrite Hq. destruct items; [done|]. by destruct (pendingContext a).
  - left. rewrite Hq. apply Exists_app. right.
    destruct items as [|item rest]; [done|].
    apply Forall_cons in Hknown as [Hitem _]. by apply Exists_cons_hd.
Qed.

End Collaborators.

(** Three events queued by a leader with no worker: one call, queue empty. *)
Lemma one_oracle_call_per_tick_witness :
  let a := mkAgent "Lead" true [] [] [] in
  let items :=
    [(mkItem "worker_report" "w0" "completed" None "" "" "" 0, 1%Z);
     (mkItem "chat" "" "" None "Steve" "hello" "" 0, 2%Z);
     (mkItem "event" "" "" (Some "zombie") "" "" "attacked" 0, 3%Z)] in
  let out :=
    thoughtTick (λ _, Some "ok") (λ _, None) (λ _, false) (λ _, None)
      (queueAll items a) in
  oracleCalls out.2 = 1 ∧ pendingContext out.1 = [].
Proof.
  cbn zeta.
  match goal with
  | |- context [thoughtTick ?p ?cc ?ce ?ex (queueAll ?items ?a)] =>
      destruct (one_oracle_call_per_tick p cc ce ex a items)
        as (_ & _ & Hdrained & Hone & _)
  end.
  - reflexivity.
  - discriminate.
  - split; [|exact Hdrained]. apply Hone. repeat constructor.
Defined.

(** An item with a tag outside the data model, queued by a leader without
    workers, is drained without any call. *)
Lemma untagged_item_is_drained_silently :
  let a := mkAgent "Lead" true [] [] [] in
  let out :=
    thoughtTick (λ _, Some "ok") (λ _, None) (λ _, false) (λ _, None)
      (queueAll [(mkItem "note" "" "" None "" "" "" 0, 1%Z)] a) in
  oracleCalls out.2 = 0 ∧ pendingContext out.1 = [].
Proof. vm_compute. done. Qed.

(** *** The chat handler after a decision *)

(** X24.  An agent whose name occurs in the message always goes on to
    respond: the coordinator's decision for it passes the re-check that
    follows the delay whatever was recorded in the meantime, and the
    response is recorded as the last one. *)
Theorem mentioned_agent_is_never_preempted env (name username message : string)
  (otherBots : list string) (c later : ConversationCoordinator.t) (checked : Z) :
  includes (toLowerCase message) (toLowerCase name) = true →
  let decision :=
    (ConversationCoordinator.shouldRespond env name username message otherBots c).1.1 in
  let out := afterDecision name username message decision checked later in
  out.1 = true
  ∧ ConversationCoordinator.lastResponse out.2
    = ConversationCoordinator.mkLastResponse (Some username) (Some name) checked (Some message).
Proof.
  intros Hself. cbv zeta. unfold ConversationCoordinator.shouldRespond.
  destruct (ConversationCoordinator.getState name SoulState.emptyPersonality (ConversationCoordinator.now env) (ConversationCoordinator.souls c))
    as [state mgr].
  rewrite Hself. cbn [fst]. unfold afterDecision, preempted.
  cbn [ConversationCoordinator.Result.shouldRespond ConversationCoordinator.Result.reason negb].
  change (String.eqb "directly_mentioned" "directly_mentioned") with true.
  cbn [negb]. rewrite andb_false_r. cbn [fst snd].
  split; [done|]. apply ConversationCoordinatorFacts.recordResponse_lastResponse.
Qed.

Lemma mentioned_agent_is_never_preempted_witness :
  let env := ConversationCoordinator.mkEnv None 100000 0.9 0.5 (CognitiveEngine.mkRolls 0.5 0.5 0.5) 0.5 in
  let decision :=
    (ConversationCoordinator.shouldRespond env "Blaze" "Steve" "Blaze, come here"
       ["Bob"] ConversationCoordinator.initial).1.1 in
  let later := ConversationCoordinator.recordResponse "Bob" "Steve" "coming" 101000 ConversationCoordinator.initial in
  let out := afterDecision "Blaze" "Steve" "Blaze, come here" decision 101500 later in
  out.1 = true
  ∧ ConversationCoordinator.lastResponse out.2
    = ConversationCoordinator.mkLastResponse (Some "Steve") (Some "Blaze") 101500 (Some "Blaze, come here").
Proof.
  apply (mentioned_agent_is_never_preempted
           (ConversationCoordinator.mkEnv None 100000 0.9 0.5 (CognitiveEngine.mkRolls 0.5 0.5 0.5) 0.5)
           "Blaze" "Steve" "Blaze, come here" ["Bob"] ConversationCoordinator.initial
           (ConversationCoordinator.recordResponse "Bob" "Steve" "coming" 101000 ConversationCoordinator.initial) 101500).
  reflexivity.
Defined.

(** X25.  A positive decision with a positive delay that is not a direct
    mention is dropped, and the coordinator left as it is, exactly when the
    re-check happens less than two seconds after another agent's recorded
    response; otherwise the agent's own response is recorded. *)
Theorem response_is_dropped_when_another_agent_just_spoke
  (name username message other user text : string)
  (decision : ConversationCoordinator.Result.t) (t1 checked : Z) (c : ConversationCoordinator.t) :
  other ≠ name →
  ConversationCoordinator.Result.shouldRespond decision = true →
  (0 < ConversationCoordinator.Result.delay decision)%Z →
  ConversationCoordinator.Result.reason decision ≠ "directly_mentioned" →
  let c1 := ConversationCoordinator.recordResponse other user text t1 c in
  afterDecision name username message decision checked c1
  = if (checked - t1 <? 2000)%Z then (false, c1)
    else (true, ConversationCoordinator.recordResponse name username message checked c1).
Proof.
  intros Hne Hresp Hdelay Hreason. cbv zeta. unfold afterDecision, preempted.
  rewrite Hresp, ConversationCoordinatorFacts.recordResponse_lastResponse. cbn [negb ConversationCoordinator.timestamp ConversationCoordinator.responder].
  replace (0 <? ConversationCoordinator.Result.delay decision)%Z with true
    by (symmetry; apply Z.ltb_lt; lia).
  rewrite bool_decide_false by congruence.
  replace (String.eqb (ConversationCoordinator.Result.reason decision) "directly_mentioned") with false
    by (symmetry; by apply String.eqb_neq).
  cbn [negb andb]. by rewrite !andb_true_r.
Qed.

Lemma response_is_dropped_when_another_agent_just_spoke_witness :
  let decision := ConversationCoordinator.Result.mk true 1200 "respond" (Some "curious") in
  let c1 := ConversationCoordinator.recordResponse "Bob" "Steve" "coming" 101000 ConversationCoordinator.initial in
  afterDecision "Blaze" "Steve" "who can help?" decision 101500 c1
  = if (101500 - 101000 <? 2000)%Z then (false, c1)
    else (true, ConversationCoordinator.recordResponse "Blaze" "Steve" "who can help?" 101500 c1).
Proof.
  apply (response_is_dropped_when_another_agent_just_spoke
           "Blaze" "Steve" "who can help?" "Bob" "Steve" "coming"
           (ConversationCoordinator.Result.mk true 1200 "respond" (Some "curious")) 101000 101500 ConversationCoordinator.initial).
  - done.
  - done.
  - done.
  - done.
Defined.


(** *** Schedules, the summary and the list of workers *)

Lemma includes_refl (s : string) : includes s s = true.
Proof. apply includes_spec. exists "", "". by rewrite app_nil_l, app_nil_r. Qed.

Lemma includes_app_l (a b p : string) :
  includes a p = true → includes (a +:+ b) p = true.
Proof.
  rewrite !includes_spec. intros (x & y & ->). exists x, (y +:+ b).
  by rewrite !app_assoc.
Qed.

Lemma includes_app_r (a b p : string) :
  includes b p = true → includes (a +:+ b) p = true.
Proof.
  rewrite !includes_spec. intros (x & y & ->). exists (a +:+ x), y.
  by rewrite !app_assoc.
Qed.

Lemma concatLines_includes (ls : list string) (l : string) :
  l ∈ ls → includes (concatLines ls) l = true.
Proof.
  induction ls as [|x ls IH]; [by intros ?%elem_of_nil|].
  rewrite elem_of_cons. intros [->|Hin]; cbn [concatLines].
  - apply includes_app_l, includes_refl.
  - by apply includes_app_r, IH.
Qed.

Lemma section_includes (title unit : string) (lines : list string) (l : string) :
  l ∈ lines → includes (section title unit lines) l = true.
Proof.
  intros Hin. unfold section. destruct lines as [|x lines]; [by apply elem_of_nil in Hin|].
  do 9 apply includes_app_r. by apply concatLines_includes.
Qed.

Lemma tagged_line_listed (tag : string) (line : ContextItem → string)
  (batch : list ContextItem) (c : ContextItem) :
  c ∈ batch → hasType tag c = true →
  line c ∈ map line (List.filter (hasType tag) batch).
Proof.
  intros Hin Htag. apply list_elem_of_In, in_map, List.filter_In.
  split; [by apply list_elem_of_In|done].
Qed.

Lemma batchedMessage_includes (assigned : list string)
  (batch : list ContextItem) (c : ContextItem) :
  c ∈ batch → knownItem c →
  includes (batchedMessage assigned batch) (summaryLine c) = true.
Proof.
  intros Hin Hk. unfold batchedMessage, summaryLine.
  destruct (hasType "worker_report" c) eqn:E1.
  { apply includes_app_l, section_includes. by apply tagged_line_listed. }
  destruct (hasType "chat" c) eqn:E2.
  { apply includes_app_r, includes_app_l, section_includes.
    by apply tagged_line_listed. }
  apply includes_app_r, includes_app_r, includes_app_l, section_includes.
  apply tagged_line_listed; [done|].
  unfold knownItem in Hk. unfold hasType in *.
  rewrite !elem_of_cons in Hk. destruct Hk as [Hk|[Hk|[Hk|Hk]]].
  - rewrite Hk in E1. done.
  - rewrite Hk in E2. done.
  - by rewrite Hk.
  - by apply elem_of_nil in Hk.
Qed.


Section Schedules.
Variable promptConvo : list Turn → option string.
Variable containsCommand : string → option string.
Variable commandExists : string → bool.
Variable executeCommand : string → option string.

Local Abbreviation tick :=
  (thoughtTick promptConvo containsCommand commandExists executeCommand).
Local Abbreviation process :=
  (_processThoughtTick promptConvo containsCommand commandExists executeCommand).
Local Abbreviation schedule :=
  (runSchedule promptConvo containsCommand commandExists executeCommand).

Lemma handleReply_leader (a : t) (res : string) :
  isLeader (handleReply containsCommand commandExists executeCommand a res).1
  = isLeader a.
Proof.
  unfold handleReply.
  destruct (match containsCommand res with
            | Some (String c cmd) => commandExists (String c cmd)
            | _ => false
            end); cbn [fst snd]; [|done].
  by destruct (executeCommand res) as [[|? ?]|].
Qed.

Lemma tick_drains (a : t) :
  isLeader a = true → pendingContext (tick a).1 = [] ∧ isLeader (tick a).1 = true.
Proof.
  intros Hl. rewrite (tick_leader _ _ _ _ a Hl).
  split; [apply process_at_most_once|].
  unfold _processThoughtTick.
  destruct (pendingContext a) as [|c rest]; [done|].
  destruct (truthy (trim _)); [|done].
  set (a1 := withHistory _ _).
  destruct (promptConvo (history a1)) as [res|]; [|done].
  destruct (truthy (trim res)); [|done].
  pose proof (handleReply_leader a1 res) as H.
  destruct (handleReply containsCommand commandExists executeCommand a1 res)
    as [a2 effects].
  cbn [fst snd] in *. by rewrite H.
Qed.

Lemma schedule_leader (steps : list Step) :
  ∀ a : t, isLeader a = true → isLeader (schedule steps a).1 = true.
Proof.
  induction steps as [|[item now|] steps IH]; intros a Hl; cbn [runSchedule].
  - done.
  - apply IH. unfold queueContext. by rewrite Hl.
  - destruct (tick_drains a Hl) as [_ Hl'].
    destruct (tick a) as [a1 effects1]. specialize (IH a1 Hl').
    by destruct (schedule steps a1) as [a2 effects2].
Qed.

Lemma schedule_non_leader (steps : list Step) :
  ∀ a : t, isLeader a = false → schedule steps a = (a, []).
Proof.
  induction steps as [|[item now|] steps IH]; intros a Hl;
    cbn [runSchedule]; [done| |].
  - unfold queueContext. rewrite Hl. cbn. by apply IH.
  - unfold thoughtTick. rewrite Hl. cbn [negb]. by rewrite IH.
Qed.

Lemma schedule_app (steps more : list Step) :
  ∀ a : t,
    (schedule (steps ++ more) a).1 = (schedule more (schedule steps a).1).1.
Proof.
  induction steps as [|[item now|] steps IH]; intros a; cbn [runSchedule app].
  - done.
  - apply IH.
  - destruct (tick a) as [a1 effects1]. specialize (IH a1).
    destruct (schedule (steps ++ more) a1) as [a2 effects2].
    destruct (schedule steps a1) as [a3 effects3]. exact IH.
Qed.

(** X26.  Over any schedule of enqueued events and ticks, the oracle is
    called at most once per tick, however many events are queued in
    between; and after a final tick a leader's queue is empty. *)
Theorem calls_never_outnumber_ticks (steps : list Step) (a : t) :
  (oracleCalls (schedule steps a).2 ≤ length (List.filter isTick steps))%nat
  ∧ pendingContext (schedule (steps ++ [Tick]) a).1
    = (if isLeader a then [] else pendingContext a).
Proof.
  split; [apply calls_bounded_by_ticks|].
  rewrite schedule_app. cbn [runSchedule].
  destruct (isLeader a) eqn:Hl.
  - pose proof (schedule_leader steps a Hl) as Hl'.
    destruct (tick_drains (schedule steps a).1 Hl') as [Hd _].
    by destruct (tick (schedule steps a).1) as [a1 effects1].
  - rewrite (schedule_non_leader steps a Hl). unfold thoughtTick. cbn [fst].
    by rewrite Hl.
Qed.

(** X27.  An agent that is not a leader never queues context and never
    calls the oracle from a tick: [queueContext] returns false and leaves
    the agent as it is, no tick interval is installed, any schedule of
    enqueues and ticks leaves the agent unchanged with an empty trace,
    registering or unregistering a worker does nothing, and the action
    that orders a worker to follow sends nothing. *)
Theorem non_leader_never_queues_or_calls (steps : list Step) (a : t)
  (item : ContextItem) (now : Z) (interval : option Z)
  (proxyName workerName target : string) :
  isLeader a = false →
  queueContext item now a = (false, a)
  ∧ _startThoughtTick interval a = None
  ∧ schedule steps a = (a, [])
  ∧ registerWorker workerName a = a
  ∧ unregisterWorker workerName a = a
  ∧ (LeaderCommands.workerFollow proxyName a workerName target now).2 = None.
Proof.
  intros Hl. split; [|split; [|split; [by apply schedule_non_leader|]]].
  - unfold queueContext. by rewrite Hl.
  - unfold _startThoughtTick. by rewrite Hl.
  - unfold registerWorker, unregisterWorker, LeaderCommands.workerFollow.
    by rewrite Hl.
Qed.

(** X28.  When a leader's tick finds at least one pending item with a
    known tag, the first thing it does is the oracle call, on the history
    extended by one system turn that carries the summary; and the summary
    contains the line of every pending item with a known tag, so no such
    item is lost in the batch. *)
Theorem every_pending_item_is_in_the_summary (a : t) :
  isLeader a = true →
  Exists knownItem (pendingContext a) →
  let message := batchedMessage (assignedWorkers a) (pendingContext a) in
  let turns :=
    (history a ++ [("system", "[THOUGHT TICK BATCH]" +:+ message)])%list in
  head (tick a).2 = Some (PromptConvo turns)
  ∧ Forall (λ c, knownItem c → includes message (summaryLine c) = true)
      (pendingContext a).
Proof.
  intros Hl Hex. cbv zeta. split.
  - rewrite (tick_leader _ _ _ _ a Hl). unfold _processThoughtTick.
    destruct (pendingContext a) as [|c rest] eqn:Hp; [by apply Exists_nil in Hex|].
    cbn [assignedWorkers withPending history].
    rewrite (batchedMessage_not_blank (assignedWorkers a) (c :: rest))
      by (by left).
    set (a1 := withHistory _ _).
    destruct (promptConvo (history a1)) as [res|]; [|done].
    destruct (truthy (trim res)); [|done].
    by destruct (handleReply containsCommand commandExists executeCommand a1 res).
  - apply Forall_forall. intros c Hin Hk. by apply batchedMessage_includes.
Qed.

End Schedules.


Lemma non_leader_never_queues_or_calls_witness :
  let a := mkAgent "Worker_1" false [] [] [] in
  let item := mkItem "chat" "" "" None "Steve" "hello" "" 0 in
  let steps := [Enqueue item 1; Tick; Enqueue item 2; Enqueue item 3; Tick] in
  queueContext item 1 a = (false, a)
  ∧ _startThoughtTick (Some 5000%Z) a = None
  ∧ runSchedule (λ _, Some "ok") (λ _, None) (λ _, false) (λ _, None) steps a
    = (a, [])
  ∧ registerWorker "w0" a = a
  ∧ unregisterWorker "w0" a = a
  ∧ (LeaderCommands.workerFollow "Worker_1" a "w0" "Steve" 1).2 = None.
Proof.
  apply (non_leader_never_queues_or_calls
           (λ _, Some "ok") (λ _, None) (λ _, false) (λ _, None)).
  reflexivity.
Defined.

Lemma every_pending_item_is_in_the_summary_witness :
  let a := queueAll
             [(mkItem "worker_report" "w0" "completed" None "" "" "" 0, 1%Z);
              (mkItem "chat" "" "" None "Steve" "hello" "" 0, 2%Z);
              (mkItem "note" "" "" None "" "" "" 0, 3%Z)]
             (mkAgent "Lead" true [] ["w0"] []) in
  let message := batchedMessage (assignedWorkers a) (pendingContext a) in
  let turns :=
    (history a ++ [("system", "[THOUGHT TICK BATCH]" +:+ message)])%list in
  head (thoughtTick (λ _, Some "ok") (λ _, None) (λ _, false) (λ _, None) a).2
  = Some (PromptConvo turns)
  ∧ Forall (λ c, knownItem c → includes message (summaryLine c) = true)
      (pendingContext a).
Proof.
  apply (every_pending_item_is_in_the_summary
           (λ _, Some "ok") (λ _, None) (λ _, false) (λ _, None)).
  - reflexivity.
  - apply Exists_cons_hd. unfold knownItem. cbn. apply list_elem_of_here.
Defined.

Lemma removeFirst_gone (x : string) (l : list string) :
  NoDup l → x ∉ CommandRelay.removeFirst x l.
Proof.
  induction 1 as [|z l Hz Hl IH]; cbn; [apply not_elem_of_nil|].
  destruct (String.eqb_spec z x) as [->|Hne]; [done|].
  rewrite not_elem_of_cons. split; [congruence|done].
Qed.

Lemma applyWorkerOp_NoDup (a : t) (op : WorkerOp) :
  NoDup (assignedWorkers a) → NoDup (assignedWorkers (applyWorkerOp a op)).
Proof.
  intros Hnd. destruct op as [w|w]; cbn [applyWorkerOp].
  - unfold registerWorker. destruct (negb (isLeader a)); [done|].
    unfold strIn. destruct (decide (w ∈ assignedWorkers a)) as [Hin|Hout].
    + by rewrite bool_decide_true.
    + rewrite bool_decide_false by done. cbn.
      apply NoDup_app. split; [done|]. split; [|apply NoDup_singleton].
      intros x Hx Hx'. apply list_elem_of_singleton in Hx'. by subst.
  - unfold unregisterWorker. destruct (negb (isLeader a)); [done|]. cbn.
    by apply CommandRelayFacts.removeFirst_NoDup.
Qed.

(** X29.  Starting from a leader without workers, after any sequence of
    registrations and unregistrations the list of workers names no worker
    twice; registering a worker puts it in the list and unregistering takes
    it out of the list altogether, and neither changes whether any other
    worker is in the list. *)
Theorem worker_list_names_each_worker_once (name : string)
  (ops : list WorkerOp) (workerName other : string) :
  other ≠ workerName →
  let a := fold_left applyWorkerOp ops (mkAgent name true [] [] []) in
  NoDup (assignedWorkers a)
  ∧ workerName ∈ assignedWorkers (registerWorker workerName a)
  ∧ (workerName ∉ assignedWorkers (unregisterWorker workerName a))
  ∧ ((other ∈ assignedWorkers (registerWorker workerName a))
     ↔ (other ∈ assignedWorkers a))
  ∧ ((other ∈ assignedWorkers (unregisterWorker workerName a))
     ↔ (other ∈ assignedWorkers a)).
Proof.
  intros Hne. cbv zeta.
  set (a := fold_left applyWorkerOp ops (mkAgent name true [] [] [])).
  assert (Hinv : NoDup (assignedWorkers a) ∧ isLeader a = true).
  { unfold a. induction ops as [|op ops IH] using rev_ind.
    - split; [constructor|done].
    - rewrite fold_left_app. cbn [fold_left]. destruct IH as [Hnd Hl].
      split; [by apply applyWorkerOp_NoDup|].
      destruct op as [w|w]; cbn [applyWorkerOp];
        unfold registerWorker, unregisterWorker; rewrite Hl; cbn [negb];
        [by destruct (strIn _ _)|done]. }
  destruct Hinv as [Hnd Hl]. split; [done|].
  unfold registerWorker, unregisterWorker. rewrite Hl. cbn [negb].
  unfold strIn.
  destruct (decide (workerName ∈ assignedWorkers a)) as [Hin|Hout].
  - rewrite bool_decide_true by done. cbn [assignedWorkers withWorkers].
    split; [done|]. split; [by apply removeFirst_gone|]. split; [done|].
    by apply CommandRelayFacts.removeFirst_other.
  - rewrite bool_decide_false by done. cbn [assignedWorkers withWorkers].
    split; [apply elem_of_app; right; apply list_elem_of_here|].
    split; [by apply removeFirst_gone|]. split.
    + rewrite elem_of_app, list_elem_of_singleton. split; [by intros [?|?]|by left].
    + by apply CommandRelayFacts.removeFirst_other.
Qed.

Lemma worker_list_names_each_worker_once_witness :
  let a := fold_left applyWorkerOp
             [Register "w0"; Register "w1"; Register "w0"; Unregister "w2";
              Register "w2"; Unregister "w0"]
             (mkAgent "Lead" true [] [] []) in
  NoDup (assignedWorkers a)
  ∧ "w1" ∈ assignedWorkers (registerWorker "w1" a)
  ∧ ("w1" ∉ assignedWorkers (unregisterWorker "w1" a))
  ∧ (("w2" ∈ assignedWorkers (registerWorker "w1" a))
     ↔ ("w2" ∈ assignedWorkers a))
  ∧ (("w2" ∈ assignedWorkers (unregisterWorker "w1" a))
     ↔ ("w2" ∈ assignedWorkers a)).
Proof.
  apply (worker_list_names_each_worker_once "Lead"
           [Register "w0"; Register "w1"; Register "w0"; Unregister "w2";
            Register "w2"; Unregister "w0"] "w1" "w2").
  done.
Defined.


End AgentFacts.

(* ===================================================================== *)
(** ** Leader commands *)
(* ===================================================================== *)

Module LeaderCommandsFacts.
Import JsString JsStringFacts LeaderCommands.

(** X30.  When a leader orders one of its assigned workers to follow a
    target and the worker is registered with the relay under the name the
    leader's proxy is connected as, the order reaches the worker's socket:
    the action sends one [leader-command] whose identifier is made of the
    leader, the worker and the time, and the hub's handler emits it to the
    socket the worker registered with, queues it as sent and notifies the
    listeners. *)
Theorem leader_command_reaches_its_worker (proxyName : string) (a : Agent.t)
  (worker_name target : string) (now received registered : Z)
  (sock : CommandRelay.Socket) (r : CommandRelay.t) :
  Agent.isLeader a = true →
  worker_name ∈ Agent.assignedWorkers a →
  let r1 := CommandRelay.registerWorker worker_name proxyName sock registered r in
  let commandId := proxyName +:+ "-" +:+ worker_name +:+ "-" +:+ pretty now in
  ∃ data,
    (workerFollow proxyName a worker_name target now).2 = Some data
    ∧ (onLeaderCommand data received r1).2
      = [Relayed (CommandRelay.EmitWorkerCommand sock "followPlayer"
                    (followArgs target) commandId);
         CommandSent proxyName worker_name "followPlayer" commandId now]
    ∧ CommandRelay.commandQueue (onLeaderCommand data received r1).1 !! commandId
      = Some (CommandRelay.mkCommand proxyName worker_name "followPlayer"
                (followArgs target) received "sent").
Proof.
  intros Hl Hin. cbv zeta. unfold workerFollow. rewrite Hl. cbn [negb].
  unfold strIn. rewrite bool_decide_true by done. cbn [negb snd].
  eexists. split; [reflexivity|].
  unfold onLeaderCommand, sendWorkerCommand.
  cbn [snd lcLeader lcWorker lcCommand lcArgs lcCommandId lcTimestamp].
  set (r1 := CommandRelay.registerWorker worker_name proxyName sock registered r).
  rewrite (CommandRelayFacts.routeCommand_assigned proxyName worker_name _ _ _ _ r1
             (CommandRelay.mkWorker proxyName sock "registered" registered None 20 20)).
  - cbn [fst snd map app]. split; [done|]. cbn. apply lookup_insert_eq.
  - unfold r1, CommandRelay.registerWorker. cbn. apply lookup_insert_eq.
  - done.
Qed.

Lemma leader_command_reaches_its_worker_witness :
  let a := Agent.mkAgent "Lead" true [] ["w0"; "w1"] [] in
  let r1 := CommandRelay.registerWorker "w1" "Lead" 11%nat 2 CommandRelay.empty in
  let commandId := "Lead" +:+ "-" +:+ "w1" +:+ "-" +:+ pretty 1700000000000%Z in
  ∃ data,
    (workerFollow "Lead" a "w1" "Steve" 1700000000000).2 = Some data
    ∧ (onLeaderCommand data 1700000000007 r1).2
      = [Relayed (CommandRelay.EmitWorkerCommand 11%nat "followPlayer"
                    (followArgs "Steve") commandId);
         CommandSent "Lead" "w1" "followPlayer" commandId 1700000000000]
    ∧ CommandRelay.commandQueue (onLeaderCommand data 1700000000007 r1).1 !! commandId
      = Some (CommandRelay.mkCommand "Lead" "w1" "followPlayer"
                (followArgs "Steve") 1700000000007 "sent").
Proof.
  apply (leader_command_reaches_its_worker "Lead"
           (Agent.mkAgent "Lead" true [] ["w0"; "w1"] []) "w1" "Steve"
           1700000000000 1700000000007 2 11%nat CommandRelay.empty).
  - reflexivity.
  - apply list_elem_of_further, list_elem_of_here.
Defined.

End LeaderCommandsFacts.
